(** * Blacklist report: the aggregation engine of
    [web-app/src/utils/dataProcessor.ts] and the batch orchestrator of
    [web-app/src/App.tsx].

    Conventions of the embedding.
    - A JavaScript string is a [string] holding its UTF-8 bytes; [===] on
      strings is [String.eqb] and the empty string is the falsy one.
    - A counter is a JavaScript number that holds an integer, an infinity or
      [NaN]: a [num].  Counters are added as doubles are: the exact sum is
      rounded to 53 significant bits, ties to even, and a sum of magnitude
      2^1024 or more is an infinity, see [to_double] and [num_add].  Integers
      of magnitude below 2^53 are added exactly.
    - A derived rate is a [number]: a rational, [NaN] or an infinity.  The
      quotient of two finite counters is kept as the exact rational, where the
      program rounds it, and its product by 100, to 53 significant bits; the
      overflow of the product to an infinity is kept.
    - A [Map] keeps its keys in insertion order; it is an association list
      updated in place, see [JsMap].
    - [Array.prototype.sort] is stable (ECMAScript 2019); with a consistent
      comparator its result is that of the stable insertion sort [sort].  The
      comparator [(a, b) => b.totalOutbound - a.totalOutbound] is consistent
      as long as no total is [NaN]; with such a total the order is left to
      the engine, and [sort] gives one of the orders it may choose.
    - [forEach] over an array with local accumulators is a [fold_left].
    - The CSV library is not part of the program: [parseCSVData] and
      [handleUpload] take its [parse] function as the variable [Papa_parse].
    - The source file went through two versions.  The record type is that of
      the second one, with the complaint counters; [Base] holds the overall
      reduction of the first one, and [calculateGroupStats] comes from the
      first one, [calculateAccountProvinceStats] from the second. *)

From Stdlib Require Import ZArith QArith Qabs List String Ascii Bool Lia.
From Stdlib Require Import Permutation Sorted.
Import ListNotations.

Open Scope string_scope.
Open Scope Z_scope.

(** ** JavaScript values *)

(** [s || d] on strings: the empty string is falsy. *)
Definition or_str (s d : string) : string :=
  if String.eqb s "" then d else s.

(** The sentinel for a blank account or province. *)
Definition unknown : string := "未知".

(** The numbers that count: the doubles without a fractional part, the two
    infinities and [NaN].  [Int z] stands for the double of value [z]; the
    program only builds it for a [z] that a double can hold. *)
Inductive num : Type :=
| Int (z : Z)
| Inf (negative : bool)
| Nan.

(** The nearest integer with 53 significant bits to an integer [m] that is
    not negative, ties to the even significand. *)
Definition round_to_53_bits (m : Z) : Z :=
  if m <? 2 ^ 53 then m
  else
    let e := Z.log2 m - 52 in
    let q := m / 2 ^ e in
    let r := m mod 2 ^ e in
    let half := 2 ^ (e - 1) in
    if (half <? r) || ((r =? half) && Z.odd q)
    then (q + 1) * 2 ^ e
    else q * 2 ^ e.

(** The double for the exact integer [z]: rounded to nearest, an infinity
    from 2^1024 on. *)
Definition to_double (z : Z) : num :=
  let m := round_to_53_bits (Z.abs z) in
  if 2 ^ 1024 <=? m then Inf (z <? 0) else Int (Z.sgn z * m).

(** [a + b]. *)
Definition num_add (a b : num) : num :=
  match a, b with
  | Nan, _ | _, Nan => Nan
  | Inf s, Inf s' => if Bool.eqb s s' then Inf s else Nan
  | Inf s, Int _ | Int _, Inf s => Inf s
  | Int x, Int y => to_double (x + y)
  end.

(** [a - b]. *)
Definition num_sub (a b : num) : num :=
  match a, b with
  | Nan, _ | _, Nan => Nan
  | Inf s, Inf s' => if Bool.eqb s s' then Nan else Inf s
  | Inf s, Int _ => Inf s
  | Int _, Inf s => Inf (negb s)
  | Int x, Int y => to_double (x - y)
  end.

(** [a < b] and [a <= b]: false as soon as one side is [NaN]. *)
Definition num_ltb (a b : num) : bool :=
  match a, b with
  | Int x, Int y => x <? y
  | Int _, Inf s => negb s
  | Inf s, Int _ => s
  | Inf s, Inf s' => s && negb s'
  | _, _ => false
  end.

Definition num_leb (a b : num) : bool :=
  match a, b with
  | Int x, Int y => x <=? y
  | Int _, Inf s => negb s
  | Inf s, Int _ => s
  | Inf s, Inf s' => s || negb s'
  | _, _ => false
  end.

(** [a > b] and [a >= b]. *)
Definition num_gtb (a b : num) : bool := num_ltb b a.
Definition num_geb (a b : num) : bool := num_leb b a.

(** A number used as a condition: zero and [NaN] are falsy. *)
Definition num_truthy (a : num) : bool :=
  match a with
  | Int z => negb (z =? 0)
  | Inf _ => true
  | Nan => false
  end.

(** What the sort reads from the number its comparator returns: [NaN] counts
    as zero, and only the sign matters. *)
Definition comparator_result (v : num) : Z :=
  match v with
  | Int z => z
  | Inf s => if s then -1 else 1
  | Nan => 0
  end.

Inductive number : Type :=
| Finite (q : Q)
| NaN
| Infinity (negative : bool).

(** [a / b] on two counters. *)
Definition num_div (a b : num) : number :=
  match a, b with
  | Nan, _ | _, Nan => NaN
  | Inf _, Inf _ => NaN
  | Inf s, Int y => Infinity (xorb s (y <? 0))
  | Int _, Inf _ => Finite 0
  | Int x, Int y =>
      if y =? 0 then
        if x =? 0 then NaN else Infinity (x <? 0)
      else Finite (inject_Z x / inject_Z y)
  end.

(** The least magnitude that rounds to an infinity: half a unit in the last
    place above the largest double. *)
Definition overflow_threshold : Q := inject_Z (2 ^ 1024 - 2 ^ 970).

(** [x * k] for a positive integer literal [k]. *)
Definition num_mul (x : number) (k : Z) : number :=
  match x with
  | Finite q =>
      let p := (q * inject_Z k)%Q in
      if Qle_bool overflow_threshold (Qabs p)
      then Infinity (Qnum p <? 0)
      else Finite p
  | NaN => NaN
  | Infinity s => Infinity s
  end.

Declare Scope js_scope.
Delimit Scope js_scope with js.
Notation "a + b" := (num_add a b) : js_scope.
Notation "a - b" := (num_sub a b) : js_scope.
Notation "a / b" := (num_div a b) : js_scope.
Notation "x * k" := (num_mul x k) : js_scope.
Notation "a >? b" := (num_gtb a b) : js_scope.

Definition is_finite (x : number) : Prop :=
  match x with Finite _ => True | _ => False end.


(** The derived-rate formula, in the words of the specification:
    [rate = total > 0 ? (black / total) * 100 : 0], case by case.  A total
    that is zero, negative or [NaN] gives 0.  A positive finite total gives
    the percentage, or what the black count is when it is not finite; an
    infinite total gives 0 for a finite black count and [NaN] otherwise. *)
Definition rate_formula (total black : num) : number :=
  match total, black with
  | Int t, Int b =>
      if 0 <? t then
        let percent := (inject_Z b / inject_Z t * inject_Z 100)%Q in
        if Qle_bool overflow_threshold (Qabs percent)
        then Infinity (b <? 0)
        else Finite percent
      else Finite 0
  | Int t, Inf s => if 0 <? t then Infinity s else Finite 0
  | Int t, Nan => if 0 <? t then NaN else Finite 0
  | Inf false, Int _ => Finite 0
  | Inf false, _ => NaN
  | Inf true, _ => Finite 0
  | Nan, _ => Finite 0
  end.

Definition sumZ (l : list Z) : Z := fold_right Z.add 0 l.

(** ** Records *)

Module BlacklistRecord.
Record t : Type := {
  dt : string;
  account : string;
  province : string;
  group : string;
  total_outbound_count : num;
  black_outbound_count : num;
  total_pickup_count : num;
  black_pickup_count : num;
  total_pay_count : num;
  black_pay_count : num;
  total_complain_count : num;
  black_complain_count : num
}.
End BlacklistRecord.
Import BlacklistRecord.

(** ** Insertion-ordered maps keyed by strings *)

Module JsMap.
Section Defs.
Context {V : Type}.

Definition t : Type := list (string * V).

Definition empty : t := [].

Fixpoint get (k : string) (m : t) : option V :=
  match m with
  | [] => None
  | (k', v) :: m' => if String.eqb k' k then Some v else get k m'
  end.

(** An existing key keeps its position, a new key goes last. *)
Fixpoint set (k : string) (v : V) (m : t) : t :=
  match m with
  | [] => [(k, v)]
  | (k', v') :: m' =>
      if String.eqb k' k then (k', v) :: m' else (k', v') :: set k v m'
  end.

Definition entries (m : t) : list (string * V) := m.
Definition keys (m : t) : list string := map fst m.
Definition values (m : t) : list V := map snd m.
End Defs.
Arguments t : clear implicits.
End JsMap.

(** [x || d] where [x] is the result of [Map.get]: [undefined] is falsy and
    an object is truthy. *)
Definition or_default {V : Type} (x : option V) (d : V) : V :=
  match x with Some v => v | None => d end.

(** ** Stable sort with a comparator *)

Section Sort.
Context {A : Type} (cmp : A -> A -> Z).

Fixpoint insert (x : A) (l : list A) : list A :=
  match l with
  | [] => [x]
  | y :: l' => if cmp x y <=? 0 then x :: y :: l' else y :: insert x l'
  end.

Fixpoint sort (l : list A) : list A :=
  match l with
  | [] => []
  | x :: l' => insert x (sort l')
  end.
End Sort.

(** ** Overall reduction *)

Module OverallStats.
Record t : Type := {
  totalOutbound : num;
  blackOutbound : num;
  totalPickup : num;
  blackPickup : num;
  totalPay : num;
  blackPay : num;
  totalComplain : num;
  blackComplain : num;
  blackOutboundRate : number;
  blackPickupRate : number;
  blackPayRate : number;
  blackComplainRate : number
}.
End OverallStats.

(** The eight [let] accumulators of [calculateOverallStats]. *)
Module Totals.
Record t : Type := {
  totalOutbound : num;
  blackOutbound : num;
  totalPickup : num;
  blackPickup : num;
  totalPay : num;
  blackPay : num;
  totalComplain : num;
  blackComplain : num
}.

Definition zero : t := {|
  totalOutbound := Int 0; blackOutbound := Int 0;
  totalPickup := Int 0; blackPickup := Int 0;
  totalPay := Int 0; blackPay := Int 0;
  totalComplain := Int 0; blackComplain := Int 0
|}.

(** The body of the [forEach] callback. *)
Definition add (acc : t) (record : BlacklistRecord.t) : t := {|
  totalOutbound := (totalOutbound acc + total_outbound_count record)%js;
  blackOutbound := (blackOutbound acc + black_outbound_count record)%js;
  totalPickup := (totalPickup acc + total_pickup_count record)%js;
  blackPickup := (blackPickup acc + black_pickup_count record)%js;
  totalPay := (totalPay acc + total_pay_count record)%js;
  blackPay := (blackPay acc + black_pay_count record)%js;
  totalComplain := (totalComplain acc + total_complain_count record)%js;
  blackComplain := (blackComplain acc + black_complain_count record)%js
|}.
End Totals.

(** [calculateOverallStats], extended schema (with the complaint counters). *)
Definition calculateOverallStats (records : list BlacklistRecord.t)
  : OverallStats.t :=
  let acc := fold_left Totals.add records Totals.zero in
  let totalOutbound := Totals.totalOutbound acc in
  let blackOutbound := Totals.blackOutbound acc in
  let totalPickup := Totals.totalPickup acc in
  let blackPickup := Totals.blackPickup acc in
  let totalPay := Totals.totalPay acc in
  let blackPay := Totals.blackPay acc in
  let totalComplain := Totals.totalComplain acc in
  let blackComplain := Totals.blackComplain acc in
  {| OverallStats.totalOutbound := totalOutbound;
     OverallStats.blackOutbound := blackOutbound;
     OverallStats.totalPickup := totalPickup;
     OverallStats.blackPickup := blackPickup;
     OverallStats.totalPay := totalPay;
     OverallStats.blackPay := blackPay;
     OverallStats.totalComplain := totalComplain;
     OverallStats.blackComplain := blackComplain;
     OverallStats.blackOutboundRate :=
       if (totalOutbound >? Int 0)%js
       then (blackOutbound / totalOutbound * 100)%js else Finite 0;
     OverallStats.blackPickupRate :=
       if (totalPickup >? Int 0)%js
       then (blackPickup / totalPickup * 100)%js else Finite 0;
     OverallStats.blackPayRate :=
       if (totalPay >? Int 0)%js
       then (blackPay / totalPay * 100)%js else Finite 0;
     OverallStats.blackComplainRate :=
       if (totalComplain >? Int 0)%js
       then (blackComplain / totalComplain * 100)%js else Finite 0 |}.

(** The first version of the file, before the complaint counters were added:
    six accumulators and three rates. *)
Module Base.
Module OverallStats.
Record t : Type := {
  totalOutbound : num;
  blackOutbound : num;
  totalPickup : num;
  blackPickup : num;
  totalPay : num;
  blackPay : num;
  blackOutboundRate : number;
  blackPickupRate : number;
  blackPayRate : number
}.
End OverallStats.

Module Totals.
Record t : Type := {
  totalOutbound : num;
  blackOutbound : num;
  totalPickup : num;
  blackPickup : num;
  totalPay : num;
  blackPay : num
}.

Definition zero : t := {|
  totalOutbound := Int 0; blackOutbound := Int 0;
  totalPickup := Int 0; blackPickup := Int 0;
  totalPay := Int 0; blackPay := Int 0
|}.

Definition add (acc : t) (record : BlacklistRecord.t) : t := {|
  totalOutbound := (totalOutbound acc + total_outbound_count record)%js;
  blackOutbound := (blackOutbound acc + black_outbound_count record)%js;
  totalPickup := (totalPickup acc + total_pickup_count record)%js;
  blackPickup := (blackPickup acc + black_pickup_count record)%js;
  totalPay := (totalPay acc + total_pay_count record)%js;
  blackPay := (blackPay acc + black_pay_count record)%js
|}.
End Totals.

Definition calculateOverallStats (records : list BlacklistRecord.t)
  : OverallStats.t :=
  let acc := fold_left Totals.add records Totals.zero in
  let totalOutbound := Totals.totalOutbound acc in
  let blackOutbound := Totals.blackOutbound acc in
  let totalPickup := Totals.totalPickup acc in
  let blackPickup := Totals.blackPickup acc in
  let totalPay := Totals.totalPay acc in
  let blackPay := Totals.blackPay acc in
  {| OverallStats.totalOutbound := totalOutbound;
     OverallStats.blackOutbound := blackOutbound;
     OverallStats.totalPickup := totalPickup;
     OverallStats.blackPickup := blackPickup;
     OverallStats.totalPay := totalPay;
     OverallStats.blackPay := blackPay;
     OverallStats.blackOutboundRate :=
       if (totalOutbound >? Int 0)%js
       then (blackOutbound / totalOutbound * 100)%js else Finite 0;
     OverallStats.blackPickupRate :=
       if (totalPickup >? Int 0)%js
       then (blackPickup / totalPickup * 100)%js else Finite 0;
     OverallStats.blackPayRate :=
       if (totalPay >? Int 0)%js
       then (blackPay / totalPay * 100)%js else Finite 0 |}.
End Base.

(** ** Grouped reductions *)

(** The value type of [groupMap], [provinceMap] and [accountMap]. *)
Module Bucket.
Record t : Type := {
  totalOutbound : num;
  blackOutbound : num;
  totalPickup : num;
  blackPickup : num;
  totalPay : num;
  blackPay : num
}.

(** The object that stands for a key not yet in the map. *)
Definition zero : t := {|
  totalOutbound := Int 0; blackOutbound := Int 0;
  totalPickup := Int 0; blackPickup := Int 0;
  totalPay := Int 0; blackPay := Int 0
|}.

(** The object literal handed to [Map.set]. *)
Definition add (existing : t) (record : BlacklistRecord.t) : t := {|
  totalOutbound := (totalOutbound existing + total_outbound_count record)%js;
  blackOutbound := (blackOutbound existing + black_outbound_count record)%js;
  totalPickup := (totalPickup existing + total_pickup_count record)%js;
  blackPickup := (blackPickup existing + black_pickup_count record)%js;
  totalPay := (totalPay existing + total_pay_count record)%js;
  blackPay := (blackPay existing + black_pay_count record)%js
|}.
End Bucket.

Module GroupStats.
Record t : Type := {
  group : string;
  totalOutbound : num;
  blackOutbound : num;
  totalPickup : num;
  blackPickup : num;
  totalPay : num;
  blackPay : num;
  blackOutboundRate : number;
  blackPickupRate : number
}.
End GroupStats.

Module ProvinceStats.
Record t : Type := {
  province : string;
  totalOutbound : num;
  blackOutbound : num;
  totalPickup : num;
  blackPickup : num;
  totalPay : num;
  blackPay : num;
  blackOutboundRate : number;
  blackPickupRate : number
}.
End ProvinceStats.

Module AccountStats.
Record t : Type := {
  account : string;
  totalOutbound : num;
  blackOutbound : num;
  totalPickup : num;
  blackPickup : num;
  totalPay : num;
  blackPay : num;
  blackOutboundRate : number;
  blackPickupRate : number
}.
End AccountStats.

Module AccountProvinceStats.
Record t : Type := {
  account : string;
  province : string;
  totalOutbound : num;
  blackOutbound : num;
  totalPickup : num;
  blackPickup : num;
  totalPay : num;
  blackPay : num;
  blackOutboundRate : number;
  blackPickupRate : number
}.
End AccountProvinceStats.

(** [groupMap] after the [forEach] of [calculateGroupStats]. *)
Definition groupMap (records : list BlacklistRecord.t) : JsMap.t Bucket.t :=
  fold_left
    (fun groupMap record =>
       let group := group record in
       let existing := or_default (JsMap.get group groupMap) Bucket.zero in
       JsMap.set group (Bucket.add existing record) groupMap)
    records JsMap.empty.

(** The callback of [.map] in [calculateGroupStats]: the key, the spread
    sums and the two derived rates. *)
Definition groupRow (entry : string * Bucket.t) : GroupStats.t :=
  let '(group, stats) := entry in
  {| GroupStats.group := group;
     GroupStats.totalOutbound := Bucket.totalOutbound stats;
     GroupStats.blackOutbound := Bucket.blackOutbound stats;
     GroupStats.totalPickup := Bucket.totalPickup stats;
     GroupStats.blackPickup := Bucket.blackPickup stats;
     GroupStats.totalPay := Bucket.totalPay stats;
     GroupStats.blackPay := Bucket.blackPay stats;
     GroupStats.blackOutboundRate :=
       if (Bucket.totalOutbound stats >? Int 0)%js
       then (Bucket.blackOutbound stats / Bucket.totalOutbound stats * 100)%js
       else Finite 0;
     GroupStats.blackPickupRate :=
       if (Bucket.totalPickup stats >? Int 0)%js
       then (Bucket.blackPickup stats / Bucket.totalPickup stats * 100)%js
       else Finite 0 |}.

Definition calculateGroupStats (records : list BlacklistRecord.t)
  : list GroupStats.t :=
  map groupRow (JsMap.entries (groupMap records)).

(** An optional string argument used as a condition: [undefined] and the
    empty string are falsy. *)
Definition truthy (x : option string) : bool :=
  match x with
  | Some s => negb (String.eqb s "")
  | None => false
  end.

(** [r.group === group] where [group] is the optional argument. *)
Definition strict_eq (s : string) (x : option string) : bool :=
  match x with
  | Some s' => String.eqb s s'
  | None => false
  end.

(** [provinceMap] after the [forEach] of [calculateProvinceStats]. *)
Definition provinceMap (filteredRecords : list BlacklistRecord.t)
  : JsMap.t Bucket.t :=
  fold_left
    (fun provinceMap record =>
       let province := or_str (province record) unknown in
       let existing :=
         or_default (JsMap.get province provinceMap) Bucket.zero in
       JsMap.set province (Bucket.add existing record) provinceMap)
    filteredRecords JsMap.empty.

(** [filteredRecords] in [calculateProvinceStats]. *)
Definition provinceFilteredRecords (records : list BlacklistRecord.t)
  (group : option string) : list BlacklistRecord.t :=
  if truthy group
  then filter (fun r => strict_eq (BlacklistRecord.group r) group) records
  else records.

(** The callback of [.map] in [calculateProvinceStats]. *)
Definition provinceRow (entry : string * Bucket.t) : ProvinceStats.t :=
  let '(province, stats) := entry in
  {| ProvinceStats.province := province;
     ProvinceStats.totalOutbound := Bucket.totalOutbound stats;
     ProvinceStats.blackOutbound := Bucket.blackOutbound stats;
     ProvinceStats.totalPickup := Bucket.totalPickup stats;
     ProvinceStats.blackPickup := Bucket.blackPickup stats;
     ProvinceStats.totalPay := Bucket.totalPay stats;
     ProvinceStats.blackPay := Bucket.blackPay stats;
     ProvinceStats.blackOutboundRate :=
       if (Bucket.totalOutbound stats >? Int 0)%js
       then (Bucket.blackOutbound stats / Bucket.totalOutbound stats * 100)%js
       else Finite 0;
     ProvinceStats.blackPickupRate :=
       if (Bucket.totalPickup stats >? Int 0)%js
       then (Bucket.blackPickup stats / Bucket.totalPickup stats * 100)%js
       else Finite 0 |}.

Definition calculateProvinceStats (records : list BlacklistRecord.t)
  (group : option string) : list ProvinceStats.t :=
  let filteredRecords := provinceFilteredRecords records group in
  sort (fun a b =>
          comparator_result
            (ProvinceStats.totalOutbound b - ProvinceStats.totalOutbound a)%js)
    (map provinceRow (JsMap.entries (provinceMap filteredRecords))).

(** [accountMap] after the [forEach] of [calculateAccountStats]. *)
Definition accountMap (records : list BlacklistRecord.t) : JsMap.t Bucket.t :=
  fold_left
    (fun accountMap record =>
       let account := or_str (account record) unknown in
       let existing := or_default (JsMap.get account accountMap) Bucket.zero in
       JsMap.set account (Bucket.add existing record) accountMap)
    records JsMap.empty.

(** The callback of [.map] in [calculateAccountStats]. *)
Definition accountRow (entry : string * Bucket.t) : AccountStats.t :=
  let '(account, stats) := entry in
  {| AccountStats.account := account;
     AccountStats.totalOutbound := Bucket.totalOutbound stats;
     AccountStats.blackOutbound := Bucket.blackOutbound stats;
     AccountStats.totalPickup := Bucket.totalPickup stats;
     AccountStats.blackPickup := Bucket.blackPickup stats;
     AccountStats.totalPay := Bucket.totalPay stats;
     AccountStats.blackPay := Bucket.blackPay stats;
     AccountStats.blackOutboundRate :=
       if (Bucket.totalOutbound stats >? Int 0)%js
       then (Bucket.blackOutbound stats / Bucket.totalOutbound stats * 100)%js
       else Finite 0;
     AccountStats.blackPickupRate :=
       if (Bucket.totalPickup stats >? Int 0)%js
       then (Bucket.blackPickup stats / Bucket.totalPickup stats * 100)%js
       else Finite 0 |}.

Definition calculateAccountStats (records : list BlacklistRecord.t)
  : list AccountStats.t :=
  sort (fun a b =>
          comparator_result
            (AccountStats.totalOutbound b - AccountStats.totalOutbound a)%js)
    (map accountRow (JsMap.entries (accountMap records))).

(** The value type of [accountProvinceMap]. *)
Module AccountProvinceBucket.
Record t : Type := {
  account : string;
  province : string;
  totalOutbound : num;
  blackOutbound : num;
  totalPickup : num;
  blackPickup : num;
  totalPay : num;
  blackPay : num
}.

(** The object that stands for a key not yet in the map. *)
Definition init (record : BlacklistRecord.t) : t := {|
  account := or_str (BlacklistRecord.account record) unknown;
  province := or_str (BlacklistRecord.province record) unknown;
  totalOutbound := Int 0; blackOutbound := Int 0;
  totalPickup := Int 0; blackPickup := Int 0;
  totalPay := Int 0; blackPay := Int 0
|}.

(** The object literal handed to [Map.set]. *)
Definition add (existing : t) (record : BlacklistRecord.t) : t := {|
  account := or_str (BlacklistRecord.account record) unknown;
  province := or_str (BlacklistRecord.province record) unknown;
  totalOutbound := (totalOutbound existing + total_outbound_count record)%js;
  blackOutbound := (blackOutbound existing + black_outbound_count record)%js;
  totalPickup := (totalPickup existing + total_pickup_count record)%js;
  blackPickup := (blackPickup existing + black_pickup_count record)%js;
  totalPay := (totalPay existing + total_pay_count record)%js;
  blackPay := (blackPay existing + black_pay_count record)%js
|}.
End AccountProvinceBucket.

(** The template literal [`${record.account}|${record.province || '未知'}`]. *)
Definition accountProvinceKey (record : BlacklistRecord.t) : string :=
  account record ++ "|" ++ or_str (province record) unknown.

(** [accountProvinceMap] after the [forEach] of
    [calculateAccountProvinceStats]. *)
Definition accountProvinceMap (filteredRecords : list BlacklistRecord.t)
  : JsMap.t AccountProvinceBucket.t :=
  fold_left
    (fun accountProvinceMap record =>
       let key := accountProvinceKey record in
       let existing :=
         or_default (JsMap.get key accountProvinceMap)
           (AccountProvinceBucket.init record) in
       JsMap.set key (AccountProvinceBucket.add existing record)
         accountProvinceMap)
    filteredRecords JsMap.empty.

(** [filteredRecords] in [calculateAccountProvinceStats]. *)
Definition accountFilteredRecords (records : list BlacklistRecord.t)
  (account : option string) : list BlacklistRecord.t :=
  if truthy account
  then filter (fun r => strict_eq (BlacklistRecord.account r) account) records
  else records.

(** The callback of [.map] in [calculateAccountProvinceStats]. *)
Definition accountProvinceRow (stats : AccountProvinceBucket.t)
  : AccountProvinceStats.t :=
  {| AccountProvinceStats.account := AccountProvinceBucket.account stats;
     AccountProvinceStats.province := AccountProvinceBucket.province stats;
     AccountProvinceStats.totalOutbound :=
       AccountProvinceBucket.totalOutbound stats;
     AccountProvinceStats.blackOutbound :=
       AccountProvinceBucket.blackOutbound stats;
     AccountProvinceStats.totalPickup :=
       AccountProvinceBucket.totalPickup stats;
     AccountProvinceStats.blackPickup :=
       AccountProvinceBucket.blackPickup stats;
     AccountProvinceStats.totalPay := AccountProvinceBucket.totalPay stats;
     AccountProvinceStats.blackPay := AccountProvinceBucket.blackPay stats;
     AccountProvinceStats.blackOutboundRate :=
       if (AccountProvinceBucket.totalOutbound stats >? Int 0)%js
       then (AccountProvinceBucket.blackOutbound stats
             / AccountProvinceBucket.totalOutbound stats * 100)%js
       else Finite 0;
     AccountProvinceStats.blackPickupRate :=
       if (AccountProvinceBucket.totalPickup stats >? Int 0)%js
       then (AccountProvinceBucket.blackPickup stats
             / AccountProvinceBucket.totalPickup stats * 100)%js
       else Finite 0 |}.

Definition calculateAccountProvinceStats (records : list BlacklistRecord.t)
  (account : option string) : list AccountProvinceStats.t :=
  let filteredRecords := accountFilteredRecords records account in
  sort (fun a b =>
          comparator_result
            (AccountProvinceStats.totalOutbound b
             - AccountProvinceStats.totalOutbound a)%js)
    (map accountProvinceRow
       (JsMap.values (accountProvinceMap filteredRecords))).

(** ** Rows as objects

    A row is a plain object; reading a property it does not own gives
    [undefined].  [props] lists the own properties of each object literal in
    the order the literal creates them, and [get_prop] reads one by name. *)

Inductive value : Type :=
| Str (s : string)
| Count (n : num)
| Num (x : number).

Fixpoint get_prop (name : string) (o : list (string * value)) : option value :=
  match o with
  | [] => None
  | (k, v) :: o' => if String.eqb k name then Some v else get_prop name o'
  end.

Definition GroupStats_props (row : GroupStats.t) : list (string * value) :=
  [ ("group", Str (GroupStats.group row));
    ("totalOutbound", Count (GroupStats.totalOutbound row));
    ("blackOutbound", Count (GroupStats.blackOutbound row));
    ("totalPickup", Count (GroupStats.totalPickup row));
    ("blackPickup", Count (GroupStats.blackPickup row));
    ("totalPay", Count (GroupStats.totalPay row));
    ("blackPay", Count (GroupStats.blackPay row));
    ("blackOutboundRate", Num (GroupStats.blackOutboundRate row));
    ("blackPickupRate", Num (GroupStats.blackPickupRate row)) ].

Definition ProvinceStats_props (row : ProvinceStats.t)
  : list (string * value) :=
  [ ("province", Str (ProvinceStats.province row));
    ("totalOutbound", Count (ProvinceStats.totalOutbound row));
    ("blackOutbound", Count (ProvinceStats.blackOutbound row));
    ("totalPickup", Count (ProvinceStats.totalPickup row));
    ("blackPickup", Count (ProvinceStats.blackPickup row));
    ("totalPay", Count (ProvinceStats.totalPay row));
    ("blackPay", Count (ProvinceStats.blackPay row));
    ("blackOutboundRate", Num (ProvinceStats.blackOutboundRate row));
    ("blackPickupRate", Num (ProvinceStats.blackPickupRate row)) ].

Definition AccountStats_props (row : AccountStats.t)
  : list (string * value) :=
  [ ("account", Str (AccountStats.account row));
    ("totalOutbound", Count (AccountStats.totalOutbound row));
    ("blackOutbound", Count (AccountStats.blackOutbound row));
    ("totalPickup", Count (AccountStats.totalPickup row));
    ("blackPickup", Count (AccountStats.blackPickup row));
    ("totalPay", Count (AccountStats.totalPay row));
    ("blackPay", Count (AccountStats.blackPay row));
    ("blackOutboundRate", Num (AccountStats.blackOutboundRate row));
    ("blackPickupRate", Num (AccountStats.blackPickupRate row)) ].

Definition AccountProvinceStats_props (row : AccountProvinceStats.t)
  : list (string * value) :=
  [ ("account", Str (AccountProvinceStats.account row));
    ("province", Str (AccountProvinceStats.province row));
    ("totalOutbound", Count (AccountProvinceStats.totalOutbound row));
    ("blackOutbound", Count (AccountProvinceStats.blackOutbound row));
    ("totalPickup", Count (AccountProvinceStats.totalPickup row));
    ("blackPickup", Count (AccountProvinceStats.blackPickup row));
    ("totalPay", Count (AccountProvinceStats.totalPay row));
    ("blackPay", Count (AccountProvinceStats.blackPay row));
    ("blackOutboundRate", Num (AccountProvinceStats.blackOutboundRate row));
    ("blackPickupRate", Num (AccountProvinceStats.blackPickupRate row)) ].

(** ** The record parser *)

Definition code (c : ascii) : Z := Z.of_N (N_of_ascii c).

(** TAB, LF, VT, FF, CR and SPACE. *)
Definition white1 (c : Z) : bool :=
  ((9 <=? c) && (c <=? 13)) || (c =? 32).

(** U+00A0 in UTF-8. *)
Definition white2 (c1 c2 : Z) : bool :=
  (c1 =? 194) && (c2 =? 160).

(** U+1680, U+2000 to U+200A, U+2028, U+2029, U+202F, U+205F, U+3000 and
    U+FEFF in UTF-8. *)
Definition white3 (c1 c2 c3 : Z) : bool :=
  ((c1 =? 225) && (c2 =? 154) && (c3 =? 128))
  || ((c1 =? 226) && (c2 =? 128)
      && (((128 <=? c3) && (c3 <=? 138)) || (c3 =? 168) || (c3 =? 169)
          || (c3 =? 175)))
  || ((c1 =? 226) && (c2 =? 129) && (c3 =? 159))
  || ((c1 =? 227) && (c2 =? 128) && (c3 =? 128))
  || ((c1 =? 239) && (c2 =? 187) && (c3 =? 191)).

(** The leading white space and line terminators [parseInt] skips. *)
Fixpoint trim_start (s : string) : string :=
  match s with
  | EmptyString => s
  | String c1 s1 =>
      if white1 (code c1) then trim_start s1
      else
        match s1 with
        | EmptyString => s
        | String c2 s2 =>
            if white2 (code c1) (code c2) then trim_start s2
            else
              match s2 with
              | EmptyString => s
              | String c3 s3 =>
                  if white3 (code c1) (code c2) (code c3) then trim_start s3
                  else s
              end
        end
  end.

(** The value of a digit in radix [R], when it is one. *)
Definition digit_value (R : Z) (c : ascii) : option Z :=
  let n := code c in
  let d :=
    if (48 <=? n) && (n <=? 57) then Some (n - 48)
    else if (97 <=? n) && (n <=? 122) then Some (n - 87)
    else if (65 <=? n) && (n <=? 90) then Some (n - 55)
    else None in
  match d with
  | Some d => if d <? R then Some d else None
  | None => None
  end.

(** The longest prefix of digits, read in radix [R]; [None] when it is
    empty. *)
Fixpoint parse_digits (R : Z) (s : string) (acc : option Z) : option Z :=
  match s with
  | EmptyString => acc
  | String c s' =>
      match digit_value R c with
      | Some d => parse_digits R s' (Some (R * or_default acc 0 + d))
      | None => acc
      end
  end.

(** The sign of the number and the text after the sign character. *)
Definition strip_sign (s : string) : Z * string :=
  match s with
  | String c rest =>
      if Ascii.eqb c "-" then (-1, rest)
      else if Ascii.eqb c "+" then (1, rest)
      else (1, s)
  | EmptyString => (1, s)
  end.

(** The radix and the text after a "0x" or "0X" prefix. *)
Definition strip_prefix (s : string) : Z * string :=
  match s with
  | String c1 (String c2 rest) =>
      if Ascii.eqb c1 "0" && (Ascii.eqb c2 "x" || Ascii.eqb c2 "X")
      then (16, rest)
      else (10, s)
  | _ => (10, s)
  end.

(** [parseInt(string)] without a radix: the double for the integer that the
    digits denote, and [NaN] without a digit.  An engine may read the decimal
    digits after the twentieth as zeros; all of them are read here. *)
Definition parseInt (inputString : string) : num :=
  let trimmed := trim_start inputString in
  let '(sign, unsigned) := strip_sign trimmed in
  let '(R, digits) := strip_prefix unsigned in
  match parse_digits R digits None with
  | Some mathInt => to_double (sign * mathInt)
  | None => Nan
  end.

(** [ToString] of a property that may be [undefined]. *)
Definition to_string (x : option string) : string :=
  match x with Some s => s | None => "undefined" end.

(** [x || d] on numbers: [NaN] and zero are falsy, an infinity is not. *)
Definition or_num (x d : num) : num :=
  if num_truthy x then x else d.

(** [x || d] for a property that may be [undefined]. *)
Definition or_prop (x : option string) (d : string) : string :=
  match x with Some s => or_str s d | None => d end.

(** A row object of the CSV library: one property per header column, absent
    when the file has no such column. *)
Module CSVRow.
Record t : Type := {
  dt : option string;
  account : option string;
  province : option string;
  group : option string;
  total_outbound_count : option string;
  black_outbound_count : option string;
  total_pickup_count : option string;
  black_pickup_count : option string;
  total_pay_count : option string;
  black_pay_count : option string;
  total_complain_count : option string;
  black_complain_count : option string
}.
End CSVRow.

Module ParseError.
Record t : Type := {
  type : string;
  code : string;
  message : string;
  row : option Z
}.
End ParseError.

Module ParseResult.
Record t : Type := {
  data : option (list CSVRow.t);
  errors : list ParseError.t
}.
End ParseResult.

Module UploadedFile.
Record t : Type := {
  name : string;
  content : string
}.
End UploadedFile.

Module BatchFileResult.
Record t : Type := {
  fileName : string;
  stats : OverallStats.t;
  rawData : list BlacklistRecord.t
}.
End BatchFileResult.

(** The two pieces of React state [handleUpload] writes. *)
Module AppState.
Record t : Type := {
  data : option (list BlacklistRecord.t);
  batchData : option (list BatchFileResult.t)
}.
End AppState.

(** [/\.csv$/i] matches at this position: the rest of the string is ".csv"
    in any letter case. *)
Definition matches_dot_csv (s : string) : bool :=
  match s with
  | String c1 (String c2 (String c3 (String c4 EmptyString))) =>
      (code c1 =? 46)
      && ((code c2 =? 99) || (code c2 =? 67))
      && ((code c3 =? 115) || (code c3 =? 83))
      && ((code c4 =? 118) || (code c4 =? 86))
  | _ => false
  end.

(** [name.replace(/\.csv$/i, '')]. *)
Fixpoint strip_csv (name : string) : string :=
  if matches_dot_csv name then ""
  else
    match name with
    | EmptyString => ""
    | String c name' => String c (strip_csv name')
    end.

Section Parser.

(** [Papa.parse(csvText, { header: true, skipEmptyLines: true })], the CSV
    library the program calls. *)
Variable Papa_parse : string -> ParseResult.t.

Definition parseCSVData (csvText : string) : list BlacklistRecord.t :=
  let result := Papa_parse csvText in
  match ParseResult.data result with
  | Some data =>
      if (0 <? Z.of_nat (List.length (ParseResult.errors result)))
      then []
      else
        map (fun row =>
               {| dt := or_prop (CSVRow.dt row) "";
                  account := or_prop (CSVRow.account row) unknown;
                  province := or_prop (CSVRow.province row) unknown;
                  group := or_prop (CSVRow.group row) "";
                  total_outbound_count :=
                    or_num (parseInt (to_string
                      (CSVRow.total_outbound_count row))) (Int 0);
                  black_outbound_count :=
                    or_num (parseInt (to_string
                      (CSVRow.black_outbound_count row))) (Int 0);
                  total_pickup_count :=
                    or_num (parseInt (to_string
                      (CSVRow.total_pickup_count row))) (Int 0);
                  black_pickup_count :=
                    or_num (parseInt (to_string
                      (CSVRow.black_pickup_count row))) (Int 0);
                  total_pay_count :=
                    or_num (parseInt (to_string
                      (CSVRow.total_pay_count row))) (Int 0);
                  black_pay_count :=
                    or_num (parseInt (to_string
                      (CSVRow.black_pay_count row))) (Int 0);
                  total_complain_count :=
                    or_num (parseInt (to_string
                      (CSVRow.total_complain_count row))) (Int 0);
                  black_complain_count :=
                    or_num (parseInt (to_string
                      (CSVRow.black_complain_count row))) (Int 0) |})
            data
  | None => []
  end.

(** The loop of the batch branch: one result pushed for each file with at
    least one record. *)
Definition batchResults (files : list UploadedFile.t)
  : list BatchFileResult.t :=
  fold_left
    (fun results file =>
       let records := parseCSVData (UploadedFile.content file) in
       if (0 <? Z.of_nat (List.length records))
       then
         let stats := calculateOverallStats records in
         (results ++ [ {| BatchFileResult.fileName :=
                             strip_csv (UploadedFile.name file);
                           BatchFileResult.stats := stats;
                           BatchFileResult.rawData := records |} ])%list
       else results)
    files [].

(** [handleUpload]: the new state and the messages shown with [alert]. *)
Definition handleUpload (files : list UploadedFile.t) (isBatch : bool)
  (st : AppState.t) : AppState.t * list string :=
  match files with
  | [] => (st, [])
  | file0 :: _ =>
      if isBatch then
        let results := batchResults files in
        if (List.length results =? 0)%nat
        then (st, ["没有有效的 CSV 数据"])
        else ({| AppState.data := None; AppState.batchData := Some results |},
              [])
      else
        let records := parseCSVData (UploadedFile.content file0) in
        if (List.length records =? 0)%nat
        then (st, ["无法解析CSV文件，请检查文件格式"])
        else ({| AppState.data := Some records; AppState.batchData := None |},
              [])
  end.

End Parser.

(** ** Vocabulary of the statements *)

(** The distinct keys of a list, in the order of their first occurrence. *)
Fixpoint first_seen (l : list string) : list string :=
  match l with
  | [] => []
  | k :: l' => k :: filter (fun k' => negb (String.eqb k' k)) (first_seen l')
  end.

(** The sum of a list of numbers as the program adds them: from zero, from
    left to right, every addition rounded. *)
Definition sum_num (l : list num) : num := fold_left num_add l (Int 0).

Definition is_int (x : num) : bool :=
  match x with Int _ => true | _ => false end.

Definition is_nan (x : num) : bool :=
  match x with Nan => true | _ => false end.

(** The integer a finite number holds. *)
Definition int_value (x : num) : Z :=
  match x with Int z => z | _ => 0 end.

(** Two numbers are the same value, [NaN] included. *)
Definition num_eqb (a b : num) : bool :=
  match a, b with
  | Int x, Int y => x =? y
  | Inf s, Inf s' => Bool.eqb s s'
  | Nan, Nan => true
  | _, _ => false
  end.

(** The exact sum of the counter [c] over the records, when it holds
    integers. *)
Definition exact_sum (c : BlacklistRecord.t -> num)
  (records : list BlacklistRecord.t) : Z :=
  sumZ (map (fun r => int_value (c r)) records).

(** The counter [c] holds integers whose magnitudes add up to less than 2^53
    over the records: every sum of some of them, in any order, is an integer
    that a double holds exactly. *)
Definition safe (c : BlacklistRecord.t -> num)
  (records : list BlacklistRecord.t) : Prop :=
  Forall (fun r => is_int (c r) = true) records
  /\ sumZ (map (fun r => Z.abs (int_value (c r))) records) < 2 ^ 53.

(** The numbers of the list are integers, and they add up to [total] both
    exactly and as the program adds them. *)
Definition add_up_to (l : list num) (total : num) : Prop :=
  Forall (fun x => is_int x = true) l
  /\ total = Int (sumZ (map int_value l))
  /\ sum_num l = total.

(** The value of a summed field for a key that may be absent. *)
Definition opt_field {V : Type} (f : V -> num) (o : option V) : num :=
  match o with Some v => f v | None => Int 0 end.

(** The common shape of the four grouping loops: every record replaces the
    entry of its key by a value computed from the existing one. *)
Section GroupBy.
Context {V : Type}.
Variable key : BlacklistRecord.t -> string.
Variable upd : option V -> BlacklistRecord.t -> V.

Definition groupBy (records : list BlacklistRecord.t) (m : JsMap.t V)
  : JsMap.t V :=
  fold_left
    (fun m record =>
       JsMap.set (key record) (upd (JsMap.get (key record) m) record) m)
    records m.
End GroupBy.

(** [k] is not among the keys [ks]. *)
Definition fresh (ks : list string) (k : string) : bool :=
  negb (existsb (String.eqb k) ks).

(** The value [Map.set] receives, from what [Map.get] returned. *)
Definition bucketUpd (o : option Bucket.t) (record : BlacklistRecord.t)
  : Bucket.t :=
  Bucket.add (or_default o Bucket.zero) record.

Definition accountProvinceUpd (o : option AccountProvinceBucket.t)
  (record : BlacklistRecord.t) : AccountProvinceBucket.t :=
  AccountProvinceBucket.add
    (or_default o (AccountProvinceBucket.init record)) record.

(** The key of a record in [provinceMap] and in [accountMap]. *)
Definition provinceKey (record : BlacklistRecord.t) : string :=
  or_str (province record) unknown.

Definition accountKey (record : BlacklistRecord.t) : string :=
  or_str (account record) unknown.

(** The records of a list whose key is [k]. *)
Definition with_key (key : BlacklistRecord.t -> string) (k : string)
  (records : list BlacklistRecord.t) : list BlacklistRecord.t :=
  filter (fun r => String.eqb (key r) k) records.





(** The summed fields of the overall reduction, each with the counter it
    sums: the eight of the extended schema and the six of the first
    version. *)
Definition overall_fields
  : list ((OverallStats.t -> num) * (BlacklistRecord.t -> num)) :=
  [ (OverallStats.totalOutbound, total_outbound_count);
    (OverallStats.blackOutbound, black_outbound_count);
    (OverallStats.totalPickup, total_pickup_count);
    (OverallStats.blackPickup, black_pickup_count);
    (OverallStats.totalPay, total_pay_count);
    (OverallStats.blackPay, black_pay_count);
    (OverallStats.totalComplain, total_complain_count);
    (OverallStats.blackComplain, black_complain_count) ].

Definition base_fields
  : list ((Base.OverallStats.t -> num) * (BlacklistRecord.t -> num)) :=
  [ (Base.OverallStats.totalOutbound, total_outbound_count);
    (Base.OverallStats.blackOutbound, black_outbound_count);
    (Base.OverallStats.totalPickup, total_pickup_count);
    (Base.OverallStats.blackPickup, black_pickup_count);
    (Base.OverallStats.totalPay, total_pay_count);
    (Base.OverallStats.blackPay, black_pay_count) ].

(** The six sums of a bucket are the six counters added up over [rs], in the
    order of [rs]. *)
Definition bucket_sums (b : Bucket.t) (rs : list BlacklistRecord.t) : Prop :=
  Bucket.totalOutbound b = sum_num (map total_outbound_count rs)
  /\ Bucket.blackOutbound b = sum_num (map black_outbound_count rs)
  /\ Bucket.totalPickup b = sum_num (map total_pickup_count rs)
  /\ Bucket.blackPickup b = sum_num (map black_pickup_count rs)
  /\ Bucket.totalPay b = sum_num (map total_pay_count rs)
  /\ Bucket.blackPay b = sum_num (map black_pay_count rs).

(** The same for a row of the province reduction. *)
Definition province_row_sums (row : ProvinceStats.t)
  (rs : list BlacklistRecord.t) : Prop :=
  ProvinceStats.totalOutbound row = sum_num (map total_outbound_count rs)
  /\ ProvinceStats.blackOutbound row = sum_num (map black_outbound_count rs)
  /\ ProvinceStats.totalPickup row = sum_num (map total_pickup_count rs)
  /\ ProvinceStats.blackPickup row = sum_num (map black_pickup_count rs)
  /\ ProvinceStats.totalPay row = sum_num (map total_pay_count rs)
  /\ ProvinceStats.blackPay row = sum_num (map black_pay_count rs).

(** Every adjacent pair of a list of totals satisfies [>=]. *)
Definition descending (totals : list num) : Prop :=
  forall i x y,
    nth_error totals i = Some x -> nth_error totals (S i) = Some y ->
    num_geb x y = true.


(** The text has a minus sign after its leading white space. *)
Definition starts_with_minus (s : string) : bool :=
  match trim_start s with
  | String c _ => Ascii.eqb c "-"
  | EmptyString => false
  end.

Definition is_digit (c : ascii) : bool :=
  (48 <=? code c) && (code c <=? 57).

(** The text has a decimal digit after its leading white space and its
    sign. *)
Definition leading_digit (s : string) : bool :=
  match snd (strip_sign (trim_start s)) with
  | String c _ => is_digit c
  | EmptyString => false
  end.

(** The text has "0x" or "0X" after its leading white space and its sign. *)
Definition hex_prefix (s : string) : bool :=
  fst (strip_prefix (snd (strip_sign (trim_start s)))) =? 16.

(** The longest prefix of decimal digits of a text. *)
Fixpoint leading_digits (s : string) : string :=
  match s with
  | String c s' => if is_digit c then String c (leading_digits s') else ""
  | EmptyString => ""
  end.

(** The value of a string of decimal digits read after [acc]. *)
Fixpoint digits_value (s : string) (acc : Z) : Z :=
  match s with
  | EmptyString => acc
  | String c s' => digits_value s' (10 * acc + (code c - 48))
  end.

(** The integer that the sign and the leading decimal digits of a text
    denote, after its leading white space. *)
Definition decimal_prefix_value (s : string) : Z :=
  fst (strip_sign (trim_start s))
  * digits_value (leading_digits (snd (strip_sign (trim_start s)))) 0.

(** The counters of a record, each with the column it is read from. *)
Definition counter_columns
  : list ((BlacklistRecord.t -> num) * (CSVRow.t -> option string)) :=
  [ (total_outbound_count, CSVRow.total_outbound_count);
    (black_outbound_count, CSVRow.black_outbound_count);
    (total_pickup_count, CSVRow.total_pickup_count);
    (black_pickup_count, CSVRow.black_pickup_count);
    (total_pay_count, CSVRow.total_pay_count);
    (black_pay_count, CSVRow.black_pay_count);
    (total_complain_count, CSVRow.total_complain_count);
    (black_complain_count, CSVRow.black_complain_count) ].

(** What a counter [n] read from the cell [cell] satisfies.  It is never
    [NaN].  It is zero for an absent cell and for a text without a leading
    decimal digit, and negative only under a minus sign.  For a text with a
    leading decimal digit and no hexadecimal prefix it is the double for the
    integer that the sign and the leading digits denote: that integer itself
    when its magnitude is below 2^53. *)
Definition counter_of_cell (n : num) (cell : option string) : Prop :=
  n <> Nan
  /\ (cell = None -> n = Int 0)
  /\ (leading_digit (to_string cell) = false -> n = Int 0)
  /\ (starts_with_minus (to_string cell) = false -> num_leb (Int 0) n = true)
  /\ (forall text,
        cell = Some text -> leading_digit text = true ->
        hex_prefix text = false ->
        n = to_double (decimal_prefix_value text)
        /\ (Z.abs (decimal_prefix_value text) < 2 ^ 53 ->
            n = Int (decimal_prefix_value text))).

(** One result of the batch for a file, given its records. *)
Definition batchFileResult (file : UploadedFile.t)
  (records : list BlacklistRecord.t) : BatchFileResult.t :=
  {| BatchFileResult.fileName := strip_csv (UploadedFile.name file);
     BatchFileResult.stats := calculateOverallStats records;
     BatchFileResult.rawData := records |}.

Definition is_empty {A : Type} (l : list A) : bool :=
  match l with [] => true | _ => false end.

(** ** Sample inputs *)

(** A record with the given dimensions and outbound counters, which may be
    any number; the other counters are zero. *)
Definition sample_counts (account province group : string)
  (total_outbound black_outbound : num) : BlacklistRecord.t :=
  {| dt := "2024-01-01";
     account := account;
     province := province;
     group := group;
     total_outbound_count := total_outbound;
     black_outbound_count := black_outbound;
     total_pickup_count := Int 0;
     black_pickup_count := Int 0;
     total_pay_count := Int 0;
     black_pay_count := Int 0;
     total_complain_count := Int 0;
     black_complain_count := Int 0 |}.

(** A record with the given dimensions and integer outbound and payment
    counters; the other counters are zero. *)
Definition sample_record (account province group : string)
  (total_outbound black_outbound total_pay black_pay : Z)
  : BlacklistRecord.t :=
  {| dt := "2024-01-01";
     account := account;
     province := province;
     group := group;
     total_outbound_count := Int total_outbound;
     black_outbound_count := Int black_outbound;
     total_pickup_count := Int 0;
     black_pickup_count := Int 0;
     total_pay_count := Int total_pay;
     black_pay_count := Int black_pay;
     total_complain_count := Int 0;
     black_complain_count := Int 0 |}.

Definition LF : string := String (ascii_of_nat 10) "".

(** The row object for a line that has cells for the two outbound columns
    only. *)
Definition sample_row (total_outbound black_outbound : string) : CSVRow.t :=
  {| CSVRow.dt := None;
     CSVRow.account := None;
     CSVRow.province := None;
     CSVRow.group := None;
     CSVRow.total_outbound_count := Some total_outbound;
     CSVRow.black_outbound_count := Some black_outbound;
     CSVRow.total_pickup_count := None;
     CSVRow.black_pickup_count := None;
     CSVRow.total_pay_count := None;
     CSVRow.black_pay_count := None;
     CSVRow.total_complain_count := None;
     CSVRow.black_complain_count := None |}.

Definition sample_csv : string :=
  "total_outbound_count,black_outbound_count" ++ LF ++ "-5,3" ++ LF.

(** A text of [n] digits 9. *)
Fixpoint nines (n : nat) : string :=
  match n with
  | O => ""
  | S n' => String "9" (nines n')
  end.

(** A file whose cells are not plain numbers: a number followed by letters,
    a hexadecimal number, a number of 309 digits and a number in scientific
    notation. *)
Definition odd_csv : string :=
  "total_outbound_count,black_outbound_count" ++ LF
  ++ "12abc,0x1A" ++ LF
  ++ nines 309 ++ ",1e3" ++ LF.

(** The CSV library on [sample_csv] and on [odd_csv]: their rows and no
    error.  Any other text stands for a file without a data row. *)
Definition sample_Papa_parse (csvText : string) : ParseResult.t :=
  if String.eqb csvText sample_csv
  then {| ParseResult.data := Some [sample_row "-5" "3"];
          ParseResult.errors := [] |}
  else if String.eqb csvText odd_csv
  then {| ParseResult.data :=
            Some [sample_row "12abc" "0x1A"; sample_row (nines 309) "1e3"];
          ParseResult.errors := [] |}
  else {| ParseResult.data := Some []; ParseResult.errors := [] |}.

Definition initial_state : AppState.t :=
  {| AppState.data := None; AppState.batchData := None |}.

(** ** Distinct-value helpers *)

(** A [Set] of strings keeps its values in insertion order; adding a value
    it holds changes nothing. *)
Module JsSet.
Definition t : Type := list string.

Definition empty : t := [].

Definition has (k : string) (s : t) : bool := existsb (String.eqb k) s.

Definition add (k : string) (s : t) : t :=
  if has k s then s else (s ++ [k])%list.

Definition size (s : t) : Z := Z.of_nat (List.length s).

(** [Array.from(set)]. *)
Definition to_array (s : t) : list string := s.
End JsSet.

(** The group label of the records outside any blacklist rule. *)
Definition notTriggered : string := "未触发黑名单部分".

Section UniqueGroups.

(** [a.localeCompare(b)], the collation of the host. *)
Variable localeCompare : string -> string -> Z.

Definition getUniqueGroups (records : list BlacklistRecord.t) : list string :=
  let groups :=
    fold_left (fun groups r => JsSet.add (group r) groups)
      records JsSet.empty in
  sort (fun a b =>
          if String.eqb a notTriggered then -1
          else if String.eqb b notTriggered then 1
          else localeCompare a b)
    (JsSet.to_array groups).

End UniqueGroups.

(** The rank of a byte of UTF-8 text in the order of UTF-16 code units.
    Bytes compare as the code points they start, except that the code points
    from U+E000 to U+FFFF (first byte 238 or 239) come after the code points
    above U+FFFF (first byte 240 to 244), which UTF-16 writes with surrogates
    below U+E000.  The bytes 254 and 255, absent from UTF-8, take the two
    ranks left free, so that distinct bytes have distinct ranks. *)
Definition unit_rank (c : ascii) : Z :=
  let n := code c in
  if (238 <=? n) && (n <=? 239) then n + 16
  else if (254 <=? n) && (n <=? 255) then n - 16
  else n.

(** [a < b] on strings: the order of the code units. *)
Fixpoint string_lt (a b : string) : bool :=
  match a, b with
  | _, EmptyString => false
  | EmptyString, String _ _ => true
  | String x a', String y b' =>
      if unit_rank x <? unit_rank y then true
      else if unit_rank y <? unit_rank x then false
      else string_lt a' b'
  end.

(** The comparator of [sort()] without an argument. *)
Definition defaultCompare (a b : string) : Z :=
  if string_lt a b then -1
  else if string_lt b a then 1
  else 0.

Definition getUniqueProvinces (records : list BlacklistRecord.t)
  : list string :=
  let provinces :=
    fold_left (fun provinces r =>
                 JsSet.add (or_str (province r) unknown) provinces)
      records JsSet.empty in
  sort defaultCompare (JsSet.to_array provinces).

Definition getUniqueAccounts (records : list BlacklistRecord.t)
  : list string :=
  let accounts :=
    fold_left (fun accounts r =>
                 JsSet.add (or_str (account r) unknown) accounts)
      records JsSet.empty in
  sort defaultCompare (JsSet.to_array accounts).

(** [/^\d+$/.test(s)]: at least one character, all of them decimal digits. *)
Fixpoint all_digits (s : string) : bool :=
  match s with
  | EmptyString => true
  | String c s' => is_digit c && all_digits s'
  end.

Definition test_digits (s : string) : bool :=
  match s with
  | EmptyString => false
  | String _ _ => all_digits s
  end.

Definition hasMultipleNumericGroups (records : list BlacklistRecord.t)
  : bool :=
  let numericGroups :=
    fold_left (fun numericGroups r =>
                 if test_digits (group r)
                 then JsSet.add (group r) numericGroups
                 else numericGroups)
      records JsSet.empty in
  JsSet.size numericGroups >? 1.

(** The six summed fields of a row of each grouped reduction, each with the
    counter it sums. *)
Definition group_fields
  : list ((GroupStats.t -> num) * (BlacklistRecord.t -> num)) :=
  [ (GroupStats.totalOutbound, total_outbound_count);
    (GroupStats.blackOutbound, black_outbound_count);
    (GroupStats.totalPickup, total_pickup_count);
    (GroupStats.blackPickup, black_pickup_count);
    (GroupStats.totalPay, total_pay_count);
    (GroupStats.blackPay, black_pay_count) ].

Definition province_fields
  : list ((ProvinceStats.t -> num) * (BlacklistRecord.t -> num)) :=
  [ (ProvinceStats.totalOutbound, total_outbound_count);
    (ProvinceStats.blackOutbound, black_outbound_count);
    (ProvinceStats.totalPickup, total_pickup_count);
    (ProvinceStats.blackPickup, black_pickup_count);
    (ProvinceStats.totalPay, total_pay_count);
    (ProvinceStats.blackPay, black_pay_count) ].

Definition account_fields
  : list ((AccountStats.t -> num) * (BlacklistRecord.t -> num)) :=
  [ (AccountStats.totalOutbound, total_outbound_count);
    (AccountStats.blackOutbound, black_outbound_count);
    (AccountStats.totalPickup, total_pickup_count);
    (AccountStats.blackPickup, black_pickup_count);
    (AccountStats.totalPay, total_pay_count);
    (AccountStats.blackPay, black_pay_count) ].

Definition accountProvince_fields
  : list ((AccountProvinceStats.t -> num) * (BlacklistRecord.t -> num)) :=
  [ (AccountProvinceStats.totalOutbound, total_outbound_count);
    (AccountProvinceStats.blackOutbound, black_outbound_count);
    (AccountProvinceStats.totalPickup, total_pickup_count);
    (AccountProvinceStats.blackPickup, black_pickup_count);
    (AccountProvinceStats.totalPay, total_pay_count);
    (AccountProvinceStats.blackPay, black_pay_count) ].

(** The same for the two kinds of bucket. *)
Definition bucket_fields
  : list ((Bucket.t -> num) * (BlacklistRecord.t -> num)) :=
  [ (Bucket.totalOutbound, total_outbound_count);
    (Bucket.blackOutbound, black_outbound_count);
    (Bucket.totalPickup, total_pickup_count);
    (Bucket.blackPickup, black_pickup_count);
    (Bucket.totalPay, total_pay_count);
    (Bucket.blackPay, black_pay_count) ].

Definition accountProvinceBucket_fields
  : list ((AccountProvinceBucket.t -> num) * (BlacklistRecord.t -> num)) :=
  [ (AccountProvinceBucket.totalOutbound, total_outbound_count);
    (AccountProvinceBucket.blackOutbound, black_outbound_count);
    (AccountProvinceBucket.totalPickup, total_pickup_count);
    (AccountProvinceBucket.blackPickup, black_pickup_count);
    (AccountProvinceBucket.totalPay, total_pay_count);
    (AccountProvinceBucket.blackPay, black_pay_count) ].

(** The six counters a grouped reduction sums. *)
Definition summed_counters : list (BlacklistRecord.t -> num) :=
  [ total_outbound_count; black_outbound_count;
    total_pickup_count; black_pickup_count;
    total_pay_count; black_pay_count ].

(** The text contains the bar that separates the two parts of the key of
    [accountProvinceMap]. *)
Fixpoint contains_bar (s : string) : bool :=
  match s with
  | EmptyString => false
  | String c s' => Ascii.eqb c "|" || contains_bar s'
  end.

(** ** The application shell *)

(** What [App] renders: the report when [data] is set, else the batch report
    when [batchData] is set, else the upload page. *)
Inductive View : Type :=
| ReportView (data : list BlacklistRecord.t)
| BatchReportView (data : list BatchFileResult.t)
| FileUpload.

Definition render (st : AppState.t) : View :=
  match AppState.data st with
  | Some data => ReportView data
  | None =>
      match AppState.batchData st with
      | Some batchData => BatchReportView batchData
      | None => FileUpload
      end
  end.

(** [handleBack], without the change of the address bar. *)
Definition handleBack (st : AppState.t) : AppState.t :=
  {| AppState.data := None; AppState.batchData := None |}.

(** ** The upload page *)

(** [s.endsWith(suffix)]. *)
Fixpoint ends_with (suffix s : string) : bool :=
  if String.eqb s suffix then true
  else
    match s with
    | EmptyString => false
    | String _ s' => ends_with suffix s'
    end.

(** A file chosen or dropped by the user: its name, and the text the
    [FileReader] delivers, [None] when it fires [onerror]. *)
Module BrowserFile.
Record t : Type := {
  name : string;
  text : option string
}.
End BrowserFile.

(** [Promise.all] over the reads: all the texts, or the rejection of the
    first read that fails. *)
Fixpoint readAll (files : list BrowserFile.t) : option (list UploadedFile.t) :=
  match files with
  | [] => Some []
  | file :: files' =>
      match BrowserFile.text file, readAll files' with
      | Some content, Some results =>
          Some ({| UploadedFile.name := BrowserFile.name file;
                   UploadedFile.content := content |} :: results)
      | _, _ => None
      end
  end.

(** What one call of [processFiles] does: the alerts it shows, the names it
    hands to [setFileNames], and the arguments of its call of [onUpload]. *)
Module Processed.
Record t : Type := {
  alerts : list string;
  fileNames : option (list string);
  upload : option (list UploadedFile.t * bool)
}.
End Processed.

Definition processFiles (isBatch : bool) (files : list BrowserFile.t)
  : Processed.t :=
  if (List.length files =? 0)%nat then
    {| Processed.alerts := []; Processed.fileNames := None;
       Processed.upload := None |}
  else if negb isBatch && (1 <? List.length files)%nat then
    {| Processed.alerts :=
         ["单文件模式下只能上传一个文件，请切换到批量分析模式或只上传一个文件。"];
       Processed.fileNames := None;
       Processed.upload := None |}
  else
    let validFiles :=
      filter (fun f => ends_with ".csv" (BrowserFile.name f)) files in
    let ignored :=
      if negb (List.length validFiles =? List.length files)%nat
      then ["部分文件不是 CSV 格式，已被忽略"] else [] in
    if (List.length validFiles =? 0)%nat then
      {| Processed.alerts := (ignored ++ ["请上传 CSV 文件"])%list;
         Processed.fileNames := None;
         Processed.upload := None |}
    else
      match readAll validFiles with
      | Some results =>
          {| Processed.alerts := ignored;
             Processed.fileNames := Some (map BrowserFile.name validFiles);
             Processed.upload := Some (results, isBatch) |}
      | None =>
          {| Processed.alerts := (ignored ++ ["读取文件时出错"])%list;
             Processed.fileNames := Some (map BrowserFile.name validFiles);
             Processed.upload := None |}
      end.

(** The upload page wired to the application: [processFiles] with
    [handleUpload] as its [onUpload]. *)
Definition uploadFiles (Papa_parse : string -> ParseResult.t)
  (isBatch : bool) (files : list BrowserFile.t) (st : AppState.t)
  : AppState.t * list string :=
  let processed := processFiles isBatch files in
  match Processed.upload processed with
  | Some (results, batch) =>
      let '(st', alerts) := handleUpload Papa_parse results batch st in
      (st', (Processed.alerts processed ++ alerts)%list)
  | None => (st, Processed.alerts processed)
  end.

(** ** The charts *)

Module BarDatum.
Record t : Type := {
  name : string;
  value : num;
  blackValue : num;
  blackRate : number
}.
End BarDatum.

(** [sortedData] and [barData] of [chartData] in [ProvinceMapChart]. *)
Definition sortedData (data : list ProvinceStats.t) : list ProvinceStats.t :=
  sort (fun a b =>
          comparator_result
            (ProvinceStats.totalOutbound b - ProvinceStats.totalOutbound a)%js)
    (filter (fun d => (ProvinceStats.totalOutbound d >? Int 0)%js) data).

Definition barData (data : list ProvinceStats.t) : list BarDatum.t :=
  map (fun d =>
         {| BarDatum.name := ProvinceStats.province d;
            BarDatum.value := ProvinceStats.totalOutbound d;
            BarDatum.blackValue := ProvinceStats.blackOutbound d;
            BarDatum.blackRate := ProvinceStats.blackOutboundRate d |})
    (firstn 20 (sortedData data)).

(** The data of the two bar charts of the report view:
    [accountStats.slice(0, 15)] and [accountProvinceStats.slice(0, 20)]. *)
Definition accountChartData (records : list BlacklistRecord.t)
  : list AccountStats.t :=
  firstn 15 (calculateAccountStats records).

Definition accountProvinceChartData (records : list BlacklistRecord.t)
  (selectedAccount : string) : list AccountProvinceStats.t :=
  firstn 20
    (calculateAccountProvinceStats records
       (if String.eqb selectedAccount "" then None else Some selectedAccount)).

(** ** Reports kept for another window *)

(** [s.startsWith(prefix)]. *)
Fixpoint starts_with (prefix s : string) : bool :=
  match prefix, s with
  | EmptyString, _ => true
  | String _ _, EmptyString => false
  | String a prefix', String b s' => Ascii.eqb a b && starts_with prefix' s'
  end.

(** [s.split(sep)] for a separator of one character: never empty. *)
Fixpoint split (sep : ascii) (s : string) : list string :=
  match s with
  | EmptyString => [""]
  | String c s' =>
      if Ascii.eqb c sep then "" :: split sep s'
      else
        match split sep s' with
        | part :: parts => String c part :: parts
        | [] => [String c ""]
        end
  end.

(** The character of a decimal digit. *)
Definition digit_char (d : Z) : string :=
  String (ascii_of_N (Z.to_N (48 + d))) "".

Fixpoint decimal_digits (fuel : nat) (n : Z) : string :=
  match fuel with
  | O => ""
  | S fuel' =>
      if n <? 10 then digit_char n
      else decimal_digits fuel' (n / 10) ++ digit_char (n mod 10)
  end.

(** [`${n}`] for an integer [n] that is not negative, as [Date.now()] is:
    its decimal digits.  A number of [k] bits has at most [k] digits. *)
Definition decimal (n : Z) : string :=
  decimal_digits (S (Z.to_nat (Z.log2 n))) n.

Definition ONE_DAY : Z := 24 * 60 * 60 * 1000.

(** [localStorage]: the entries in the order of [key(i)].  That order is left
    to the browser, and may change whenever a key is added or removed:
    [reorder] stands for the order the browser gives to the entries that are
    left. *)
Module Storage.
Definition t : Type := list (string * string).

Definition length (s : t) : nat := List.length s.

Definition key (i : nat) (s : t) : option string :=
  nth_error (map fst s) i.

Definition getItem (k : string) (s : t) : option string :=
  JsMap.get k s.

Section Order.
Variable reorder : t -> t.

Definition removeItem (k : string) (s : t) : t :=
  match getItem k s with
  | Some _ => reorder (filter (fun e => negb (String.eqb (fst e) k)) s)
  | None => s
  end.

Definition setItem (k v : string) (s : t) : t :=
  match getItem k s with
  | Some _ => JsMap.set k v s
  | None => reorder (JsMap.set k v s)
  end.
End Order.
End Storage.

(** The key under which [handleRowClick] stores the records of a row, for
    the time [now] and the random part [random] of the report id. *)
Definition reportKey (now : Z) (random : string) : string :=
  "reportData_" ++ (decimal now ++ "_" ++ random).

Section Prune.
Variable reorder : Storage.t -> Storage.t.

(** [handleRowClick], up to the window it opens: the records, serialized as
    [json], are stored under a fresh report key. *)
Definition storeReport (now : Z) (random json : string) (store : Storage.t)
  : Storage.t :=
  Storage.setItem reorder (reportKey now random) json store.

(** The body of the loop that prunes the stored reports. *)
Definition pruneStep (now : Z) (i : nat) (store : Storage.t) : Storage.t :=
  match Storage.key i store with
  | Some key =>
      if negb (String.eqb key "") && starts_with "reportData_" key then
        match nth_error (split "_" key) 1 with
        | Some idPart =>
            if negb (String.eqb idPart "") then
              let timestamp :=
                parseInt (or_str (hd "" (split "_" idPart)) "0") in
              if num_truthy timestamp
                 && (Int now - timestamp >? Int ONE_DAY)%js
              then Storage.removeItem reorder key store
              else store
            else store
        | None => store
        end
      else store
  | None => store
  end.

(** [for (let i = 0; i < localStorage.length; i++)]: the index goes up at
    every turn and the store never grows, so that as many turns as the store
    has entries are enough. *)
Fixpoint pruneLoop (fuel : nat) (now : Z) (i : nat) (store : Storage.t)
  : Storage.t :=
  match fuel with
  | O => store
  | S fuel' =>
      if (i <? Storage.length store)%nat
      then pruneLoop fuel' now (S i) (pruneStep now i store)
      else store
  end.

Definition pruneOldReports (now : Z) (store : Storage.t) : Storage.t :=
  pruneLoop (Storage.length store) now 0 store.

End Prune.

(** The text contains the character. *)
Fixpoint contains (c : ascii) (s : string) : bool :=
  match s with
  | EmptyString => false
  | String x s' => Ascii.eqb x c || contains c s'
  end.

(** A key of the pruning's making: "reportData_", then a part without
    underscore that [parseInt] reads as a time, not zero, more than a day
    before [now], then nothing or an underscore and the rest. *)
Definition expired (now : Z) (key : string) : Prop :=
  exists idPart rest t,
    key = "reportData_" ++ (idPart ++ rest)
    /\ contains "_" idPart = false
    /\ (rest = "" \/ exists rest', rest = String "_" rest')
    /\ parseInt idPart = t
    /\ num_truthy t = true
    /\ (Int now - t >? Int ONE_DAY)%js = true.

(** The bucket that holds the six counters added up over [rs], in the order
    of [rs]. *)
Definition bucket_of (rs : list BlacklistRecord.t) : Bucket.t :=
  {| Bucket.totalOutbound := sum_num (map total_outbound_count rs);
     Bucket.blackOutbound := sum_num (map black_outbound_count rs);
     Bucket.totalPickup := sum_num (map total_pickup_count rs);
     Bucket.blackPickup := sum_num (map black_pickup_count rs);
     Bucket.totalPay := sum_num (map total_pay_count rs);
     Bucket.blackPay := sum_num (map black_pay_count rs) |}.

(** Each of the six counters a grouped reduction sums is safe to add, and
    so is each of the eight counters of a record. *)
Definition safe_counters (records : list BlacklistRecord.t) : Prop :=
  forall c, In c summed_counters -> safe c records.

Definition all_counters : list (BlacklistRecord.t -> num) :=
  [ total_outbound_count; black_outbound_count;
    total_pickup_count; black_pickup_count;
    total_pay_count; black_pay_count;
    total_complain_count; black_complain_count ].

Definition safe_record_counters (records : list BlacklistRecord.t) : Prop :=
  forall c, In c all_counters -> safe c records.

(** ** Lemmas on numbers *)

Lemma pow2_pos (e : Z) : 0 <= e -> 0 < 2 ^ e.
Proof.
  intros He. apply Z.pow_pos_nonneg; lia.
Qed.

Lemma round_small (m : Z) : m < 2 ^ 53 -> round_to_53_bits m = m.
Proof.
  intros H. unfold round_to_53_bits.
  destruct (Z.ltb_spec m (2 ^ 53)); [reflexivity | lia].
Qed.

Lemma round_large (m : Z) :
  2 ^ 53 <= m ->
  round_to_53_bits m
  = let e := Z.log2 m - 52 in
    let q := m / 2 ^ e in
    let r := m mod 2 ^ e in
    if (2 ^ (e - 1) <? r) || ((r =? 2 ^ (e - 1)) && Z.odd q)
    then (q + 1) * 2 ^ e else q * 2 ^ e.
Proof.
  intros H. unfold round_to_53_bits.
  destruct (Z.ltb_spec m (2 ^ 53)); [lia | reflexivity].
Qed.

(** Above 2^53 the rounded value is one of the two multiples of the unit in
    the last place that enclose the number. *)
Lemma round_bounds (m : Z) :
  2 ^ 53 <= m ->
  let e := Z.log2 m - 52 in
  let q := m / 2 ^ e in
  1 <= e /\ 2 ^ 52 <= q < 2 ^ 53 /\ q * 2 ^ e <= m < (q + 1) * 2 ^ e
  /\ (round_to_53_bits m = q * 2 ^ e
      \/ (round_to_53_bits m = (q + 1) * 2 ^ e /\ q * 2 ^ e < m)).
Proof.
  intros Hm. cbv zeta.
  assert (Hpos : 0 < m) by (pose proof (pow2_pos 53); lia).
  pose proof (Z.log2_spec m Hpos) as [Hlo Hhi].
  assert (Hl : 53 <= Z.log2 m) by (apply Z.log2_le_pow2; lia).
  set (e := Z.log2 m - 52) in *.
  assert (He : 1 <= e) by lia.
  assert (Hpe : 0 < 2 ^ e) by (apply pow2_pos; lia).
  assert (Hsplit : 2 ^ Z.log2 m = 2 ^ 52 * 2 ^ e).
  { rewrite <- Z.pow_add_r by lia. f_equal. lia. }
  assert (Hsplit' : 2 ^ Z.succ (Z.log2 m) = 2 ^ 53 * 2 ^ e).
  { rewrite <- Z.pow_add_r by lia. f_equal. lia. }
  pose proof (Z.div_mod m (2 ^ e) ltac:(lia)) as Hdm.
  pose proof (Z.mod_pos_bound m (2 ^ e) Hpe) as Hmod.
  rewrite (round_large m Hm). cbv zeta. fold e.
  set (q := m / 2 ^ e) in *. set (r := m mod 2 ^ e) in *.
  split; [assumption|].
  split.
  { split.
    - apply Z.div_le_lower_bound; lia.
    - apply Z.div_lt_upper_bound; lia. }
  split; [nia|].
  destruct ((2 ^ (e - 1) <? r) || ((r =? 2 ^ (e - 1)) && Z.odd q)) eqn:E.
  - right. split; [reflexivity|].
    assert (0 < 2 ^ (e - 1)) by (apply pow2_pos; lia).
    apply orb_true_iff in E. destruct E as [E|E].
    + apply Z.ltb_lt in E. nia.
    + apply andb_true_iff in E. destruct E as [E _]. apply Z.eqb_eq in E. nia.
  - left. reflexivity.
Qed.

Lemma round_large_lower (m : Z) : 2 ^ 53 <= m -> 2 ^ 53 <= round_to_53_bits m.
Proof.
  intros Hm. destruct (round_bounds m Hm) as (He & Hq & Hb & Hr).
  assert (2 <= 2 ^ (Z.log2 m - 52)).
  { change 2 with (2 ^ 1) at 1. apply Z.pow_le_mono_r; lia. }
  change (2 ^ 53) with (2 ^ 52 * 2).
  destruct Hr as [->|[-> _]]; nia.
Qed.

Lemma round_nonneg (m : Z) : 0 <= m -> 0 <= round_to_53_bits m.
Proof.
  intros Hm. destruct (Z.lt_ge_cases m (2 ^ 53)) as [H|H].
  - now rewrite round_small.
  - pose proof (round_large_lower m H). pose proof (pow2_pos 53). lia.
Qed.

(** Rounding is monotone. *)
Lemma round_mono (a b : Z) :
  0 <= a <= b -> round_to_53_bits a <= round_to_53_bits b.
Proof.
  intros [Ha Hab].
  destruct (Z.lt_ge_cases b (2 ^ 53)) as [Hb|Hb].
  { rewrite !round_small by lia. assumption. }
  destruct (round_bounds b Hb) as (Heb & Hqb & Hbb & Hrb).
  assert (Hpb : 0 < 2 ^ (Z.log2 b - 52)) by (apply pow2_pos; lia).
  assert (Hlob : b / 2 ^ (Z.log2 b - 52) * 2 ^ (Z.log2 b - 52)
                 <= round_to_53_bits b).
  { destruct Hrb as [->|[-> _]]; nia. }
  destruct (Z.lt_ge_cases a (2 ^ 53)) as [Ha53|Ha53].
  { rewrite (round_small a) by lia.
    pose proof (round_large_lower b Hb). lia. }
  destruct (round_bounds a Ha53) as (Hea & Hqa & Hba & Hra).
  assert (Hpa : 0 < 2 ^ (Z.log2 a - 52)) by (apply pow2_pos; lia).
  assert (Hhia : round_to_53_bits a
                 <= (a / 2 ^ (Z.log2 a - 52) + 1) * 2 ^ (Z.log2 a - 52)).
  { destruct Hra as [->|[-> _]]; nia. }
  assert (Hlog : Z.log2 a <= Z.log2 b) by (apply Z.log2_le_mono; lia).
  destruct (Z.eq_dec (Z.log2 a) (Z.log2 b)) as [Heq|Hne].
  - rewrite Heq in *.
    set (e := Z.log2 b - 52) in *.
    assert (Hq : a / 2 ^ e <= b / 2 ^ e) by (apply Z.div_le_mono; lia).
    destruct (Z.eq_dec (a / 2 ^ e) (b / 2 ^ e)) as [Hqeq|Hqne].
    + rewrite (round_large a Ha53), (round_large b Hb). cbv zeta.
      rewrite Heq. fold e. rewrite Hqeq.
      pose proof (Z.div_mod a (2 ^ e) ltac:(lia)) as Hda.
      pose proof (Z.div_mod b (2 ^ e) ltac:(lia)) as Hdb.
      assert (Hr : a mod 2 ^ e <= b mod 2 ^ e) by (rewrite Hqeq in Hda; nia).
      destruct ((2 ^ (e - 1) <? a mod 2 ^ e)
                || ((a mod 2 ^ e =? 2 ^ (e - 1)) && Z.odd (b / 2 ^ e))) eqn:Ea.
      * assert (Eb : (2 ^ (e - 1) <? b mod 2 ^ e)
                     || ((b mod 2 ^ e =? 2 ^ (e - 1)) && Z.odd (b / 2 ^ e))
                     = true).
        { apply orb_true_iff in Ea. destruct Ea as [Ea|Ea].
          - apply Z.ltb_lt in Ea. apply orb_true_iff. left. apply Z.ltb_lt. lia.
          - apply andb_true_iff in Ea. destruct Ea as [Ea Eo].
            apply Z.eqb_eq in Ea.
            destruct (Z.eq_dec (b mod 2 ^ e) (2 ^ (e - 1))) as [Hbe|Hbe].
            + apply orb_true_iff. right. rewrite Hbe, Z.eqb_refl. exact Eo.
            + apply orb_true_iff. left. apply Z.ltb_lt. lia. }
        rewrite Eb. lia.
      * destruct ((2 ^ (e - 1) <? b mod 2 ^ e)
                  || ((b mod 2 ^ e =? 2 ^ (e - 1)) && Z.odd (b / 2 ^ e))); nia.
    + assert (a / 2 ^ e + 1 <= b / 2 ^ e) by lia. nia.
  - assert (Hstep : 2 ^ 53 * 2 ^ (Z.log2 a - 52)
                    <= 2 ^ 52 * 2 ^ (Z.log2 b - 52)).
    { rewrite <- !Z.pow_add_r by lia. apply Z.pow_le_mono_r; lia. }
    nia.
Qed.

(** A rounded value rounds to itself. *)
Lemma round_idem (m : Z) :
  0 <= m -> round_to_53_bits (round_to_53_bits m) = round_to_53_bits m.
Proof.
  intros Hm. destruct (Z.lt_ge_cases m (2 ^ 53)) as [H|H].
  { now rewrite (round_small m H), (round_small m H). }
  destruct (round_bounds m H) as (He & Hq & Hb & Hr).
  pose proof (round_large_lower m H) as Hlow.
  set (e := Z.log2 m - 52) in *. set (q := m / 2 ^ e) in *.
  assert (Hpe : 0 < 2 ^ e) by (apply pow2_pos; lia).
  assert (Hmult : forall q' e',
             1 <= e' -> 2 ^ 52 <= q' < 2 ^ 53 ->
             round_to_53_bits (q' * 2 ^ e') = q' * 2 ^ e').
  { intros q' e' He' Hq'.
    assert (Hpe' : 0 < 2 ^ e') by (apply pow2_pos; lia).
    assert (Hlog : Z.log2 (q' * 2 ^ e') = 52 + e').
    { rewrite Z.log2_mul_pow2 by lia.
      assert (Z.log2 q' = 52); [|lia].
      apply Z.log2_unique; [lia|]. simpl. lia. }
    assert (Hbig : 2 ^ 53 <= q' * 2 ^ e').
    { assert (2 <= 2 ^ e').
      { change 2 with (2 ^ 1) at 1. apply Z.pow_le_mono_r; lia. }
      change (2 ^ 53) with (2 ^ 52 * 2). nia. }
    rewrite (round_large _ Hbig). cbv zeta. rewrite Hlog.
    replace (52 + e' - 52) with e' by lia.
    rewrite Z.div_mul, Z.mod_mul by lia.
    assert (Hhalf : 0 < 2 ^ (e' - 1)) by (apply pow2_pos; lia).
    destruct (Z.ltb_spec (2 ^ (e' - 1)) 0); [lia|].
    destruct (Z.eqb_spec 0 (2 ^ (e' - 1))); [lia|]. reflexivity. }
  destruct Hr as [->|[-> _]].
  - apply Hmult; assumption.
  - destruct (Z.eq_dec (q + 1) (2 ^ 53)) as [Heq|Hne].
    + rewrite Heq.
      replace (2 ^ 53 * 2 ^ e) with (2 ^ 52 * 2 ^ (e + 1)).
      * apply Hmult; [lia|]. simpl. lia.
      * rewrite Z.pow_add_r by lia. change (2 ^ 53) with (2 ^ 52 * 2 ^ 1). ring.
    + apply Hmult; [assumption | lia].
Qed.

(** An integer of magnitude below 2^53 is its own double. *)
Lemma to_double_exact (z : Z) : Z.abs z < 2 ^ 53 -> to_double z = Int z.
Proof.
  intros H. unfold to_double. rewrite round_small by assumption.
  destruct (Z.leb_spec (2 ^ 1024) (Z.abs z)).
  - assert (2 ^ 53 < 2 ^ 1024) by (apply Z.pow_lt_mono_r; lia). lia.
  - f_equal. lia.
Qed.

(** A double has the sign of the integer it stands for. *)
Lemma to_double_sign (z : Z) :
  Z.sgn (comparator_result (to_double z)) = Z.sgn z.
Proof.
  unfold to_double.
  assert (Hpos : z <> 0 -> 0 < round_to_53_bits (Z.abs z)).
  { intros Hz. destruct (Z.lt_ge_cases (Z.abs z) (2 ^ 53)) as [H|H].
    - rewrite round_small by assumption. lia.
    - pose proof (round_large_lower _ H). pose proof (pow2_pos 53). lia. }
  destruct (Z.eq_dec z 0) as [->|Hz]; [reflexivity|].
  specialize (Hpos Hz).
  destruct (2 ^ 1024 <=? round_to_53_bits (Z.abs z)); simpl.
  - destruct (Z.ltb_spec z 0); simpl; lia.
  - rewrite Z.sgn_mul, Z.sgn_sgn.
    rewrite (Z.sgn_pos (round_to_53_bits (Z.abs z))) by assumption. lia.
Qed.

Lemma to_double_not_nan (z : Z) : to_double z <> Nan.
Proof.
  unfold to_double. destruct (_ <=? _); discriminate.
Qed.

(** A comparison with zero after a subtraction is the comparison of the two
    numbers, unless one is [NaN]. *)
Lemma comparator_sub_le (a b : num) :
  is_nan a = false -> is_nan b = false ->
  (comparator_result (b - a)%js <= 0 <-> num_geb a b = true).
Proof.
  unfold num_geb. destruct a as [x|s|], b as [y|s'|]; simpl;
    try discriminate; intros _ _.
  - pose proof (to_double_sign (y - x)) as Hs.
    rewrite Z.leb_le. split; intros H; lia.
  - destruct s'; simpl; split; (lia || discriminate || reflexivity).
  - destruct s; simpl; split; (lia || discriminate || reflexivity).
  - destruct s, s'; simpl; split; (lia || discriminate || reflexivity).
Qed.

Lemma comparator_sub_same (a : num) : comparator_result (a - a)%js = 0.
Proof.
  destruct a as [x|s|]; simpl; [|now destruct s|reflexivity].
  rewrite Z.sub_diag. reflexivity.
Qed.

Lemma num_eqb_eq (a b : num) : num_eqb a b = true <-> a = b.
Proof.
  destruct a as [x|s|], b as [y|s'|]; simpl; split;
    try discriminate; try reflexivity.
  - intros H. apply Z.eqb_eq in H. now subst.
  - intros [= ->]. apply Z.eqb_refl.
  - intros H. apply Bool.eqb_prop in H. now subst.
  - intros [= ->]. apply Bool.eqb_reflx.
Qed.

Lemma num_geb_trans (a b c : num) :
  num_geb a b = true -> num_geb b c = true -> num_geb a c = true.
Proof.
  unfold num_geb.
  destruct a as [x|s|], b as [y|s'|], c as [z|s''|]; simpl;
    try discriminate; try (rewrite !Z.leb_le; lia);
    repeat match goal with s : bool |- _ => destruct s end; simpl;
    try discriminate; reflexivity || auto.
Qed.

(** ** Lemmas on sums, maps and the sort *)

Lemma sumZ_app (l1 l2 : list Z) : sumZ (l1 ++ l2) = sumZ l1 + sumZ l2.
Proof.
  induction l1 as [|x l1 IH]; simpl; [reflexivity|].
  rewrite IH. lia.
Qed.

Lemma sumZ_perm (l1 l2 : list Z) : Permutation l1 l2 -> sumZ l1 = sumZ l2.
Proof.
  induction 1; simpl; lia.
Qed.

Lemma sumZ_abs (l : list Z) : Z.abs (sumZ l) <= sumZ (map Z.abs l).
Proof.
  induction l as [|x l IH]; simpl; lia.
Qed.

Lemma sumZ_abs_nonneg (l : list Z) : 0 <= sumZ (map Z.abs l).
Proof.
  induction l as [|x l IH]; simpl; lia.
Qed.

Lemma filter_filter_and {A : Type} (p q : A -> bool) (l : list A) :
  filter p (filter q l) = filter (fun x => q x && p x) l.
Proof.
  induction l as [|x l IH]; simpl; [reflexivity|].
  destruct (q x); simpl; [destruct (p x)|]; rewrite IH; reflexivity.
Qed.

(** Integers whose magnitudes add up to less than 2^53 are added exactly. *)
Lemma fold_add_exact (zs : list Z) (a : Z) :
  Z.abs a + sumZ (map Z.abs zs) < 2 ^ 53 ->
  fold_left num_add (map Int zs) (Int a) = Int (a + sumZ zs).
Proof.
  revert a. induction zs as [|z zs IH]; intros a H; simpl in *.
  - f_equal. lia.
  - pose proof (sumZ_abs_nonneg zs).
    rewrite to_double_exact by lia.
    rewrite IH by lia. f_equal. lia.
Qed.

Lemma sum_num_exact (zs : list Z) :
  sumZ (map Z.abs zs) < 2 ^ 53 -> sum_num (map Int zs) = Int (sumZ zs).
Proof.
  intros H. unfold sum_num. rewrite fold_add_exact; [reflexivity|].
  simpl. lia.
Qed.

Lemma ints_map (l : list num) :
  Forall (fun x => is_int x = true) l -> l = map Int (map int_value l).
Proof.
  induction 1 as [|x l Hx _ IH]; simpl; [reflexivity|].
  destruct x; try discriminate. simpl. now rewrite <- IH.
Qed.

Section SafeFacts.
Variable c : BlacklistRecord.t -> num.
Implicit Types (rs : list BlacklistRecord.t).

Lemma safe_map rs :
  Forall (fun r => is_int (c r) = true) rs ->
  map c rs = map Int (map (fun r => int_value (c r)) rs).
Proof.
  induction 1 as [|r rs Hr _ IH]; simpl; [reflexivity|].
  destruct (c r); try discriminate. simpl. now rewrite <- IH.
Qed.

(** The counter of safe records adds up to its exact sum. *)
Lemma safe_sum rs : safe c rs -> sum_num (map c rs) = Int (exact_sum c rs).
Proof.
  intros [Hint Hsum]. rewrite (safe_map rs Hint).
  apply sum_num_exact. now rewrite map_map.
Qed.

Lemma safe_filter (p : BlacklistRecord.t -> bool) rs :
  safe c rs -> safe c (filter p rs).
Proof.
  intros [Hint Hsum]. split.
  - rewrite Forall_forall in *. intros r Hr. apply Hint.
    apply filter_In in Hr. tauto.
  - eapply Z.le_lt_trans; [|exact Hsum]. clear.
    induction rs as [|r rs IH]; simpl; [lia|].
    destruct (p r); simpl; lia.
Qed.

Lemma safe_perm rs rs' : Permutation rs rs' -> safe c rs -> safe c rs'.
Proof.
  intros Hperm [Hint Hsum]. split.
  - eapply Permutation_Forall; eassumption.
  - rewrite <- (sumZ_perm _ _ (Permutation_map _ Hperm)). exact Hsum.
Qed.

Lemma exact_sum_perm rs rs' :
  Permutation rs rs' -> exact_sum c rs = exact_sum c rs'.
Proof.
  intros Hperm. apply sumZ_perm, Permutation_map, Hperm.
Qed.

Lemma exact_sum_abs rs :
  Z.abs (exact_sum c rs) <= sumZ (map (fun r => Z.abs (int_value (c r))) rs).
Proof.
  unfold exact_sum. induction rs as [|r rs IH]; simpl; lia.
Qed.
End SafeFacts.

Module JsMapFacts.
Section Facts.
Context {V : Type}.
Implicit Types (m : JsMap.t V) (k : string) (v : V).

Lemma get_set_same k v m : JsMap.get k (JsMap.set k v m) = Some v.
Proof.
  induction m as [|[k' v'] m IH]; simpl.
  - now rewrite String.eqb_refl.
  - destruct (String.eqb k' k) eqn:E; simpl; rewrite E; auto.
Qed.

Lemma get_set_other k k' v m :
  k <> k' -> JsMap.get k' (JsMap.set k v m) = JsMap.get k' m.
Proof.
  intros Hne. induction m as [|[k0 v0] m IH]; simpl.
  - destruct (String.eqb_spec k k'); congruence.
  - destruct (String.eqb_spec k0 k) as [->|Hk]; simpl.
    + destruct (String.eqb_spec k k'); congruence.
    + destruct (String.eqb_spec k0 k'); auto.
Qed.

Lemma get_None_keys k m :
  JsMap.get k m = None <-> ~ In k (JsMap.keys m).
Proof.
  induction m as [|[k' v'] m IH]; simpl.
  - tauto.
  - destruct (String.eqb_spec k' k) as [->|Hk].
    + split; [discriminate | intros H; exfalso; apply H; auto].
    + rewrite IH. tauto.
Qed.

Lemma get_Some_In k v m : JsMap.get k m = Some v -> In (k, v) m.
Proof.
  induction m as [|[k' v'] m IH]; simpl; [discriminate|].
  destruct (String.eqb_spec k' k) as [->|Hk].
  - intros [= ->]. auto.
  - auto.
Qed.

Lemma In_get k v m :
  NoDup (JsMap.keys m) -> In (k, v) m -> JsMap.get k m = Some v.
Proof.
  induction m as [|[k' v'] m IH]; simpl; [tauto|].
  intros Hnd [[= -> ->]|Hin].
  - now rewrite String.eqb_refl.
  - inversion Hnd as [|? ? Hnot Hnd']; subst.
    destruct (String.eqb_spec k' k) as [->|Hk]; auto.
    exfalso. apply Hnot. change k with (fst (k, v)). now apply in_map.
Qed.

Lemma keys_set k v m :
  JsMap.keys (JsMap.set k v m)
  = match JsMap.get k m with
    | Some _ => JsMap.keys m
    | None => (JsMap.keys m ++ [k])%list
    end.
Proof.
  unfold JsMap.keys.
  induction m as [|[k' v'] m IH]; simpl; [reflexivity|].
  destruct (String.eqb_spec k' k) as [->|Hk]; simpl; [reflexivity|].
  rewrite IH.
  destruct (JsMap.get k m); reflexivity.
Qed.

Lemma NoDup_keys_set k v m :
  NoDup (JsMap.keys m) -> NoDup (JsMap.keys (JsMap.set k v m)).
Proof.
  intros Hnd. rewrite keys_set.
  destruct (JsMap.get k m) eqn:E; [assumption|].
  apply get_None_keys in E.
  apply NoDup_rev in Hnd. rewrite <- (rev_involutive (_ ++ _)).
  apply NoDup_rev. rewrite rev_app_distr. simpl.
  constructor; [now rewrite <- in_rev | assumption].
Qed.

Lemma Forall_values_set (P : V -> Prop) k v m :
  Forall P (JsMap.values m) -> P v -> Forall P (JsMap.values (JsMap.set k v m)).
Proof.
  intros Hm Hv. induction m as [|[k' v'] m IH]; simpl.
  - constructor; auto.
  - inversion Hm; subst.
    destruct (String.eqb k' k); simpl; constructor; auto.
Qed.

Lemma Forall_values_get (P : V -> Prop) k v m :
  Forall P (JsMap.values m) -> JsMap.get k m = Some v -> P v.
Proof.
  intros Hm Hg. apply get_Some_In in Hg.
  rewrite Forall_forall in Hm. apply Hm.
  change v with (snd (k, v)). now apply in_map.
Qed.

End Facts.
End JsMapFacts.

Lemma first_seen_In (k : string) (l : list string) :
  In k (first_seen l) <-> In k l.
Proof.
  induction l as [|k0 l IH]; simpl; [tauto|].
  rewrite filter_In, IH.
  destruct (String.eqb_spec k k0) as [->|Hk]; simpl.
  - split; auto.
  - split.
    + intros [H|[H _]]; auto.
    + intros [H|H]; [congruence|auto].
Qed.

Lemma first_seen_NoDup (l : list string) : NoDup (first_seen l).
Proof.
  induction l as [|k0 l IH]; simpl; constructor.
  - rewrite filter_In. intros [_ H]. now rewrite String.eqb_refl in H.
  - now apply NoDup_filter.
Qed.

Section GroupByFacts.
Context {V : Type}.
Variable key : BlacklistRecord.t -> string.
Variable upd : option V -> BlacklistRecord.t -> V.
Implicit Types (m : JsMap.t V) (rs : list BlacklistRecord.t).

Lemma fresh_false ks k : In k ks -> fresh ks k = false.
Proof.
  intros Hin. unfold fresh. apply negb_false_iff, existsb_exists.
  exists k. split; [assumption | apply String.eqb_refl].
Qed.

Lemma fresh_true ks k : ~ In k ks -> fresh ks k = true.
Proof.
  intros Hnot. unfold fresh. apply negb_true_iff.
  destruct (existsb (String.eqb k) ks) eqn:E; [|reflexivity].
  apply existsb_exists in E. destruct E as [k' [Hin Heq]].
  apply String.eqb_eq in Heq. subst. contradiction.
Qed.

Lemma groupBy_keys_from rs m :
  JsMap.keys (groupBy key upd rs m)
  = (JsMap.keys m
     ++ filter (fresh (JsMap.keys m)) (first_seen (map key rs)))%list.
Proof.
  revert m. induction rs as [|r rs IH]; intros m; simpl.
  - now rewrite app_nil_r.
  - rewrite IH, JsMapFacts.keys_set.
    destruct (JsMap.get (key r) m) eqn:E.
    + assert (Hin : In (key r) (JsMap.keys m)).
      { destruct (in_dec string_dec (key r) (JsMap.keys m)) as [H|H]; auto.
        apply JsMapFacts.get_None_keys in H. congruence. }
      rewrite (fresh_false _ _ Hin), filter_filter_and.
      f_equal. apply filter_ext. intros k.
      destruct (String.eqb_spec k (key r)) as [->|Hk]; simpl; auto.
      now rewrite fresh_false.
    + apply JsMapFacts.get_None_keys in E.
      rewrite (fresh_true _ _ E), filter_filter_and, <- app_assoc. simpl.
      do 2 f_equal. apply filter_ext. intros k. unfold fresh.
      rewrite existsb_app. simpl. rewrite orb_false_r, negb_orb.
      apply andb_comm.
Qed.

(** The keys of the map are the keys of the records, first seen first. *)
Lemma groupBy_keys rs :
  JsMap.keys (groupBy key upd rs JsMap.empty) = first_seen (map key rs).
Proof.
  rewrite groupBy_keys_from. simpl.
  rewrite <- (filter_ext (fun _ => true)) by reflexivity.
  induction (first_seen (map key rs)) as [|k l IH]; simpl; congruence.
Qed.

Lemma groupBy_NoDup rs : NoDup (JsMap.keys (groupBy key upd rs JsMap.empty)).
Proof.
  rewrite groupBy_keys. apply first_seen_NoDup.
Qed.

Section Field.
Variable field : V -> num.
Variable counter : BlacklistRecord.t -> num.
Hypothesis upd_field :
  forall o r, field (upd o r) = (opt_field field o + counter r)%js.

Lemma groupBy_get_from rs m k :
  opt_field field (JsMap.get k (groupBy key upd rs m))
  = fold_left num_add (map counter (with_key key k rs))
      (opt_field field (JsMap.get k m)).
Proof.
  revert m. induction rs as [|r rs IH]; intros m; simpl; [reflexivity|].
  rewrite IH.
  destruct (String.eqb_spec (key r) k) as [<-|Hk]; simpl.
  - rewrite JsMapFacts.get_set_same. simpl. now rewrite upd_field.
  - now rewrite JsMapFacts.get_set_other.
Qed.

(** The field of an entry is the counter added up over the records of its
    key, in their order. *)
Lemma groupBy_entry rs k v :
  In (k, v) (JsMap.entries (groupBy key upd rs JsMap.empty)) ->
  field v = sum_num (map counter (with_key key k rs)).
Proof.
  unfold JsMap.entries. intros Hin.
  apply JsMapFacts.In_get in Hin; [|apply groupBy_NoDup].
  pose proof (groupBy_get_from rs JsMap.empty k) as H.
  rewrite Hin in H. simpl in H. exact H.
Qed.

(** The fields of the entries, in the order of the map. *)
Lemma groupBy_fields rs :
  map field (JsMap.values (groupBy key upd rs JsMap.empty))
  = map (fun k => sum_num (map counter (with_key key k rs)))
      (first_seen (map key rs)).
Proof.
  rewrite <- groupBy_keys. unfold JsMap.values, JsMap.keys.
  rewrite !map_map. apply map_ext_in. intros [k v] Hin.
  now apply groupBy_entry.
Qed.
End Field.

Section Invariant.
Variable P : V -> Prop.
Variable Q : BlacklistRecord.t -> Prop.
Hypothesis upd_inv :
  forall o r, (forall v, o = Some v -> P v) -> Q r -> P (upd o r).

Lemma groupBy_Forall_from rs m :
  Forall Q rs -> Forall P (JsMap.values m) ->
  Forall P (JsMap.values (groupBy key upd rs m)).
Proof.
  revert m. induction rs as [|r rs IH]; intros m Hrs Hm; simpl; [assumption|].
  inversion Hrs; subst. apply IH; [assumption|].
  apply JsMapFacts.Forall_values_set; [assumption|].
  apply upd_inv; [|assumption].
  intros v Hv. eapply JsMapFacts.Forall_values_get; eauto.
Qed.

Lemma groupBy_Forall rs :
  Forall Q rs -> Forall P (JsMap.values (groupBy key upd rs JsMap.empty)).
Proof.
  intros Hrs. apply groupBy_Forall_from; [assumption | constructor].
Qed.
End Invariant.

End GroupByFacts.

(** The sums of a function over the records of each key add up to its sum
    over all the records. *)
Section SumByKeys.
Variable key : BlacklistRecord.t -> string.
Variable f : BlacklistRecord.t -> Z.

Lemma sumZ_split_key (g : string -> Z) (k0 : string) (l : list string) :
  NoDup l ->
  sumZ (map g l)
  = (if existsb (String.eqb k0) l then g k0 else 0)
    + sumZ (map g (filter (fun k => negb (String.eqb k k0)) l)).
Proof.
  induction 1 as [|k l Hnot Hnd IH]; simpl; [reflexivity|].
  rewrite IH.
  destruct (String.eqb_spec k0 k) as [<-|Hne]; simpl.
  - rewrite String.eqb_refl. simpl.
    assert (E : existsb (String.eqb k0) l = false).
    { destruct (existsb (String.eqb k0) l) eqn:E; [|reflexivity].
      apply existsb_exists in E. destruct E as [k' [Hin Heq]].
      apply String.eqb_eq in Heq. subst. contradiction. }
    rewrite E. lia.
  - destruct (String.eqb_spec k k0) as [->|_]; [contradiction|]. simpl. lia.
Qed.

Lemma with_key_absent (k : string) (rs : list BlacklistRecord.t) :
  ~ In k (map key rs) -> with_key key k rs = [].
Proof.
  intros Hnot. unfold with_key. induction rs as [|r rs IH]; simpl; [reflexivity|].
  destruct (String.eqb_spec (key r) k) as [Heq|_].
  - exfalso. apply Hnot. left. assumption.
  - apply IH. intros H. apply Hnot. now right.
Qed.

Lemma sum_by_keys (rs : list BlacklistRecord.t) :
  sumZ (map (fun k => sumZ (map f (with_key key k rs)))
          (first_seen (map key rs)))
  = sumZ (map f rs).
Proof.
  induction rs as [|r rs IH]; simpl; [reflexivity|].
  rewrite String.eqb_refl. simpl.
  rewrite (map_ext_in
             (fun k => sumZ (map f (if String.eqb (key r) k
                                    then r :: with_key key k rs
                                    else with_key key k rs)))
             (fun k => sumZ (map f (with_key key k rs)))).
  - rewrite <- IH.
    rewrite (sumZ_split_key (fun k => sumZ (map f (with_key key k rs)))
               (key r) _ (first_seen_NoDup _)).
    destruct (existsb (String.eqb (key r)) (first_seen (map key rs))) eqn:E;
      [lia|].
    rewrite with_key_absent; [simpl; lia|].
    intros Hin. apply first_seen_In in Hin.
    assert (existsb (String.eqb (key r)) (first_seen (map key rs)) = true);
      [|congruence].
    apply existsb_exists. exists (key r). split; [assumption|].
    apply String.eqb_refl.
  - intros k Hk. apply filter_In in Hk. destruct Hk as [_ Hk].
    destruct (String.eqb_spec (key r) k) as [<-|_]; [|reflexivity].
    now rewrite String.eqb_refl in Hk.
Qed.
End SumByKeys.

(** ** The sort with any comparator *)

Section SortAny.
Context {A : Type}.
Variable cmp : A -> A -> Z.

Lemma insert_perm_any (x : A) (l : list A) :
  Permutation (insert cmp x l) (x :: l).
Proof.
  induction l as [|y l IH]; simpl; [reflexivity|].
  destruct (cmp x y <=? 0); [reflexivity|].
  rewrite IH. apply perm_swap.
Qed.

Lemma sort_perm_any (l : list A) : Permutation (sort cmp l) l.
Proof.
  induction l as [|x l IH]; simpl; [reflexivity|].
  rewrite insert_perm_any. now constructor.
Qed.

Lemma sort_In_any (x : A) (l : list A) : In x (sort cmp l) <-> In x l.
Proof.
  split; apply Permutation_in;
    [apply sort_perm_any | apply Permutation_sym, sort_perm_any].
Qed.

Lemma sort_NoDup_any (l : list A) : NoDup l -> NoDup (sort cmp l).
Proof.
  apply Permutation_NoDup, Permutation_sym, sort_perm_any.
Qed.

Hypothesis cmp_total : forall a b, cmp a b > 0 -> cmp b a <= 0.

Lemma insert_sorted_any (x : A) (l : list A) :
  Sorted (fun a b => cmp a b <= 0) l ->
  Sorted (fun a b => cmp a b <= 0) (insert cmp x l).
Proof.
  induction 1 as [|y l Hs IH Hhd]; simpl.
  - repeat constructor.
  - destruct (Z.leb_spec (cmp x y) 0) as [Hle|Hgt].
    + repeat constructor; assumption.
    + constructor; [assumption|].
      destruct Hhd as [|z l' Hz]; simpl.
      * constructor. apply cmp_total. lia.
      * destruct (cmp x z <=? 0); constructor;
          [apply cmp_total; lia | assumption].
Qed.

Lemma sort_sorted_any (l : list A) :
  Sorted (fun a b => cmp a b <= 0) (sort cmp l).
Proof.
  induction l as [|x l IH]; simpl; [constructor|].
  now apply insert_sorted_any.
Qed.
End SortAny.

(** The sort with the comparator [(a, b) => f(b) - f(a)]. *)
Section SortFacts.
Context {A : Type}.
Variable f : A -> num.

Lemma sort_perm (l : list A) :
  Permutation (sort (fun a b => comparator_result (f b - f a)%js) l) l.
Proof. apply sort_perm_any. Qed.

Lemma sort_In (x : A) (l : list A) :
  In x (sort (fun a b => comparator_result (f b - f a)%js) l) <-> In x l.
Proof. apply sort_In_any. Qed.

Lemma sort_length (l : list A) :
  List.length (sort (fun a b => comparator_result (f b - f a)%js) l)
  = List.length l.
Proof.
  apply Permutation_length, sort_perm.
Qed.

Lemma insert_sorted (x : A) (l : list A) :
  is_nan (f x) = false ->
  Forall (fun a => is_nan (f a) = false) l ->
  Sorted (fun a b => num_geb (f a) (f b) = true) l ->
  Sorted (fun a b => num_geb (f a) (f b) = true)
    (insert (fun a b => comparator_result (f b - f a)%js) x l).
Proof.
  intros Hx Hall Hs. revert Hall.
  induction Hs as [|y l Hs IH Hhd]; intros Hall; simpl.
  - repeat constructor.
  - inversion Hall as [|? ? Hy Hall']; subst.
    pose proof (comparator_sub_le (f x) (f y) Hx Hy) as Hxy.
    assert (Htot : comparator_result (f y - f x)%js > 0 ->
                   num_geb (f y) (f x) = true).
    { intros Hgt. unfold num_geb in *.
      destruct (f x) as [a|s|], (f y) as [b|s'|]; simpl in *;
        try discriminate.
      - pose proof (to_double_sign (b - a)). apply Z.leb_le. lia.
      - destruct s'; simpl in *; [lia | reflexivity].
      - destruct s; simpl in *; [reflexivity | lia].
      - destruct s, s'; simpl in *; try reflexivity; lia. }
    destruct (Z.leb_spec (comparator_result (f y - f x)%js) 0) as [Hle|Hgt].
    + constructor; [now constructor|]. constructor. now apply Hxy.
    + constructor; [now apply IH|].
      destruct Hhd as [|z l' Hz]; simpl.
      * constructor. apply Htot. lia.
      * destruct (comparator_result (f z - f x)%js <=? 0); constructor;
          [apply Htot; lia | assumption].
Qed.

(** Without a [NaN] the sorted array is in descending order. *)
Lemma sort_sorted (l : list A) :
  Forall (fun a => is_nan (f a) = false) l ->
  Sorted (fun a b => num_geb (f a) (f b) = true)
    (sort (fun a b => comparator_result (f b - f a)%js) l).
Proof.
  induction 1 as [|x l Hx Hall IH]; simpl; [constructor|].
  apply insert_sorted; [assumption | | assumption].
  eapply Permutation_Forall; [apply Permutation_sym, sort_perm | assumption].
Qed.

Lemma Sorted_descending (l : list A) :
  Sorted (fun a b => num_geb (f a) (f b) = true) l -> descending (map f l).
Proof.
  unfold descending.
  induction 1 as [|y l Hs IH Hhd]; intros i a b Ha Hb.
  - destruct i; discriminate.
  - destruct i as [|i]; simpl in Ha, Hb.
    + injection Ha as <-. destruct Hhd as [|z l' Hz]; [discriminate|].
      simpl in Hb. injection Hb as <-. exact Hz.
    + eapply IH; eassumption.
Qed.

(** Every adjacent pair of the sorted array is in descending order. *)
Lemma sort_descending (l : list A) :
  Forall (fun a => is_nan (f a) = false) l ->
  descending (map f (sort (fun a b => comparator_result (f b - f a)%js) l)).
Proof.
  intros H. now apply Sorted_descending, sort_sorted.
Qed.

Lemma insert_stable (v : num) (x : A) (l : list A) :
  filter (fun a => num_eqb (f a) v)
    (insert (fun a b => comparator_result (f b - f a)%js) x l)
  = filter (fun a => num_eqb (f a) v) (x :: l).
Proof.
  induction l as [|y l IH]; [reflexivity|].
  cbn [insert].
  destruct (Z.leb_spec (comparator_result (f y - f x)%js) 0) as [Hle|Hgt];
    [reflexivity|].
  cbn [filter] in *. rewrite IH.
  destruct (num_eqb (f y) v) eqn:Ey, (num_eqb (f x) v) eqn:Ex;
    try reflexivity.
  apply num_eqb_eq in Ey, Ex. rewrite Ey, Ex, comparator_sub_same in Hgt. lia.
Qed.

(** The elements with one value of [f] keep their relative order. *)
Lemma sort_stable (v : num) (l : list A) :
  filter (fun a => num_eqb (f a) v)
    (sort (fun a b => comparator_result (f b - f a)%js) l)
  = filter (fun a => num_eqb (f a) v) l.
Proof.
  induction l as [|x l IH]; [reflexivity|].
  cbn [sort]. rewrite insert_stable. cbn [filter]. now rewrite IH.
Qed.

Lemma geb_comparator (a b : num) :
  num_geb a b = true -> comparator_result (b - a)%js <= 0.
Proof.
  intros H. apply comparator_sub_le; [| |exact H];
    unfold num_geb in H; destruct a, b; simpl in *; try discriminate;
    reflexivity.
Qed.

(** Sorting an array that is in descending order leaves it as it is. *)
Lemma sort_sorted_id (l : list A) :
  Sorted (fun a b => num_geb (f a) (f b) = true) l ->
  sort (fun a b => comparator_result (f b - f a)%js) l = l.
Proof.
  induction 1 as [|x l Hs IH Hhd]; simpl; [reflexivity|].
  rewrite IH. destruct Hhd as [|y l' Hy]; simpl; [reflexivity|].
  apply geb_comparator in Hy.
  destruct (Z.leb_spec (comparator_result (f y - f x)%js) 0);
    [reflexivity | lia].
Qed.

Lemma desc_StronglySorted (l : list A) :
  Sorted (fun a b => num_geb (f a) (f b) = true) l ->
  StronglySorted (fun a b => num_geb (f a) (f b) = true) l.
Proof.
  apply Sorted_StronglySorted. intros a b c. apply num_geb_trans.
Qed.

Lemma StronglySorted_filter_desc (p : A -> bool) (l : list A) :
  StronglySorted (fun a b => num_geb (f a) (f b) = true) l ->
  StronglySorted (fun a b => num_geb (f a) (f b) = true) (filter p l).
Proof.
  induction 1 as [|x l Hs IH Hall]; simpl; [constructor|].
  destruct (p x); [|assumption].
  constructor; [assumption|].
  rewrite Forall_forall in *. intros y Hy.
  apply Hall. apply filter_In in Hy. tauto.
Qed.

(** The first [n] elements of an array in descending order are not below
    any of the others. *)
Lemma firstn_skipn_desc (l : list A) (n : nat) (x y : A) :
  StronglySorted (fun a b => num_geb (f a) (f b) = true) l ->
  In x (firstn n l) -> In y (skipn n l) -> num_geb (f x) (f y) = true.
Proof.
  intros Hs. revert n. induction Hs as [|z l Hs IH Hall]; intros n Hx Hy.
  - destruct n; destruct Hx.
  - destruct n as [|n]; simpl in Hx, Hy; [destruct Hx|].
    destruct Hx as [<-|Hx].
    + rewrite Forall_forall in Hall. apply Hall.
      rewrite <- (firstn_skipn n l). apply in_or_app. now right.
    + eapply IH; eassumption.
Qed.

End SortFacts.

(** ** The four maps as instances of the grouping loop *)

Lemma groupMap_groupBy (records : list BlacklistRecord.t) :
  groupMap records = groupBy group bucketUpd records JsMap.empty.
Proof. reflexivity. Qed.

Lemma provinceMap_groupBy (records : list BlacklistRecord.t) :
  provinceMap records = groupBy provinceKey bucketUpd records JsMap.empty.
Proof. reflexivity. Qed.

Lemma accountMap_groupBy (records : list BlacklistRecord.t) :
  accountMap records = groupBy accountKey bucketUpd records JsMap.empty.
Proof. reflexivity. Qed.

Lemma accountProvinceMap_groupBy (records : list BlacklistRecord.t) :
  accountProvinceMap records
  = groupBy accountProvinceKey accountProvinceUpd records JsMap.empty.
Proof. reflexivity. Qed.

(** ** Sum invariant *)

Lemma fold_Totals_add (records : list BlacklistRecord.t) (acc : Totals.t) :
  fold_left Totals.add records acc
  = {| Totals.totalOutbound :=
         fold_left num_add (map total_outbound_count records)
           (Totals.totalOutbound acc);
       Totals.blackOutbound :=
         fold_left num_add (map black_outbound_count records)
           (Totals.blackOutbound acc);
       Totals.totalPickup :=
         fold_left num_add (map total_pickup_count records)
           (Totals.totalPickup acc);
       Totals.blackPickup :=
         fold_left num_add (map black_pickup_count records)
           (Totals.blackPickup acc);
       Totals.totalPay :=
         fold_left num_add (map total_pay_count records)
           (Totals.totalPay acc);
       Totals.blackPay :=
         fold_left num_add (map black_pay_count records)
           (Totals.blackPay acc);
       Totals.totalComplain :=
         fold_left num_add (map total_complain_count records)
           (Totals.totalComplain acc);
       Totals.blackComplain :=
         fold_left num_add (map black_complain_count records)
           (Totals.blackComplain acc) |}.
Proof.
  revert acc. induction records as [|r records IH]; intros acc; simpl.
  - now destruct acc.
  - now rewrite IH.
Qed.

Lemma fold_Base_Totals_add (records : list BlacklistRecord.t)
  (acc : Base.Totals.t) :
  fold_left Base.Totals.add records acc
  = {| Base.Totals.totalOutbound :=
         fold_left num_add (map total_outbound_count records)
           (Base.Totals.totalOutbound acc);
       Base.Totals.blackOutbound :=
         fold_left num_add (map black_outbound_count records)
           (Base.Totals.blackOutbound acc);
       Base.Totals.totalPickup :=
         fold_left num_add (map total_pickup_count records)
           (Base.Totals.totalPickup acc);
       Base.Totals.blackPickup :=
         fold_left num_add (map black_pickup_count records)
           (Base.Totals.blackPickup acc);
       Base.Totals.totalPay :=
         fold_left num_add (map total_pay_count records)
           (Base.Totals.totalPay acc);
       Base.Totals.blackPay :=
         fold_left num_add (map black_pay_count records)
           (Base.Totals.blackPay acc) |}.
Proof.
  revert acc. induction records as [|r records IH]; intros acc; simpl.
  - now destruct acc.
  - now rewrite IH.
Qed.

(** Each summed field of the overall reduction is its counter added up over
    the records, in their order. *)
Lemma overall_field_sum (records : list BlacklistRecord.t) f c :
  In (f, c) overall_fields ->
  f (calculateOverallStats records) = sum_num (map c records).
Proof.
  intros Hin. unfold calculateOverallStats. rewrite fold_Totals_add.
  simpl in Hin.
  repeat (destruct Hin as [[= <- <-]|Hin]; [reflexivity|]).
  destruct Hin.
Qed.

Lemma base_field_sum (records : list BlacklistRecord.t) f c :
  In (f, c) base_fields ->
  f (Base.calculateOverallStats records) = sum_num (map c records).
Proof.
  intros Hin. unfold Base.calculateOverallStats.
  rewrite fold_Base_Totals_add. simpl in Hin.
  repeat (destruct Hin as [[= <- <-]|Hin]; [reflexivity|]).
  destruct Hin.
Qed.

(** C1, as the claim states it, fails: the counters 2^53 and 1 add up to
    2^53 + 1, and [calculateOverallStats] returns 2^53, the nearest
    double. *)
Lemma C1_sum_is_rounded :
  let records := [ sample_record "a" "bj" "31" 9007199254740992 0 0 0;
                   sample_record "a" "bj" "31" 1 0 0 0 ] in
  exact_sum total_outbound_count records = 9007199254740993
  /\ OverallStats.totalOutbound (calculateOverallStats records)
     = Int 9007199254740992
  /\ OverallStats.totalOutbound (calculateOverallStats records)
     <> Int (exact_sum total_outbound_count records).
Proof.
  cbv zeta. split; [reflexivity|]. split; [reflexivity|].
  intros H. vm_compute in H. discriminate H.
Qed.

(** C1, amended. Every summed counter that [calculateOverallStats] returns
    is the corresponding counter field added up over the records as doubles
    are, in the order of the list; it is the exact sum of the field when the
    field holds integers whose magnitudes add up to less than 2^53.  This
    holds of the eight counters of the extended schema and of the six
    counters of the first version of the function. *)
Theorem C1_overall_sums (records : list BlacklistRecord.t) :
  (forall f c, In (f, c) overall_fields ->
     f (calculateOverallStats records) = sum_num (map c records)
     /\ (safe c records ->
         f (calculateOverallStats records) = Int (exact_sum c records)))
  /\ (forall f c, In (f, c) base_fields ->
        f (Base.calculateOverallStats records) = sum_num (map c records)
        /\ (safe c records ->
            f (Base.calculateOverallStats records)
            = Int (exact_sum c records))).
Proof.
  split; intros f c Hin.
  - rewrite (overall_field_sum records f c Hin).
    split; [reflexivity | apply safe_sum].
  - rewrite (base_field_sum records f c Hin).
    split; [reflexivity | apply safe_sum].
Qed.

Lemma C1_overall_sums_witness :
  let records := [ sample_record "a" "bj" "31" 1000 100 10 1;
                   sample_record "b" "sh" "" 2000 0 0 0 ] in
  safe total_outbound_count records
  /\ OverallStats.totalOutbound (calculateOverallStats records) = Int 3000.
Proof.
  cbv zeta.
  assert (Hsafe : safe total_outbound_count
                    [ sample_record "a" "bj" "31" 1000 100 10 1;
                      sample_record "b" "sh" "" 2000 0 0 0 ]).
  { split; [repeat constructor | reflexivity]. }
  split; [exact Hsafe|].
  exact (proj2 (proj1 (C1_overall_sums _)
                  OverallStats.totalOutbound total_outbound_count
                  (or_introl eq_refl)) Hsafe).
Defined.

(** ** Partition invariant *)

Lemma bucketUpd_totalOutbound o r :
  Bucket.totalOutbound (bucketUpd o r)
  = (opt_field Bucket.totalOutbound o + total_outbound_count r)%js.
Proof. destruct o; reflexivity. Qed.

Lemma accountProvinceUpd_totalOutbound o r :
  AccountProvinceBucket.totalOutbound (accountProvinceUpd o r)
  = (opt_field AccountProvinceBucket.totalOutbound o
     + total_outbound_count r)%js.
Proof. destruct o; reflexivity. Qed.

Lemma map_row_field {Row : Type} (row : string * Bucket.t -> Row)
  (f : Row -> num) (fb : Bucket.t -> num) (m : JsMap.t Bucket.t) :
  (forall k b, f (row (k, b)) = fb b) ->
  map f (map row (JsMap.entries m)) = map fb (JsMap.values m).
Proof.
  intros H. unfold JsMap.entries, JsMap.values. rewrite !map_map.
  apply map_ext. intros [k b]. apply H.
Qed.

Lemma add_up_to_ints (zs : list Z) :
  sumZ (map Z.abs zs) < 2 ^ 53 ->
  add_up_to (map Int zs) (Int (sumZ zs)).
Proof.
  intros H. split; [|split].
  - rewrite Forall_forall. intros x Hx. apply in_map_iff in Hx.
    destruct Hx as [z [<- _]]. reflexivity.
  - rewrite map_map. simpl. now rewrite map_id.
  - now apply sum_num_exact.
Qed.

Lemma sumZ_map_abs_perm (l l' : list Z) :
  Permutation l l' -> sumZ (map Z.abs l) = sumZ (map Z.abs l').
Proof.
  intros H. apply sumZ_perm, Permutation_map, H.
Qed.

(** The fields of the entries of a grouping of safe records are integers
    that add up to the exact sum of the counter, and so do they in any other
    order. *)
Section KeyedTotals.
Context {V : Type}.
Variable key : BlacklistRecord.t -> string.
Variable upd : option V -> BlacklistRecord.t -> V.
Variable field : V -> num.
Variable counter : BlacklistRecord.t -> num.
Hypothesis upd_field :
  forall o r, field (upd o r) = (opt_field field o + counter r)%js.

Lemma groupBy_fields_exact (rs : list BlacklistRecord.t) :
  safe counter rs ->
  map field (JsMap.values (groupBy key upd rs JsMap.empty))
  = map Int (map (fun k => exact_sum counter (with_key key k rs))
               (first_seen (map key rs))).
Proof.
  intros Hsafe. rewrite (groupBy_fields key upd field counter upd_field).
  rewrite map_map. apply map_ext. intros k.
  apply safe_sum. now apply safe_filter.
Qed.

Lemma groupBy_fields_add_up (rs : list BlacklistRecord.t) (l : list num) :
  safe counter rs ->
  Permutation l (map field (JsMap.values (groupBy key upd rs JsMap.empty))) ->
  add_up_to l (Int (exact_sum counter rs)).
Proof.
  intros Hsafe Hperm. rewrite (groupBy_fields_exact rs Hsafe) in Hperm.
  apply Permutation_map_inv in Hperm. destruct Hperm as [zs [-> Hzs]].
  assert (Hsum : sumZ zs = exact_sum counter rs).
  { rewrite <- (sumZ_perm _ _ Hzs).
    apply (sum_by_keys key (fun r => int_value (counter r))). }
  rewrite <- Hsum. apply add_up_to_ints.
  rewrite <- (sumZ_map_abs_perm _ _ Hzs), map_map.
  eapply Z.le_lt_trans; [|exact (proj2 Hsafe)].
  rewrite <- (sum_by_keys key (fun r => Z.abs (int_value (counter r))) rs).
  generalize (first_seen (map key rs)) as ks.
  induction ks as [|k ks IH]; simpl; [lia|].
  pose proof (exact_sum_abs counter (with_key key k rs)). lia.
Qed.
End KeyedTotals.

Lemma overall_totalOutbound (records : list BlacklistRecord.t) :
  safe total_outbound_count records ->
  OverallStats.totalOutbound (calculateOverallStats records)
  = Int (exact_sum total_outbound_count records).
Proof.
  intros H.
  rewrite (overall_field_sum records _ _ (or_introl eq_refl)).
  now apply safe_sum.
Qed.

Lemma base_overall_totalOutbound (records : list BlacklistRecord.t) :
  safe total_outbound_count records ->
  Base.OverallStats.totalOutbound (Base.calculateOverallStats records)
  = Int (exact_sum total_outbound_count records).
Proof.
  intros H.
  rewrite (base_field_sum records _ _ (or_introl eq_refl)).
  now apply safe_sum.
Qed.

(** C2, as the claim states it, fails: with the counter 2^53 in one group
    and twice the counter 1 in another, the rows hold 2^53 and 2, which add
    up to 2^53 + 2, and the overall total is 2^53, each 1 being lost to the
    rounding. *)
Lemma C2_rows_exceed_rounded_total :
  let records := [ sample_record "a" "bj" "31" 9007199254740992 0 0 0;
                   sample_record "a" "bj" "32" 1 0 0 0;
                   sample_record "a" "bj" "32" 1 0 0 0 ] in
  map GroupStats.totalOutbound (calculateGroupStats records)
  = [Int 9007199254740992; Int 2]
  /\ sum_num (map GroupStats.totalOutbound (calculateGroupStats records))
     = Int 9007199254740994
  /\ OverallStats.totalOutbound (calculateOverallStats records)
     = Int 9007199254740992
  /\ sum_num (map GroupStats.totalOutbound (calculateGroupStats records))
     <> OverallStats.totalOutbound (calculateOverallStats records).
Proof.
  cbv zeta. split; [reflexivity|]. split; [reflexivity|].
  split; [reflexivity|].
  intros H. vm_compute in H. discriminate H.
Qed.

(** C2, amended. When [total_outbound_count] holds integers whose magnitudes
    add up to less than 2^53 over the records, then without a filter
    argument the [totalOutbound] of the rows of each grouped reduction
    (group, province, account, account and province) are integers that add
    up, exactly and as doubles, to the [totalOutbound] of
    [calculateOverallStats] on the same records: no record is dropped and
    none is counted twice. *)
Theorem C2_partition (records : list BlacklistRecord.t) :
  safe total_outbound_count records ->
  let overall := OverallStats.totalOutbound (calculateOverallStats records) in
  add_up_to (map GroupStats.totalOutbound (calculateGroupStats records))
    (Base.OverallStats.totalOutbound (Base.calculateOverallStats records))
  /\ add_up_to (map GroupStats.totalOutbound (calculateGroupStats records))
       overall
  /\ add_up_to (map ProvinceStats.totalOutbound
                  (calculateProvinceStats records None)) overall
  /\ add_up_to (map AccountStats.totalOutbound
                  (calculateAccountStats records)) overall
  /\ add_up_to (map AccountProvinceStats.totalOutbound
                  (calculateAccountProvinceStats records None)) overall.
Proof.
  intros Hsafe. cbv zeta.
  rewrite (overall_totalOutbound _ Hsafe),
    (base_overall_totalOutbound _ Hsafe).
  assert (Hgroup : add_up_to
                     (map GroupStats.totalOutbound
                        (calculateGroupStats records))
                     (Int (exact_sum total_outbound_count records))).
  { unfold calculateGroupStats.
    rewrite (map_row_field groupRow _ Bucket.totalOutbound)
      by reflexivity.
    rewrite groupMap_groupBy.
    apply (groupBy_fields_add_up group bucketUpd Bucket.totalOutbound
             total_outbound_count bucketUpd_totalOutbound);
      [assumption | reflexivity]. }
  split; [exact Hgroup|]. split; [exact Hgroup|].
  split; [|split].
  - unfold calculateProvinceStats.
    apply (groupBy_fields_add_up provinceKey bucketUpd Bucket.totalOutbound
             total_outbound_count bucketUpd_totalOutbound); [assumption|].
    rewrite (Permutation_map _ (sort_perm ProvinceStats.totalOutbound _)).
    rewrite (map_row_field provinceRow _ Bucket.totalOutbound)
      by reflexivity.
    reflexivity.
  - unfold calculateAccountStats.
    apply (groupBy_fields_add_up accountKey bucketUpd Bucket.totalOutbound
             total_outbound_count bucketUpd_totalOutbound); [assumption|].
    rewrite (Permutation_map _ (sort_perm AccountStats.totalOutbound _)).
    rewrite (map_row_field accountRow _ Bucket.totalOutbound)
      by reflexivity.
    reflexivity.
  - unfold calculateAccountProvinceStats.
    apply (groupBy_fields_add_up accountProvinceKey accountProvinceUpd
             AccountProvinceBucket.totalOutbound total_outbound_count
             accountProvinceUpd_totalOutbound); [assumption|].
    rewrite (Permutation_map _
               (sort_perm AccountProvinceStats.totalOutbound _)).
    rewrite map_map. reflexivity.
Qed.

Lemma C2_partition_witness :
  let records := [ sample_record "a" "bj" "31" 1000 100 10 1;
                   sample_record "b" "sh" "" 2000 0 0 0;
                   sample_record "a" "sh" "31" 500 5 0 0 ] in
  safe total_outbound_count records
  /\ add_up_to (map GroupStats.totalOutbound (calculateGroupStats records))
       (Int 3500).
Proof.
  cbv zeta.
  assert (Hsafe : safe total_outbound_count
                    [ sample_record "a" "bj" "31" 1000 100 10 1;
                      sample_record "b" "sh" "" 2000 0 0 0;
                      sample_record "a" "sh" "31" 500 5 0 0 ]).
  { split; [repeat constructor | reflexivity]. }
  split; [exact Hsafe|].
  exact (proj1 (proj2 (C2_partition _ Hsafe))).
Defined.

(** ** Derived rates *)

Lemma percent_sign (b t : Z) :
  0 < t ->
  (Qnum (inject_Z b / inject_Z t * inject_Z 100) <? 0) = (b <? 0).
Proof.
  intros Ht. destruct t as [|p|p]; try lia.
  unfold Qdiv, Qmult, Qinv, inject_Z. simpl.
  destruct (Z.ltb_spec (b * 1 * 100) 0), (Z.ltb_spec b 0); lia || reflexivity.
Qed.

(** The expression of the program is the formula of the specification. *)
Lemma rate_formula_eq (total black : num) :
  (if (total >? Int 0)%js then (black / total * 100)%js else Finite 0)
  = rate_formula total black.
Proof.
  destruct total as [t|[|]|]; try reflexivity.
  - unfold num_gtb, num_ltb, rate_formula.
    destruct (Z.ltb_spec 0 t) as [Hpos|Hle]; [|now destruct black].
    destruct black as [b|s|]; [|simpl|reflexivity].
    + unfold num_div. destruct (Z.eqb_spec t 0); [lia|].
      unfold num_mul. cbv zeta. now rewrite percent_sign.
    + destruct (Z.ltb_spec t 0); [lia|]. now rewrite xorb_false_r.
  - destruct black as [b|s|]; reflexivity.
Qed.

Lemma In_calculateGroupStats row records :
  In row (calculateGroupStats records) <->
  exists k b, In (k, b) (JsMap.entries (groupMap records))
              /\ row = groupRow (k, b).
Proof.
  unfold calculateGroupStats. rewrite in_map_iff. split.
  - intros [[k b] [Heq Hin]]. eauto.
  - intros [k [b [Hin Heq]]]. eauto.
Qed.

Lemma In_calculateProvinceStats row records g :
  In row (calculateProvinceStats records g) <->
  exists k b,
    In (k, b) (JsMap.entries (provinceMap (provinceFilteredRecords records g)))
    /\ row = provinceRow (k, b).
Proof.
  unfold calculateProvinceStats.
  rewrite (sort_In ProvinceStats.totalOutbound), in_map_iff. split.
  - intros [[k b] [Heq Hin]]. eauto.
  - intros [k [b [Hin Heq]]]. eauto.
Qed.

Lemma In_calculateAccountStats row records :
  In row (calculateAccountStats records) <->
  exists k b, In (k, b) (JsMap.entries (accountMap records))
              /\ row = accountRow (k, b).
Proof.
  unfold calculateAccountStats.
  rewrite (sort_In AccountStats.totalOutbound), in_map_iff. split.
  - intros [[k b] [Heq Hin]]. eauto.
  - intros [k [b [Hin Heq]]]. eauto.
Qed.

Lemma In_calculateAccountProvinceStats row records a :
  In row (calculateAccountProvinceStats records a) <->
  exists k b,
    In (k, b)
      (JsMap.entries (accountProvinceMap (accountFilteredRecords records a)))
    /\ row = accountProvinceRow b.
Proof.
  unfold calculateAccountProvinceStats, JsMap.values, JsMap.entries.
  rewrite (sort_In AccountProvinceStats.totalOutbound), map_map, in_map_iff.
  split.
  - intros [[k b] [Heq Hin]]. eauto.
  - intros [k [b [Hin Heq]]]. exists (k, b). auto.
Qed.

(** C3, as the claim states it, fails: a row of the group reduction sums
    [totalPay] and [blackPay] and has no [blackPayRate] property. *)
Lemma C3_group_row_has_no_pay_rate :
  ~ (forall row,
       In row (calculateGroupStats [sample_record "a" "bj" "31" 1000 100 10 1])
       -> get_prop "blackPayRate" (GroupStats_props row)
          = Some (Num (rate_formula (GroupStats.totalPay row)
                         (GroupStats.blackPay row)))).
Proof.
  intros H. specialize (H _ (or_introl eq_refl)). discriminate H.
Qed.

(** C3, amended. The overall reduction computes a rate for every counter
    pair it sums, by the formula
    [total > 0 ? (black / total) * 100 : 0].  Each row of the group,
    province, account and account-and-province reductions carries the
    outbound rate and the pickup rate by the same formula; it sums the pay
    pair and has no pay rate. *)
Theorem C3_rates (records : list BlacklistRecord.t) (g a : option string) :
  let stats := calculateOverallStats records in
  let base := Base.calculateOverallStats records in
  (OverallStats.blackOutboundRate stats
   = rate_formula (OverallStats.totalOutbound stats)
       (OverallStats.blackOutbound stats)
   /\ OverallStats.blackPickupRate stats
      = rate_formula (OverallStats.totalPickup stats)
          (OverallStats.blackPickup stats)
   /\ OverallStats.blackPayRate stats
      = rate_formula (OverallStats.totalPay stats)
          (OverallStats.blackPay stats)
   /\ OverallStats.blackComplainRate stats
      = rate_formula (OverallStats.totalComplain stats)
          (OverallStats.blackComplain stats))
  /\ (Base.OverallStats.blackOutboundRate base
      = rate_formula (Base.OverallStats.totalOutbound base)
          (Base.OverallStats.blackOutbound base)
      /\ Base.OverallStats.blackPickupRate base
         = rate_formula (Base.OverallStats.totalPickup base)
             (Base.OverallStats.blackPickup base)
      /\ Base.OverallStats.blackPayRate base
         = rate_formula (Base.OverallStats.totalPay base)
             (Base.OverallStats.blackPay base))
  /\ (forall row, In row (calculateGroupStats records) ->
        GroupStats.blackOutboundRate row
        = rate_formula (GroupStats.totalOutbound row)
            (GroupStats.blackOutbound row)
        /\ GroupStats.blackPickupRate row
           = rate_formula (GroupStats.totalPickup row)
               (GroupStats.blackPickup row)
        /\ get_prop "blackPayRate" (GroupStats_props row) = None)
  /\ (forall row, In row (calculateProvinceStats records g) ->
        ProvinceStats.blackOutboundRate row
        = rate_formula (ProvinceStats.totalOutbound row)
            (ProvinceStats.blackOutbound row)
        /\ ProvinceStats.blackPickupRate row
           = rate_formula (ProvinceStats.totalPickup row)
               (ProvinceStats.blackPickup row)
        /\ get_prop "blackPayRate" (ProvinceStats_props row) = None)
  /\ (forall row, In row (calculateAccountStats records) ->
        AccountStats.blackOutboundRate row
        = rate_formula (AccountStats.totalOutbound row)
            (AccountStats.blackOutbound row)
        /\ AccountStats.blackPickupRate row
           = rate_formula (AccountStats.totalPickup row)
               (AccountStats.blackPickup row)
        /\ get_prop "blackPayRate" (AccountStats_props row) = None)
  /\ (forall row, In row (calculateAccountProvinceStats records a) ->
        AccountProvinceStats.blackOutboundRate row
        = rate_formula (AccountProvinceStats.totalOutbound row)
            (AccountProvinceStats.blackOutbound row)
        /\ AccountProvinceStats.blackPickupRate row
           = rate_formula (AccountProvinceStats.totalPickup row)
               (AccountProvinceStats.blackPickup row)
        /\ get_prop "blackPayRate" (AccountProvinceStats_props row) = None).
Proof.
  cbv zeta. split; [|split; [|split; [|split; [|split]]]].
  - unfold calculateOverallStats; simpl.
    repeat split; apply rate_formula_eq.
  - unfold Base.calculateOverallStats; simpl.
    repeat split; apply rate_formula_eq.
  - intros row Hrow. apply In_calculateGroupStats in Hrow.
    destruct Hrow as [k [b [_ ->]]]. simpl.
    repeat split; apply rate_formula_eq.
  - intros row Hrow. apply In_calculateProvinceStats in Hrow.
    destruct Hrow as [k [b [_ ->]]]. simpl.
    repeat split; apply rate_formula_eq.
  - intros row Hrow. apply In_calculateAccountStats in Hrow.
    destruct Hrow as [k [b [_ ->]]]. simpl.
    repeat split; apply rate_formula_eq.
  - intros row Hrow. apply In_calculateAccountProvinceStats in Hrow.
    destruct Hrow as [k [b [_ ->]]]. simpl.
    repeat split; apply rate_formula_eq.
Qed.

Lemma C3_rates_witness :
  let row := groupRow ("31", bucketUpd None
                               (sample_record "a" "bj" "31" 1000 100 10 1)) in
  In row (calculateGroupStats [sample_record "a" "bj" "31" 1000 100 10 1])
  /\ GroupStats.blackOutboundRate row = rate_formula (Int 1000) (Int 100).
Proof.
  split.
  - left. reflexivity.
  - destruct (C3_rates [sample_record "a" "bj" "31" 1000 100 10 1] None None)
      as (_ & _ & Hgroup & _).
    exact (proj1 (Hgroup _ (or_introl eq_refl))).
Defined.

(** ** Descending order and stability *)

Lemma filter_map {A B : Type} (p : B -> bool) (h : A -> B) (l : list A) :
  filter p (map h l) = map h (filter (fun x => p (h x)) l).
Proof.
  induction l as [|x l IH]; simpl; [reflexivity|].
  destruct (p (h x)); simpl; now rewrite IH.
Qed.

(** Rows built from the entries of a map of buckets and sorted by
    [totalOutbound]: the rows with total [v] are those of the first-seen keys
    whose records add up to [v], in first-seen order. *)
Section KeyedRows.
Context {Row : Type}.
Variable key : BlacklistRecord.t -> string.
Variable row : string * Bucket.t -> Row.
Variable rowKey : Row -> string.
Variable rowTotal : Row -> num.
Hypothesis rowKey_row : forall k b, rowKey (row (k, b)) = k.
Hypothesis rowTotal_row :
  forall k b, rowTotal (row (k, b)) = Bucket.totalOutbound b.

Lemma keyed_rows_in_key_order (rs : list BlacklistRecord.t) :
  map rowKey (map row (JsMap.entries (groupBy key bucketUpd rs JsMap.empty)))
  = first_seen (map key rs).
Proof.
  rewrite <- (groupBy_keys key bucketUpd rs).
  unfold JsMap.entries, JsMap.keys. rewrite map_map.
  apply map_ext. now intros [k b].
Qed.

Lemma keyed_rows_stable (rs : list BlacklistRecord.t) (v : num) :
  map rowKey
    (filter (fun r => num_eqb (rowTotal r) v)
       (sort (fun a b => comparator_result (rowTotal b - rowTotal a)%js)
          (map row (JsMap.entries (groupBy key bucketUpd rs JsMap.empty)))))
  = filter
      (fun k =>
         num_eqb (sum_num (map total_outbound_count (with_key key k rs))) v)
      (first_seen (map key rs)).
Proof.
  rewrite (sort_stable rowTotal), filter_map, map_map.
  rewrite <- (groupBy_keys key bucketUpd rs).
  unfold JsMap.keys. rewrite filter_map.
  rewrite (map_ext (fun x => rowKey (row x)) fst) by (now intros [k b]).
  f_equal. apply filter_ext_in. intros [k b] Hin.
  rewrite rowTotal_row. simpl.
  now rewrite (groupBy_entry key bucketUpd Bucket.totalOutbound
                 total_outbound_count bucketUpd_totalOutbound rs k b Hin).
Qed.
End KeyedRows.

Lemma In_entries_values {V : Type} (k : string) (v : V) (m : JsMap.t V) :
  In (k, v) (JsMap.entries m) -> In v (JsMap.values m).
Proof.
  intros Hin. change v with (snd (k, v)). now apply in_map.
Qed.

Lemma add_int_not_nan (a b : num) :
  is_nan a = false -> is_int b = true -> is_nan (a + b)%js = false.
Proof.
  destruct a as [x|s|], b as [y|s'|]; simpl; try discriminate;
    try reflexivity.
  intros _ _. pose proof (to_double_not_nan (x + y)).
  now destruct (to_double (x + y)).
Qed.

(** With finite counters no total is [NaN]. *)
Lemma bucket_total_not_nan (key : BlacklistRecord.t -> string) rs k b :
  Forall (fun r => is_int (total_outbound_count r) = true) rs ->
  In (k, b) (JsMap.entries (groupBy key bucketUpd rs JsMap.empty)) ->
  is_nan (Bucket.totalOutbound b) = false.
Proof.
  intros Hrs Hin.
  assert (Hall : Forall (fun b => is_nan (Bucket.totalOutbound b) = false)
                   (JsMap.values (groupBy key bucketUpd rs JsMap.empty))).
  { apply (groupBy_Forall key bucketUpd _
             (fun r => is_int (total_outbound_count r) = true));
      [|assumption].
    intros o r Ho Hr. rewrite bucketUpd_totalOutbound.
    apply add_int_not_nan; [|assumption].
    destruct o as [v|]; simpl; [now apply Ho | reflexivity]. }
  rewrite Forall_forall in Hall. apply Hall.
  exact (In_entries_values _ _ _ Hin).
Qed.

Lemma accountProvinceBucket_total_not_nan rs k b :
  Forall (fun r => is_int (total_outbound_count r) = true) rs ->
  In (k, b) (JsMap.entries (groupBy accountProvinceKey accountProvinceUpd rs
                              JsMap.empty)) ->
  is_nan (AccountProvinceBucket.totalOutbound b) = false.
Proof.
  intros Hrs Hin.
  assert (Hall : Forall (fun b =>
                           is_nan (AccountProvinceBucket.totalOutbound b)
                           = false)
                   (JsMap.values (groupBy accountProvinceKey
                                    accountProvinceUpd rs JsMap.empty))).
  { apply (groupBy_Forall accountProvinceKey accountProvinceUpd _
             (fun r => is_int (total_outbound_count r) = true));
      [|assumption].
    intros o r Ho Hr. rewrite accountProvinceUpd_totalOutbound.
    apply add_int_not_nan; [|assumption].
    destruct o as [v|]; simpl; [now apply Ho | reflexivity]. }
  rewrite Forall_forall in Hall. apply Hall.
  exact (In_entries_values _ _ _ Hin).
Qed.

Lemma provinceFilteredRecords_incl records g r :
  In r (provinceFilteredRecords records g) -> In r records.
Proof.
  unfold provinceFilteredRecords. destruct (truthy g); [|auto].
  rewrite filter_In. tauto.
Qed.

Lemma accountFilteredRecords_incl records a r :
  In r (accountFilteredRecords records a) -> In r records.
Proof.
  unfold accountFilteredRecords. destruct (truthy a); [|auto].
  rewrite filter_In. tauto.
Qed.

Lemma Forall_incl {A : Type} (P : A -> Prop) (l l' : list A) :
  (forall x, In x l' -> In x l) -> Forall P l -> Forall P l'.
Proof.
  intros Hincl Hl. rewrite Forall_forall in *. auto.
Qed.

Lemma not_nan_is_nan (x : num) : x <> Nan -> is_nan x = false.
Proof.
  destruct x; [reflexivity | reflexivity | congruence].
Qed.

Lemma is_nan_not_nan (x : num) : is_nan x = false -> x <> Nan.
Proof.
  destruct x; [discriminate | discriminate | discriminate].
Qed.

(** C4, as the claim states it, fails twice.  With the group filter "Y" the
    two rows have the total 5 and come in the order B, A, the order in which
    the provinces are first seen among the records of group "Y", while in the
    input A is seen before B.  And a province with an infinite counter of
    each sign has the total [NaN]: its row and the row of another province
    are in descending order in neither of the two possible orders. *)
Lemma C4_ties_follow_filtered_records :
  let records := [ sample_record "a" "A" "X" 5 1 0 0;
                   sample_record "b" "B" "Y" 5 1 0 0;
                   sample_record "c" "A" "Y" 5 1 0 0 ] in
  let infinite := [ sample_counts "a" "A" "X" (Inf false) (Int 0);
                    sample_counts "a" "A" "X" (Inf true) (Int 0);
                    sample_counts "b" "B" "X" (Int 5) (Int 1) ] in
  map (fun row => (ProvinceStats.province row, ProvinceStats.totalOutbound row))
    (calculateProvinceStats records (Some "Y"))
  = [ ("B", Int 5); ("A", Int 5) ]
  /\ first_seen (map provinceKey records) = ["A"; "B"]
  /\ map (fun row => (ProvinceStats.province row,
                      ProvinceStats.totalOutbound row))
       (calculateProvinceStats infinite None)
     = [ ("A", Nan); ("B", Int 5) ]
  /\ forall rows,
       Permutation (calculateProvinceStats infinite None) rows ->
       ~ descending (map ProvinceStats.totalOutbound rows).
Proof.
  cbv zeta. split; [reflexivity|]. split; [reflexivity|].
  split; [reflexivity|].
  intros rows Hperm Hdesc.
  change (calculateProvinceStats _ None)
    with [ provinceRow ("A", {| Bucket.totalOutbound := Nan;
                                Bucket.blackOutbound := Int 0;
                                Bucket.totalPickup := Int 0;
                                Bucket.blackPickup := Int 0;
                                Bucket.totalPay := Int 0;
                                Bucket.blackPay := Int 0 |});
           provinceRow ("B", {| Bucket.totalOutbound := Int 5;
                                Bucket.blackOutbound := Int 1;
                                Bucket.totalPickup := Int 0;
                                Bucket.blackPickup := Int 0;
                                Bucket.totalPay := Int 0;
                                Bucket.blackPay := Int 0 |}) ] in Hperm.
  apply Permutation_length_2_inv in Hperm.
  destruct Hperm as [-> | ->];
    specialize (Hdesc 0%nat _ _ eq_refl eq_refl); discriminate Hdesc.
Qed.

(** C4, amended. Whatever the filter argument, the rows of the province,
    account and account-and-province reductions are in descending order of
    [totalOutbound] at every adjacent pair, provided no total is [NaN], and
    no total is when every [total_outbound_count] is finite.  The sort is
    stable, and the order of the ties is that of the records that pass the
    filter.  For the province and account reductions: the rows whose total is
    [v] are, in this order, the rows of the keys first seen among the records
    that pass the filter whose records add up to [v].  For the
    account-and-province reduction, whose rows do not carry their key: the
    rows whose total is [v] are in the iteration order of the map, and the
    keys of the map are in the order in which they are first seen among the
    records that pass the filter. *)
Theorem C4_descending_stable (records : list BlacklistRecord.t)
  (g a : option string) :
  let byProvince := calculateProvinceStats records g in
  let byAccount := calculateAccountStats records in
  let byAccountProvince := calculateAccountProvinceStats records a in
  ((forall row, In row byProvince -> ProvinceStats.totalOutbound row <> Nan) ->
   descending (map ProvinceStats.totalOutbound byProvince))
  /\ (forall v,
        map ProvinceStats.province
          (filter (fun row => num_eqb (ProvinceStats.totalOutbound row) v)
             byProvince)
        = filter
            (fun k =>
               num_eqb
                 (sum_num
                    (map total_outbound_count
                       (with_key provinceKey k
                          (provinceFilteredRecords records g)))) v)
            (first_seen
               (map provinceKey (provinceFilteredRecords records g))))
  /\ ((forall row, In row byAccount -> AccountStats.totalOutbound row <> Nan) ->
      descending (map AccountStats.totalOutbound byAccount))
  /\ (forall v,
        map AccountStats.account
          (filter (fun row => num_eqb (AccountStats.totalOutbound row) v)
             byAccount)
        = filter
            (fun k =>
               num_eqb
                 (sum_num
                    (map total_outbound_count (with_key accountKey k records)))
                 v)
            (first_seen (map accountKey records)))
  /\ ((forall row, In row byAccountProvince ->
         AccountProvinceStats.totalOutbound row <> Nan) ->
      descending (map AccountProvinceStats.totalOutbound byAccountProvince))
  /\ (forall v,
        filter (fun row => num_eqb (AccountProvinceStats.totalOutbound row) v)
          byAccountProvince
        = filter (fun row => num_eqb (AccountProvinceStats.totalOutbound row) v)
            (map accountProvinceRow
               (JsMap.values
                  (accountProvinceMap (accountFilteredRecords records a)))))
  /\ JsMap.keys (accountProvinceMap (accountFilteredRecords records a))
     = first_seen
         (map accountProvinceKey (accountFilteredRecords records a))
  /\ (Forall (fun r => is_int (total_outbound_count r) = true) records ->
      (forall row, In row byProvince -> ProvinceStats.totalOutbound row <> Nan)
      /\ (forall row, In row byAccount ->
            AccountStats.totalOutbound row <> Nan)
      /\ (forall row, In row byAccountProvince ->
            AccountProvinceStats.totalOutbound row <> Nan)).
Proof.
  cbv zeta.
  split; [|split; [|split; [|split; [|split; [|split; [|split]]]]]].
  - intros Hnan. unfold calculateProvinceStats in *.
    apply (sort_descending ProvinceStats.totalOutbound).
    rewrite Forall_forall. intros row Hrow.
    apply not_nan_is_nan, Hnan.
    now apply (sort_In ProvinceStats.totalOutbound).
  - intros v. unfold calculateProvinceStats. rewrite provinceMap_groupBy.
    apply (keyed_rows_stable provinceKey provinceRow); reflexivity.
  - intros Hnan. unfold calculateAccountStats in *.
    apply (sort_descending AccountStats.totalOutbound).
    rewrite Forall_forall. intros row Hrow.
    apply not_nan_is_nan, Hnan.
    now apply (sort_In AccountStats.totalOutbound).
  - intros v. unfold calculateAccountStats. rewrite accountMap_groupBy.
    apply (keyed_rows_stable accountKey accountRow); reflexivity.
  - intros Hnan. unfold calculateAccountProvinceStats in *.
    apply (sort_descending AccountProvinceStats.totalOutbound).
    rewrite Forall_forall. intros row Hrow.
    apply not_nan_is_nan, Hnan.
    now apply (sort_In AccountProvinceStats.totalOutbound).
  - intros v. unfold calculateAccountProvinceStats.
    apply (sort_stable AccountProvinceStats.totalOutbound).
  - rewrite accountProvinceMap_groupBy. apply groupBy_keys.
  - intros Hint. split; [|split]; intros row Hrow.
    + apply In_calculateProvinceStats in Hrow.
      destruct Hrow as [k [b [Hin ->]]]. rewrite provinceMap_groupBy in Hin.
      apply is_nan_not_nan. simpl.
      apply (bucket_total_not_nan provinceKey
               (provinceFilteredRecords records g) k b); [|exact Hin].
      eapply Forall_incl; [|exact Hint].
      intros r. apply provinceFilteredRecords_incl.
    + apply In_calculateAccountStats in Hrow.
      destruct Hrow as [k [b [Hin ->]]]. rewrite accountMap_groupBy in Hin.
      apply is_nan_not_nan. simpl.
      exact (bucket_total_not_nan accountKey _ k b Hint Hin).
    + apply In_calculateAccountProvinceStats in Hrow.
      destruct Hrow as [k [b [Hin ->]]].
      rewrite accountProvinceMap_groupBy in Hin.
      apply is_nan_not_nan. simpl.
      apply (accountProvinceBucket_total_not_nan
               (accountFilteredRecords records a) k b); [|exact Hin].
      eapply Forall_incl; [|exact Hint].
      intros r. apply accountFilteredRecords_incl.
Qed.

Lemma C4_descending_stable_witness :
  let records := [ sample_record "a" "A" "X" 5 1 0 0;
                   sample_record "b" "B" "Y" 5 1 0 0;
                   sample_record "c" "A" "Y" 5 1 0 0;
                   sample_record "d" "C" "Y" 7 2 0 0 ] in
  let rows := calculateProvinceStats records (Some "Y") in
  (forall row, In row rows -> ProvinceStats.totalOutbound row <> Nan)
  /\ map ProvinceStats.totalOutbound rows = [Int 7; Int 5; Int 5]
  /\ descending (map ProvinceStats.totalOutbound rows)
  /\ map ProvinceStats.province
       (filter (fun row => num_eqb (ProvinceStats.totalOutbound row) (Int 5))
          rows)
     = ["B"; "A"].
Proof.
  cbv zeta.
  assert (Hnan : forall row,
             In row (calculateProvinceStats
                       [ sample_record "a" "A" "X" 5 1 0 0;
                         sample_record "b" "B" "Y" 5 1 0 0;
                         sample_record "c" "A" "Y" 5 1 0 0;
                         sample_record "d" "C" "Y" 7 2 0 0 ] (Some "Y")) ->
             ProvinceStats.totalOutbound row <> Nan).
  { intros row [<-|[<-|[<-|[]]]]; discriminate. }
  split; [exact Hnan|]. split; [reflexivity|].
  destruct (C4_descending_stable
              [ sample_record "a" "A" "X" 5 1 0 0;
                sample_record "b" "B" "Y" 5 1 0 0;
                sample_record "c" "A" "Y" 5 1 0 0;
                sample_record "d" "C" "Y" 7 2 0 0 ] (Some "Y") None)
    as (Hdesc & Hties & _).
  split; [exact (Hdesc Hnan)|].
  rewrite (Hties (Int 5)). reflexivity.
Defined.

(** ** What a bucket holds *)

Lemma groupBy_bucket_sums (key : BlacklistRecord.t -> string)
  (rs : list BlacklistRecord.t) (k : string) (b : Bucket.t) :
  In (k, b) (JsMap.entries (groupBy key bucketUpd rs JsMap.empty)) ->
  bucket_sums b (with_key key k rs).
Proof.
  intros Hin. unfold bucket_sums.
  repeat split;
    match goal with
    | |- ?f b = sum_num (map ?c _) =>
        apply (groupBy_entry key bucketUpd f c); [|exact Hin]
    end;
    intros [v|] r; reflexivity.
Qed.

Lemma groupBy_key_occurs {V : Type} (key : BlacklistRecord.t -> string)
  (upd : option V -> BlacklistRecord.t -> V)
  (rs : list BlacklistRecord.t) (k : string) :
  In k (JsMap.keys (groupBy key upd rs JsMap.empty)) <->
  exists r, In r rs /\ key r = k.
Proof.
  rewrite groupBy_keys, first_seen_In, in_map_iff.
  split; intros [r [H1 H2]]; exists r; auto.
Qed.

Lemma In_entries_keys {V : Type} (k : string) (v : V) (m : JsMap.t V) :
  In (k, v) (JsMap.entries m) -> In k (JsMap.keys m).
Proof.
  intros Hin. change k with (fst (k, v)). now apply in_map.
Qed.

Lemma keys_In_entries {V : Type} (k : string) (m : JsMap.t V) :
  In k (JsMap.keys m) -> exists v, In (k, v) (JsMap.entries m).
Proof.
  unfold JsMap.keys, JsMap.entries. rewrite in_map_iff.
  intros [[k' v] [Hk Hin]]. simpl in Hk. subst. eauto.
Qed.

(** A row of the province reduction holds the sums of the records of its
    province that pass the filter, and there is such a record. *)
Lemma province_row_spec records g row :
  In row (calculateProvinceStats records g) ->
  province_row_sums row
    (with_key provinceKey (ProvinceStats.province row)
       (provinceFilteredRecords records g))
  /\ exists r, In r (provinceFilteredRecords records g)
               /\ provinceKey r = ProvinceStats.province row.
Proof.
  intros Hrow. apply In_calculateProvinceStats in Hrow.
  destruct Hrow as [k [b [Hin ->]]]. rewrite provinceMap_groupBy in Hin.
  split.
  - exact (groupBy_bucket_sums provinceKey _ k b Hin).
  - apply (groupBy_key_occurs provinceKey bucketUpd).
    exact (In_entries_keys _ _ _ Hin).
Qed.

(** Every province of a record that passes the filter has a row, and no
    province has two. *)
Lemma province_row_exists records g r :
  In r (provinceFilteredRecords records g) ->
  exists row, In row (calculateProvinceStats records g)
              /\ ProvinceStats.province row = provinceKey r.
Proof.
  intros Hr.
  assert (Hk : In (provinceKey r)
                 (JsMap.keys (provinceMap (provinceFilteredRecords records g)))).
  { rewrite provinceMap_groupBy. apply groupBy_key_occurs. eauto. }
  apply keys_In_entries in Hk. destruct Hk as [b Hb].
  exists (provinceRow (provinceKey r, b)). split; [|reflexivity].
  apply In_calculateProvinceStats. eauto.
Qed.

Lemma province_rows_NoDup records g :
  NoDup (map ProvinceStats.province (calculateProvinceStats records g)).
Proof.
  unfold calculateProvinceStats.
  eapply Permutation_NoDup.
  - apply Permutation_map, Permutation_sym.
    apply (sort_perm ProvinceStats.totalOutbound).
  - rewrite provinceMap_groupBy.
    rewrite (keyed_rows_in_key_order provinceKey provinceRow
               ProvinceStats.province) by reflexivity.
    apply first_seen_NoDup.
Qed.

Lemma provinceFilteredRecords_Some records g :
  g <> "" ->
  provinceFilteredRecords records (Some g)
  = filter (fun r => String.eqb (group r) g) records.
Proof.
  intros Hg. unfold provinceFilteredRecords. simpl.
  destruct (String.eqb_spec g ""); [contradiction | reflexivity].
Qed.

(** ** The group filter of the province reduction *)

(** C5, as the claim states it, fails when the group value is the empty
    string: the filter is skipped and the record of group "31" takes part. *)
Lemma C5_empty_group_is_no_filter :
  let records := [ sample_record "a" "bj" "" 5 1 0 0;
                   sample_record "a" "sh" "31" 7 2 0 0 ] in
  calculateProvinceStats records (Some "")
  <> calculateProvinceStats
       (filter (fun r => String.eqb (group r) "") records) None.
Proof.
  cbv zeta. intros H. vm_compute in H. discriminate H.
Qed.

(** C5, amended. For every group value [g] other than the empty string,
    [calculateProvinceStats records g] aggregates exactly the records whose
    group is [g]: it is the unfiltered reduction of those records, it has one
    row for each province (defaulted to the sentinel) of such a record and no
    other row, and each row holds the six counters added up, in the order of
    the input, over the records of group [g] and of its province.  With the
    empty string as group value no filter is applied. *)
Theorem C5_group_filter (records : list BlacklistRecord.t) (g : string) :
  (g <> "" ->
   let matching := filter (fun r => String.eqb (group r) g) records in
   calculateProvinceStats records (Some g)
   = calculateProvinceStats matching None
   /\ (forall row, In row (calculateProvinceStats records (Some g)) ->
         province_row_sums row
           (filter (fun r => String.eqb (group r) g
                             && String.eqb (provinceKey r)
                                  (ProvinceStats.province row)) records)
         /\ exists r, In r records /\ group r = g
                      /\ provinceKey r = ProvinceStats.province row)
   /\ (forall r, In r records -> group r = g ->
         exists row, In row (calculateProvinceStats records (Some g))
                     /\ ProvinceStats.province row = provinceKey r)
   /\ NoDup (map ProvinceStats.province
               (calculateProvinceStats records (Some g))))
  /\ calculateProvinceStats records (Some "")
     = calculateProvinceStats records None.
Proof.
  split; [|reflexivity].
  intros Hg. cbv zeta.
  pose proof (provinceFilteredRecords_Some records g Hg) as Hf.
  split; [|split; [|split]].
  - unfold calculateProvinceStats. now rewrite Hf.
  - intros row Hrow. apply province_row_spec in Hrow.
    rewrite Hf in Hrow. unfold with_key in Hrow.
    rewrite filter_filter_and in Hrow. destruct Hrow as [Hsums [r [Hr Hk]]].
    split; [exact Hsums|].
    apply filter_In in Hr. destruct Hr as [Hr Hgr].
    apply String.eqb_eq in Hgr. eauto.
  - intros r Hr Hgr. apply province_row_exists. rewrite Hf.
    apply filter_In. split; [assumption|]. now apply String.eqb_eq.
  - apply province_rows_NoDup.
Qed.

Lemma C5_group_filter_witness :
  let records := [ sample_record "a" "bj" "" 5 1 0 0;
                   sample_record "a" "sh" "31" 7 2 0 0 ] in
  "31" <> ""
  /\ calculateProvinceStats records (Some "31")
     = calculateProvinceStats [sample_record "a" "sh" "31" 7 2 0 0] None.
Proof.
  cbv zeta.
  assert (Hne : "31" <> "") by discriminate.
  split; [exact Hne|].
  exact (proj1 (proj1 (C5_group_filter
                         [ sample_record "a" "bj" "" 5 1 0 0;
                           sample_record "a" "sh" "31" 7 2 0 0 ] "31") Hne)).
Defined.

(** ** The key of the account-and-province reduction *)

(** C6, at the failing inputs.  A blank account and the account "未知" of
    one province get two rows, both labelled "未知", where the account
    reduction has one; and two records whose account and province differ
    share a bucket when the bar falls elsewhere in their key. *)
Theorem C6_account_key_not_defaulted :
  let blank := [ sample_record "" "bj" "31" 5 1 0 0;
                 sample_record unknown "bj" "31" 7 2 0 0 ] in
  let bar := [ sample_record "a|b" "c" "31" 5 1 0 0;
               sample_record "a" "b|c" "31" 7 2 0 0 ] in
  map (fun row => (AccountProvinceStats.account row,
                   AccountProvinceStats.province row,
                   AccountProvinceStats.totalOutbound row))
    (calculateAccountProvinceStats blank None)
  = [ (unknown, "bj", Int 7); (unknown, "bj", Int 5) ]
  /\ map (fun row => (AccountStats.account row,
                      AccountStats.totalOutbound row))
       (calculateAccountStats blank)
     = [ (unknown, Int 12) ]
  /\ map (fun row => (AccountProvinceStats.account row,
                      AccountProvinceStats.province row,
                      AccountProvinceStats.totalOutbound row))
       (calculateAccountProvinceStats bar None)
     = [ ("a", "b|c", Int 12) ].
Proof.
  cbv zeta. repeat split; vm_compute; reflexivity.
Qed.

(** ** The counters of a parsed record *)

Lemma digit_value_range (R : Z) (c : ascii) (d : Z) :
  digit_value R c = Some d -> 0 <= d < R.
Proof.
  unfold digit_value. generalize (code c) as n. intros n.
  destruct ((48 <=? n) && (n <=? 57)) eqn:E1;
    [|destruct ((97 <=? n) && (n <=? 122)) eqn:E2;
      [|destruct ((65 <=? n) && (n <=? 90)) eqn:E3]];
    try discriminate;
    match goal with
    | |- (if ?x <? R then _ else _) = _ -> _ =>
        destruct (Z.ltb_spec x R); [intros [= <-] | discriminate]
    end;
    match goal with
    | H : (_ && _) = true |- _ => apply andb_true_iff in H; destruct H
    end; lia.
Qed.

Lemma parse_digits_nonneg (R : Z) (s : string) (acc : option Z) (n : Z) :
  0 < R ->
  (forall a, acc = Some a -> 0 <= a) ->
  parse_digits R s acc = Some n -> 0 <= n.
Proof.
  intros HR. revert acc. induction s as [|c s IH]; intros acc Hacc; simpl.
  - apply Hacc.
  - destruct (digit_value R c) as [d|] eqn:Ed; [|apply Hacc].
    apply IH. intros a [= <-].
    apply digit_value_range in Ed.
    assert (0 <= or_default acc 0).
    { destruct acc as [a0|]; simpl; [now apply Hacc | lia]. }
    nia.
Qed.

Lemma strip_prefix_radix (s : string) : 0 < fst (strip_prefix s).
Proof.
  unfold strip_prefix. destruct s as [|c1 [|c2 rest]]; simpl; try lia.
  destruct (Ascii.eqb c1 "0" && (Ascii.eqb c2 "x" || Ascii.eqb c2 "X"));
    simpl; lia.
Qed.

Lemma to_double_nonneg (z : Z) :
  0 <= z -> num_leb (Int 0) (to_double z) = true.
Proof.
  intros Hz. unfold to_double.
  pose proof (round_nonneg (Z.abs z) (Z.abs_nonneg z)) as Hm.
  destruct (_ <=? _); cbn [num_leb].
  - destruct (Z.ltb_spec z 0); [lia | reflexivity].
  - apply Z.leb_le, Z.mul_nonneg_nonneg; [|assumption].
    now apply Z.sgn_nonneg.
Qed.

Lemma strip_sign_plus (t : string) :
  match t with String c _ => Ascii.eqb c "-" | EmptyString => false end
  = false ->
  fst (strip_sign t) = 1.
Proof.
  destruct t as [|c rest]; simpl; [reflexivity|]. intros ->.
  destruct (Ascii.eqb c "+"); reflexivity.
Qed.

(** Without a minus sign [parseInt] returns [NaN] or a number that is not
    negative. *)
Lemma parseInt_nonneg (s : string) :
  starts_with_minus s = false ->
  parseInt s = Nan \/ num_leb (Int 0) (parseInt s) = true.
Proof.
  unfold starts_with_minus, parseInt.
  intros Hminus. pose proof (strip_sign_plus _ Hminus) as Hsign.
  destruct (strip_sign (trim_start s)) as [sign unsigned]. simpl in Hsign.
  subst sign.
  pose proof (strip_prefix_radix unsigned) as HR.
  destruct (strip_prefix unsigned) as [R digits]. simpl in HR.
  destruct (parse_digits R digits None) as [m|] eqn:Em; [|now left].
  right. apply to_double_nonneg.
  assert (0 <= m).
  { eapply parse_digits_nonneg; [exact HR | | exact Em]. intros a [=]. }
  lia.
Qed.

Lemma digit_value_decimal (c : ascii) :
  digit_value 10 c = if is_digit c then Some (code c - 48) else None.
Proof.
  unfold digit_value, is_digit. generalize (code c) as n. intros n.
  destruct ((48 <=? n) && (n <=? 57)) eqn:E1.
  - apply andb_true_iff in E1. destruct E1 as [H1 H2].
    apply Z.leb_le in H1, H2.
    destruct (Z.ltb_spec (n - 48) 10); [reflexivity | lia].
  - destruct ((97 <=? n) && (n <=? 122)) eqn:E2.
    + apply andb_true_iff in E2. destruct E2 as [H1 _]. apply Z.leb_le in H1.
      destruct (Z.ltb_spec (n - 87) 10); [lia | reflexivity].
    + destruct ((65 <=? n) && (n <=? 90)) eqn:E3; [|reflexivity].
      apply andb_true_iff in E3. destruct E3 as [H1 _]. apply Z.leb_le in H1.
      destruct (Z.ltb_spec (n - 55) 10); [lia | reflexivity].
Qed.

Lemma parseInt_no_digit (s : string) :
  leading_digit s = false -> parseInt s = Nan.
Proof.
  unfold leading_digit, parseInt.
  destruct (strip_sign (trim_start s)) as [sign unsigned]. simpl.
  destruct unsigned as [|c rest]; [reflexivity|].
  intros Hdigit.
  assert (Hzero : Ascii.eqb c "0" = false).
  { destruct (Ascii.eqb_spec c "0") as [->|]; [|reflexivity].
    vm_compute in Hdigit. discriminate. }
  assert (Hprefix : strip_prefix (String c rest) = (10, String c rest)).
  { unfold strip_prefix. destruct rest; [reflexivity|].
    now rewrite Hzero. }
  rewrite Hprefix. simpl. now rewrite digit_value_decimal, Hdigit.
Qed.

Lemma parse_digits_leading (s : string) (a : Z) :
  parse_digits 10 s (Some a) = Some (digits_value (leading_digits s) a).
Proof.
  revert a. induction s as [|c s IH]; intros a; simpl; [reflexivity|].
  rewrite digit_value_decimal. destruct (is_digit c); simpl; [|reflexivity].
  apply IH.
Qed.

Lemma hex_prefix_false (unsigned : string) :
  (fst (strip_prefix unsigned) =? 16) = false ->
  strip_prefix unsigned = (10, unsigned).
Proof.
  unfold strip_prefix. destruct unsigned as [|c1 [|c2 rest]]; try reflexivity.
  destruct (Ascii.eqb c1 "0" && (Ascii.eqb c2 "x" || Ascii.eqb c2 "X"));
    [discriminate | reflexivity].
Qed.

(** A text that starts with a decimal digit, after white space and a sign,
    and has no hexadecimal prefix is read as the double for the value of its
    leading decimal digits. *)
Lemma parseInt_decimal_prefix (s : string) :
  leading_digit s = true -> hex_prefix s = false ->
  parseInt s = to_double (decimal_prefix_value s).
Proof.
  unfold leading_digit, hex_prefix, parseInt, decimal_prefix_value.
  destruct (strip_sign (trim_start s)) as [sign unsigned]. simpl.
  intros Hdigit Hhex. rewrite (hex_prefix_false _ Hhex).
  destruct unsigned as [|c rest]; [discriminate|].
  cbn [parse_digits leading_digits digits_value].
  rewrite digit_value_decimal, Hdigit. cbn [or_default].
  rewrite parse_digits_leading. reflexivity.
Qed.

Lemma or_num_not_nan (x : num) : or_num x (Int 0) <> Nan.
Proof.
  unfold or_num. destruct x as [z|s|]; simpl; try discriminate.
  destruct (z =? 0); discriminate.
Qed.

Lemma or_num_to_double (z : Z) : or_num (to_double z) (Int 0) = to_double z.
Proof.
  unfold or_num. pose proof (to_double_not_nan z) as Hnan.
  destruct (to_double z) as [w|s|]; simpl; [|reflexivity|contradiction].
  destruct (Z.eqb_spec w 0) as [->|]; reflexivity.
Qed.

Lemma or_num_nonneg (x : num) :
  x = Nan \/ num_leb (Int 0) x = true -> num_leb (Int 0) (or_num x (Int 0)) = true.
Proof.
  unfold or_num. intros [->|H]; [reflexivity|].
  destruct (num_truthy x); [assumption | reflexivity].
Qed.

Lemma or_num_parseInt (cell : option string) :
  counter_of_cell (or_num (parseInt (to_string cell)) (Int 0)) cell.
Proof.
  unfold counter_of_cell. split; [|split; [|split; [|split]]].
  - apply or_num_not_nan.
  - intros ->. reflexivity.
  - intros H. now rewrite (parseInt_no_digit _ H).
  - intros H. apply or_num_nonneg, parseInt_nonneg, H.
  - intros text -> Hdigit Hhex. simpl.
    rewrite (parseInt_decimal_prefix _ Hdigit Hhex), or_num_to_double.
    split; [reflexivity | apply to_double_exact].
Qed.

(** C7, as the claim states it, fails three times.  A cell with a minus
    sign gives a negative counter.  A text that is not a number gives the
    value of its numeric prefix: "12abc" gives 12, "0x1A" gives 26 and "1e3"
    gives 1.  And a cell of 309 digits gives [Infinity], which is not an
    integer. *)
Lemma C7_counters_not_natural :
  ~ (forall r, In r (parseCSVData sample_Papa_parse sample_csv) ->
               num_leb (Int 0) (total_outbound_count r) = true)
  /\ map (fun r => (total_outbound_count r, black_outbound_count r))
       (parseCSVData sample_Papa_parse sample_csv)
     = [ (Int (-5), Int 3) ]
  /\ map (fun r => (total_outbound_count r, black_outbound_count r))
       (parseCSVData sample_Papa_parse odd_csv)
     = [ (Int 12, Int 26); (Inf false, Int 1) ].
Proof.
  split; [|split].
  - intros H. specialize (H _ (or_introl eq_refl)). vm_compute in H.
    discriminate H.
  - vm_compute. reflexivity.
  - vm_compute. reflexivity.
Qed.

(** C7, amended. [parseCSVData] is total, and every counter of every record
    it returns is read from the cell of its column in one row of the parsed
    data, and is never [NaN].  It is zero when the cell is absent and when
    its text has no decimal digit after its leading white space and sign.  It
    is not negative unless the text has a minus sign after its leading white
    space.  When the text has a decimal digit there, and no hexadecimal
    prefix, the counter is the double for the integer that the sign and the
    leading decimal digits denote, whatever follows them: that integer itself
    when its magnitude is below 2^53. *)
Theorem C7_counters (Papa_parse : string -> ParseResult.t) (csvText : string)
  (r : BlacklistRecord.t) :
  In r (parseCSVData Papa_parse csvText) ->
  exists rows row,
    ParseResult.data (Papa_parse csvText) = Some rows
    /\ In row rows
    /\ forall counter column,
         In (counter, column) counter_columns ->
         counter_of_cell (counter r) (column row).
Proof.
  unfold parseCSVData.
  destruct (ParseResult.data (Papa_parse csvText)) as [rows|]; [|intros []].
  destruct (0 <? _); [intros []|].
  rewrite in_map_iff. intros [row [<- Hrow]].
  exists rows, row. split; [reflexivity|]. split; [assumption|].
  intros counter column Hin. simpl in Hin.
  repeat (destruct Hin as [[= <- <-]|Hin]; [apply or_num_parseInt|]).
  destruct Hin.
Qed.

Lemma C7_counters_witness :
  let r := {| dt := ""; account := unknown; province := unknown; group := "";
              total_outbound_count := Int 12;
              black_outbound_count := Int 26;
              total_pickup_count := Int 0; black_pickup_count := Int 0;
              total_pay_count := Int 0; black_pay_count := Int 0;
              total_complain_count := Int 0;
              black_complain_count := Int 0 |} in
  In r (parseCSVData sample_Papa_parse odd_csv)
  /\ exists rows row,
       ParseResult.data (sample_Papa_parse odd_csv) = Some rows
       /\ In row rows
       /\ counter_of_cell (Int 12) (CSVRow.total_outbound_count row).
Proof.
  cbv zeta.
  assert (Hin : In {| dt := ""; account := unknown; province := unknown;
                      group := "";
                      total_outbound_count := Int 12;
                      black_outbound_count := Int 26;
                      total_pickup_count := Int 0;
                      black_pickup_count := Int 0;
                      total_pay_count := Int 0; black_pay_count := Int 0;
                      total_complain_count := Int 0;
                      black_complain_count := Int 0 |}
                   (parseCSVData sample_Papa_parse odd_csv)).
  { left. vm_compute. reflexivity. }
  split; [exact Hin|].
  destruct (C7_counters sample_Papa_parse odd_csv _ Hin)
    as [rows [row [Hdata [Hrow Hcells]]]].
  exists rows, row. split; [exact Hdata|]. split; [exact Hrow|].
  apply (Hcells total_outbound_count CSVRow.total_outbound_count).
  left. reflexivity.
Defined.

(** ** Rate bounds *)



(** The pair of a black counter [b] and a total counter [t]. *)
Section Pair.
Variables b t : BlacklistRecord.t -> num.




End Pair.







(** ** Zero denominators *)




Lemma group_rows_NoDup records :
  NoDup (map GroupStats.group (calculateGroupStats records)).
Proof.
  unfold calculateGroupStats. rewrite groupMap_groupBy.
  rewrite (keyed_rows_in_key_order group groupRow GroupStats.group)
    by reflexivity.
  apply first_seen_NoDup.
Qed.

Lemma account_rows_NoDup records :
  NoDup (map AccountStats.account (calculateAccountStats records)).
Proof.
  unfold calculateAccountStats.
  eapply Permutation_NoDup.
  - apply Permutation_map, Permutation_sym.
    apply (sort_perm AccountStats.totalOutbound).
  - rewrite accountMap_groupBy.
    rewrite (keyed_rows_in_key_order accountKey accountRow
               AccountStats.account) by reflexivity.
    apply first_seen_NoDup.
Qed.



(** ** The batch orchestrator *)

Section Batch.
Variable Papa_parse : string -> ParseResult.t.
Implicit Types (files : list UploadedFile.t) (st : AppState.t).

Lemma batchResults_from files (acc : list BatchFileResult.t) :
  fold_left
    (fun results file =>
       let records := parseCSVData Papa_parse (UploadedFile.content file) in
       if (0 <? Z.of_nat (List.length records))
       then
         let stats := calculateOverallStats records in
         (results ++ [ {| BatchFileResult.fileName :=
                             strip_csv (UploadedFile.name file);
                           BatchFileResult.stats := stats;
                           BatchFileResult.rawData := records |} ])%list
       else results)
    files acc
  = (acc
     ++ map (fun f =>
               batchFileResult f
                 (parseCSVData Papa_parse (UploadedFile.content f)))
          (filter (fun f =>
                     negb (is_empty
                             (parseCSVData Papa_parse
                                (UploadedFile.content f)))) files))%list.
Proof.
  revert acc. induction files as [|f files IH]; intros acc; simpl.
  - now rewrite app_nil_r.
  - rewrite IH.
    destruct (parseCSVData Papa_parse (UploadedFile.content f)) as [|r rs]
      eqn:E; simpl; [reflexivity|].
    rewrite E, <- app_assoc. reflexivity.
Qed.

Lemma batchResults_spec files :
  batchResults Papa_parse files
  = map (fun f =>
           batchFileResult f
             (parseCSVData Papa_parse (UploadedFile.content f)))
      (filter (fun f =>
                 negb (is_empty
                         (parseCSVData Papa_parse (UploadedFile.content f))))
         files).
Proof.
  unfold batchResults. now rewrite batchResults_from.
Qed.

Lemma batchResults_nil files :
  batchResults Papa_parse files = [] <->
  Forall (fun f => parseCSVData Papa_parse (UploadedFile.content f) = [])
    files.
Proof.
  rewrite batchResults_spec.
  induction files as [|f files IH]; simpl.
  - split; auto.
  - destruct (parseCSVData Papa_parse (UploadedFile.content f)) as [|r rs]
      eqn:E; simpl.
    + rewrite IH. split.
      * intros H. constructor; assumption.
      * intros H. now inversion H.
    + split; [discriminate|].
      intros H. inversion H; subst. congruence.
Qed.
End Batch.

(** C10. [handleUpload] is called by the upload page only, and never with
    an empty list of files.  For every such list in batch mode, the batch
    holds one result for each file whose content parses into at least one
    record, in input order: the file name, which is the name of the file less
    a final ".csv", the overall statistics of the records and the records.
    The files that parse to no record are dropped.  The alert is shown, and
    the state left unchanged, if and only if every file parses to no record;
    otherwise the results become the batch data and no alert is shown. *)
Theorem C10_batch (Papa_parse : string -> ParseResult.t)
  (files : list UploadedFile.t) (st : AppState.t) :
  files <> [] ->
  let records f := parseCSVData Papa_parse (UploadedFile.content f) in
  let results :=
    map (fun f => batchFileResult f (records f))
      (filter (fun f => negb (is_empty (records f))) files) in
  batchResults Papa_parse files = results
  /\ (handleUpload Papa_parse files true st = (st, ["没有有效的 CSV 数据"])
      <-> Forall (fun f => records f = []) files)
  /\ (~ Forall (fun f => records f = []) files ->
      handleUpload Papa_parse files true st
      = ({| AppState.data := None; AppState.batchData := Some results |}, [])).
Proof.
  intros Hne. cbv beta zeta.
  rewrite <- batchResults_spec, <- batchResults_nil.
  split; [reflexivity|].
  destruct files as [|f files]; [contradiction|].
  unfold handleUpload.
  destruct (batchResults Papa_parse (f :: files)) as [|x xs]; simpl.
  - split; tauto.
  - split; [|reflexivity].
    split; [intros [=] | discriminate].
Qed.

Lemma C10_batch_witness :
  let files := [ {| UploadedFile.name := "north.csv";
                    UploadedFile.content := sample_csv |};
                 {| UploadedFile.name := "empty.csv";
                    UploadedFile.content := "" |} ] in
  files <> []
  /\ map BatchFileResult.fileName (batchResults sample_Papa_parse files)
     = ["north"].
Proof.
  cbv zeta.
  assert (Hne : [ {| UploadedFile.name := "north.csv";
                     UploadedFile.content := sample_csv |};
                  {| UploadedFile.name := "empty.csv";
                     UploadedFile.content := "" |} ] <> []) by discriminate.
  split; [exact Hne|].
  rewrite (proj1 (C10_batch sample_Papa_parse _ initial_state Hne)).
  reflexivity.
Defined.

(** ** Sets of keys *)

Lemma JsSet_fold_from (key : BlacklistRecord.t -> string)
  (rs : list BlacklistRecord.t) (s : JsSet.t) :
  fold_left (fun s r => JsSet.add (key r) s) rs s
  = (s ++ filter (fresh s) (first_seen (map key rs)))%list.
Proof.
  revert s. induction rs as [|r rs IH]; intros s; simpl.
  - now rewrite app_nil_r.
  - rewrite IH. unfold JsSet.add, JsSet.has.
    destruct (existsb (String.eqb (key r)) s) eqn:E; simpl.
    + assert (Hf : fresh s (key r) = false) by (unfold fresh; now rewrite E).
      rewrite Hf, filter_filter_and. f_equal. apply filter_ext. intros k.
      destruct (String.eqb_spec k (key r)) as [->|Hk]; simpl; auto.
    + assert (Hf : fresh s (key r) = true) by (unfold fresh; now rewrite E).
      rewrite Hf, filter_filter_and, <- app_assoc. simpl.
      do 2 f_equal. apply filter_ext. intros k. unfold fresh.
      rewrite existsb_app. simpl. rewrite orb_false_r, negb_orb.
      apply andb_comm.
Qed.

(** The set built from the keys of the records lists them first seen
    first. *)
Lemma JsSet_fold (key : BlacklistRecord.t -> string)
  (rs : list BlacklistRecord.t) :
  fold_left (fun s r => JsSet.add (key r) s) rs JsSet.empty
  = first_seen (map key rs).
Proof.
  rewrite JsSet_fold_from. simpl.
  rewrite <- (filter_ext (fun _ => true)) by reflexivity.
  induction (first_seen (map key rs)) as [|k l IH]; simpl; congruence.
Qed.

Lemma JsSet_fold_if (key : BlacklistRecord.t -> string)
  (p : BlacklistRecord.t -> bool) (rs : list BlacklistRecord.t) (s : JsSet.t) :
  fold_left (fun s r => if p r then JsSet.add (key r) s else s) rs s
  = fold_left (fun s r => JsSet.add (key r) s) (filter p rs) s.
Proof.
  revert s. induction rs as [|r rs IH]; intros s; simpl; [reflexivity|].
  destruct (p r); simpl; apply IH.
Qed.

(** ** The order of strings *)

Lemma code_range (c : ascii) : 0 <= code c < 256.
Proof.
  unfold code. pose proof (N_ascii_bounded c) as H. lia.
Qed.

Lemma code_inj (x y : ascii) : code x = code y -> x = y.
Proof.
  unfold code. intros H. apply N2Z.inj in H.
  rewrite <- (ascii_N_embedding x), <- (ascii_N_embedding y). now f_equal.
Qed.

Lemma unit_rank_inj (x y : ascii) : unit_rank x = unit_rank y -> x = y.
Proof.
  unfold unit_rank. intros H. apply code_inj.
  pose proof (code_range x). pose proof (code_range y).
  destruct ((238 <=? code x) && (code x <=? 239)) eqn:E1;
  destruct ((254 <=? code x) && (code x <=? 255)) eqn:E2;
  destruct ((238 <=? code y) && (code y <=? 239)) eqn:E3;
  destruct ((254 <=? code y) && (code y <=? 255)) eqn:E4;
  rewrite ?andb_true_iff, ?andb_false_iff, ?Z.leb_le, ?Z.leb_gt in *; lia.
Qed.

Lemma string_lt_irrefl (a : string) : string_lt a a = false.
Proof.
  induction a as [|x a IH]; simpl; [reflexivity|].
  now rewrite Z.ltb_irrefl.
Qed.

Lemma string_lt_trans (a b c : string) :
  string_lt a b = true -> string_lt b c = true -> string_lt a c = true.
Proof.
  revert b c. induction a as [|x a IH]; intros [|y b] [|z c]; simpl;
    try discriminate; try reflexivity.
  destruct (Z.ltb_spec (unit_rank x) (unit_rank y)),
           (Z.ltb_spec (unit_rank y) (unit_rank x)),
           (Z.ltb_spec (unit_rank y) (unit_rank z)),
           (Z.ltb_spec (unit_rank z) (unit_rank y)),
           (Z.ltb_spec (unit_rank x) (unit_rank z)),
           (Z.ltb_spec (unit_rank z) (unit_rank x));
    try discriminate; try reflexivity; try lia.
  apply IH.
Qed.

Lemma string_lt_total (a b : string) :
  string_lt a b = false -> string_lt b a = false -> a = b.
Proof.
  revert b. induction a as [|x a IH]; intros [|y b]; simpl;
    try discriminate; try reflexivity.
  destruct (Z.ltb_spec (unit_rank x) (unit_rank y)),
           (Z.ltb_spec (unit_rank y) (unit_rank x));
    try discriminate; try lia.
  intros H1 H2. f_equal.
  - apply unit_rank_inj. lia.
  - now apply IH.
Qed.

Lemma string_lt_asym (a b : string) :
  string_lt a b = true -> string_lt b a = false.
Proof.
  intros H. destruct (string_lt b a) eqn:E; [|reflexivity].
  pose proof (string_lt_trans _ _ _ H E) as Haa.
  now rewrite string_lt_irrefl in Haa.
Qed.

Lemma defaultCompare_le (a b : string) :
  defaultCompare a b <= 0 <-> string_lt b a = false.
Proof.
  unfold defaultCompare.
  destruct (string_lt a b) eqn:E1.
  - split; [intros _; now apply string_lt_asym | lia].
  - destruct (string_lt b a); split; try lia; try discriminate; auto.
Qed.

(** Sorting distinct strings with the default comparator puts them in
    strictly ascending order. *)
Lemma sort_defaultCompare_sorted (l : list string) :
  NoDup l ->
  StronglySorted (fun a b => string_lt a b = true) (sort defaultCompare l).
Proof.
  intros Hnd.
  assert (Hle : StronglySorted (fun a b => string_lt b a = false)
                  (sort defaultCompare l)).
  { apply Sorted_StronglySorted.
    - intros a b c Hab Hbc.
      destruct (string_lt c a) eqn:Eca; [|reflexivity].
      destruct (string_lt a b) eqn:Eab.
      + pose proof (string_lt_trans _ _ _ Eca Eab). congruence.
      + pose proof (string_lt_total _ _ Eab Hab). subst. congruence.
    - assert (Htotal : forall a b,
                 defaultCompare a b > 0 -> defaultCompare b a <= 0).
      { intros a b. unfold defaultCompare.
        destruct (string_lt a b) eqn:E1; [lia|].
        destruct (string_lt b a) eqn:E2; lia. }
      pose proof (sort_sorted_any defaultCompare Htotal l) as Hs.
      induction Hs as [|a l0 Hs IH Hhd]; constructor; [exact IH|].
      destruct Hhd; constructor. now apply defaultCompare_le. }
  apply (sort_NoDup_any defaultCompare) in Hnd.
  induction Hle as [|a l0 Hs IH Hall]; constructor.
  - apply IH. now inversion Hnd.
  - inversion Hnd as [|? ? Hnot Hnd']; subst.
    rewrite Forall_forall in *. intros b Hb.
    destruct (string_lt a b) eqn:E; [reflexivity|].
    pose proof (string_lt_total _ _ E (Hall b Hb)). subst. contradiction.
Qed.

(** ** The distinct-value helpers *)

Lemma NoDup_two_distinct (l : list string) :
  NoDup l ->
  ((1 < List.length l)%nat <-> exists a b, In a l /\ In b l /\ a <> b).
Proof.
  intros Hnd. split.
  - destruct l as [|a [|b l]]; simpl; try lia. intros _.
    exists a, b. repeat split; auto.
    inversion Hnd as [|? ? Hnot _]; subst. intros ->. apply Hnot. now left.
  - intros [a [b [Ha [Hb Hab]]]].
    destruct l as [|x [|y l]]; simpl in *; try lia; try contradiction.
    destruct Ha as [<-|[]], Hb as [<-|[]]. now contradiction Hab.
Qed.

(** The warning predicate holds exactly when two records carry different
    group labels that both consist of decimal digits only. *)
Theorem hasMultipleNumericGroups_iff (records : list BlacklistRecord.t) :
  hasMultipleNumericGroups records = true <->
  exists r1 r2,
    In r1 records /\ In r2 records
    /\ test_digits (group r1) = true /\ test_digits (group r2) = true
    /\ group r1 <> group r2.
Proof.
  unfold hasMultipleNumericGroups, JsSet.size.
  rewrite (JsSet_fold_if group (fun r => test_digits (group r))), JsSet_fold.
  rewrite Z.gtb_ltb, Z.ltb_lt.
  change 1 with (Z.of_nat 1). rewrite <- Nat2Z.inj_lt.
  rewrite (NoDup_two_distinct _ (first_seen_NoDup _)).
  split.
  - intros [a [b [Ha [Hb Hab]]]].
    rewrite first_seen_In, in_map_iff in Ha, Hb.
    destruct Ha as [r1 [<- H1]], Hb as [r2 [<- H2]].
    apply filter_In in H1, H2. exists r1, r2. tauto.
  - intros [r1 [r2 (H1 & H2 & D1 & D2 & Hne)]].
    exists (group r1), (group r2).
    rewrite !first_seen_In. repeat split; [| |assumption];
      apply in_map, filter_In; auto.
Qed.

Lemma getUniqueGroups_perm (localeCompare : string -> string -> Z)
  (records : list BlacklistRecord.t) :
  Permutation (getUniqueGroups localeCompare records)
    (first_seen (map group records)).
Proof.
  unfold getUniqueGroups, JsSet.to_array. rewrite JsSet_fold.
  apply sort_perm_any.
Qed.

Lemma getUniqueGroups_members (localeCompare : string -> string -> Z)
  (records : list BlacklistRecord.t) :
  (forall g, In g (getUniqueGroups localeCompare records) <->
             exists r, In r records /\ group r = g)
  /\ NoDup (getUniqueGroups localeCompare records).
Proof.
  pose proof (getUniqueGroups_perm localeCompare records) as Hperm.
  split.
  - intros g. split.
    + intros Hin. apply (Permutation_in _ Hperm) in Hin.
      rewrite first_seen_In, in_map_iff in Hin.
      destruct Hin as [r [<- Hr]]. eauto.
    + intros [r [Hr <-]].
      apply (Permutation_in _ (Permutation_sym Hperm)).
      rewrite first_seen_In. now apply in_map.
  - apply (Permutation_NoDup (Permutation_sym Hperm)), first_seen_NoDup.
Qed.

(** [getUniqueGroups] returns every group label of the records, the empty
    one included, each exactly once. *)
Theorem getUniqueGroups_distinct (localeCompare : string -> string -> Z)
  (records : list BlacklistRecord.t) :
  (forall g, In g (getUniqueGroups localeCompare records) <->
             exists r, In r records /\ group r = g)
  /\ NoDup (getUniqueGroups localeCompare records).
Proof.
  exact (getUniqueGroups_members localeCompare records).
Qed.

(** When some record carries the not-triggered label, that label comes first
    in [getUniqueGroups], whatever the collation of the other labels. *)
Theorem getUniqueGroups_notTriggered_first
  (localeCompare : string -> string -> Z)
  (records : list BlacklistRecord.t) (r : BlacklistRecord.t) :
  In r records -> group r = notTriggered ->
  exists rest, getUniqueGroups localeCompare records = notTriggered :: rest.
Proof.
  intros Hr Hg.
  unfold getUniqueGroups, JsSet.to_array. rewrite JsSet_fold.
  assert (Hin : In notTriggered (first_seen (map group records))).
  { rewrite first_seen_In, <- Hg. now apply in_map. }
  revert Hin. generalize (first_seen (map group records)) as l.
  induction l as [|x l IH]; [intros []|].
  intros Hin. cbn [sort].
  destruct (String.eqb_spec x notTriggered) as [->|Hx].
  - destruct (sort _ l) as [|y l']; cbn [insert]; [eauto|].
    rewrite String.eqb_refl. cbn. eauto.
  - destruct Hin as [Heq|Hin]; [contradiction|].
    destruct (IH Hin) as [rest ->]. cbn [insert].
    destruct (String.eqb_spec x notTriggered) as [|_]; [contradiction|].
    rewrite String.eqb_refl. cbn. eauto.
Qed.

Lemma getUniqueGroups_notTriggered_first_witness :
  let records := [ sample_record "a" "bj" "31" 1000 100 0 0;
                   sample_record "a" "bj" notTriggered 2000 0 0 0 ] in
  In (sample_record "a" "bj" notTriggered 2000 0 0 0) records
  /\ exists rest,
       getUniqueGroups (fun _ _ => 0) records = notTriggered :: rest.
Proof.
  cbv zeta.
  assert (Hin : In (sample_record "a" "bj" notTriggered 2000 0 0 0)
                  [ sample_record "a" "bj" "31" 1000 100 0 0;
                    sample_record "a" "bj" notTriggered 2000 0 0 0 ]).
  { right. left. reflexivity. }
  split; [exact Hin|].
  exact (getUniqueGroups_notTriggered_first (fun _ _ => 0) _ _ Hin eq_refl).
Defined.

Lemma calculateGroupStats_groups (records : list BlacklistRecord.t) :
  map GroupStats.group (calculateGroupStats records)
  = first_seen (map group records).
Proof.
  unfold calculateGroupStats. rewrite groupMap_groupBy.
  apply (keyed_rows_in_key_order group groupRow GroupStats.group).
  reflexivity.
Qed.

(** The group reduction returns one row for each distinct group label, in
    the order in which the labels are first seen, and [getUniqueGroups] lists
    the labels of these rows in another order. *)
Theorem calculateGroupStats_first_seen (localeCompare : string -> string -> Z)
  (records : list BlacklistRecord.t) :
  map GroupStats.group (calculateGroupStats records)
  = first_seen (map group records)
  /\ NoDup (map GroupStats.group (calculateGroupStats records))
  /\ Permutation (getUniqueGroups localeCompare records)
       (map GroupStats.group (calculateGroupStats records)).
Proof.
  rewrite calculateGroupStats_groups. split; [reflexivity|].
  split; [apply first_seen_NoDup | apply getUniqueGroups_perm].
Qed.

Lemma or_str_unknown_nonempty (s : string) : or_str s unknown <> "".
Proof.
  unfold or_str. destruct (String.eqb_spec s ""); [discriminate | assumption].
Qed.

Lemma sorted_keys_spec (key : BlacklistRecord.t -> string)
  (records : list BlacklistRecord.t) :
  let result :=
    sort defaultCompare
      (JsSet.to_array
         (fold_left (fun s r => JsSet.add (key r) s) records JsSet.empty)) in
  (forall k, In k result <-> exists r, In r records /\ key r = k)
  /\ StronglySorted (fun a b => string_lt a b = true) result
  /\ Permutation result (first_seen (map key records)).
Proof.
  cbv zeta. unfold JsSet.to_array. rewrite JsSet_fold.
  split; [|split].
  - intros k. rewrite sort_In_any, first_seen_In, in_map_iff.
    split; intros [r [H1 H2]]; exists r; auto.
  - apply sort_defaultCompare_sorted, first_seen_NoDup.
  - apply sort_perm_any.
Qed.

(** [getUniqueProvinces] and [getUniqueAccounts] return the provinces and
    the accounts of the records, a blank one replaced by the sentinel, in
    strictly ascending order of code units: every value once, and never the
    empty string. *)
Theorem getUniqueProvinces_getUniqueAccounts_sorted
  (records : list BlacklistRecord.t) :
  ((forall p, In p (getUniqueProvinces records) <->
              exists r, In r records /\ or_str (province r) unknown = p)
   /\ StronglySorted (fun a b => string_lt a b = true)
        (getUniqueProvinces records)
   /\ ~ In "" (getUniqueProvinces records))
  /\ ((forall a, In a (getUniqueAccounts records) <->
                 exists r, In r records /\ or_str (account r) unknown = a)
      /\ StronglySorted (fun a b => string_lt a b = true)
           (getUniqueAccounts records)
      /\ ~ In "" (getUniqueAccounts records)).
Proof.
  split.
  - destruct (sorted_keys_spec provinceKey records) as (Hin & Hs & _).
    split; [exact Hin|]. split; [exact Hs|].
    intros H. apply Hin in H. destruct H as [r [_ H]].
    exact (or_str_unknown_nonempty _ H).
  - destruct (sorted_keys_spec accountKey records) as (Hin & Hs & _).
    split; [exact Hin|]. split; [exact Hs|].
    intros H. apply Hin in H. destruct H as [r [_ H]].
    exact (or_str_unknown_nonempty _ H).
Qed.

(** Without a filter, the provinces of the rows of the province reduction
    are those of [getUniqueProvinces], and the accounts of the rows of the
    account reduction those of [getUniqueAccounts], each once. *)
Theorem rows_match_unique_values (records : list BlacklistRecord.t) :
  Permutation (getUniqueProvinces records)
    (map ProvinceStats.province (calculateProvinceStats records None))
  /\ Permutation (getUniqueAccounts records)
       (map AccountStats.account (calculateAccountStats records)).
Proof.
  split.
  - destruct (sorted_keys_spec provinceKey records) as (_ & _ & Hperm).
    rewrite Hperm. unfold calculateProvinceStats.
    rewrite (Permutation_map _ (sort_perm ProvinceStats.totalOutbound _)).
    rewrite provinceMap_groupBy.
    rewrite (keyed_rows_in_key_order provinceKey provinceRow
               ProvinceStats.province) by reflexivity.
    reflexivity.
  - destruct (sorted_keys_spec accountKey records) as (_ & _ & Hperm).
    rewrite Hperm. unfold calculateAccountStats.
    rewrite (Permutation_map _ (sort_perm AccountStats.totalOutbound _)).
    rewrite accountMap_groupBy.
    rewrite (keyed_rows_in_key_order accountKey accountRow
               AccountStats.account) by reflexivity.
    reflexivity.
Qed.

(** ** Every counter of the grouped reductions *)

Lemma bucketUpd_fields f c o r :
  In (f, c) bucket_fields ->
  f (bucketUpd o r) = (opt_field f o + c r)%js.
Proof.
  intros Hin. simpl in Hin.
  repeat (destruct Hin as [[= <- <-]|Hin]; [now destruct o|]).
  destruct Hin.
Qed.

Lemma accountProvinceUpd_fields f c o r :
  In (f, c) accountProvinceBucket_fields ->
  f (accountProvinceUpd o r) = (opt_field f o + c r)%js.
Proof.
  intros Hin. simpl in Hin.
  repeat (destruct Hin as [[= <- <-]|Hin]; [now destruct o|]).
  destruct Hin.
Qed.

Ltac pick_bucket_field :=
  first
    [ exists Bucket.totalOutbound; split; [simpl; tauto | reflexivity]
    | exists Bucket.blackOutbound; split; [simpl; tauto | reflexivity]
    | exists Bucket.totalPickup; split; [simpl; tauto | reflexivity]
    | exists Bucket.blackPickup; split; [simpl; tauto | reflexivity]
    | exists Bucket.totalPay; split; [simpl; tauto | reflexivity]
    | exists Bucket.blackPay; split; [simpl; tauto | reflexivity] ].

Ltac pick_accountProvinceBucket_field :=
  first
    [ exists AccountProvinceBucket.totalOutbound;
      split; [simpl; tauto | reflexivity]
    | exists AccountProvinceBucket.blackOutbound;
      split; [simpl; tauto | reflexivity]
    | exists AccountProvinceBucket.totalPickup;
      split; [simpl; tauto | reflexivity]
    | exists AccountProvinceBucket.blackPickup;
      split; [simpl; tauto | reflexivity]
    | exists AccountProvinceBucket.totalPay;
      split; [simpl; tauto | reflexivity]
    | exists AccountProvinceBucket.blackPay;
      split; [simpl; tauto | reflexivity] ].

Lemma group_fields_bucket f c :
  In (f, c) group_fields ->
  exists fb, In (fb, c) bucket_fields
             /\ forall k b, f (groupRow (k, b)) = fb b.
Proof.
  intros Hin. simpl in Hin.
  repeat (destruct Hin as [[= <- <-]|Hin]; [pick_bucket_field|]).
  destruct Hin.
Qed.

Lemma province_fields_bucket f c :
  In (f, c) province_fields ->
  exists fb, In (fb, c) bucket_fields
             /\ forall k b, f (provinceRow (k, b)) = fb b.
Proof.
  intros Hin. simpl in Hin.
  repeat (destruct Hin as [[= <- <-]|Hin]; [pick_bucket_field|]).
  destruct Hin.
Qed.

Lemma account_fields_bucket f c :
  In (f, c) account_fields ->
  exists fb, In (fb, c) bucket_fields
             /\ forall k b, f (accountRow (k, b)) = fb b.
Proof.
  intros Hin. simpl in Hin.
  repeat (destruct Hin as [[= <- <-]|Hin]; [pick_bucket_field|]).
  destruct Hin.
Qed.

Lemma accountProvince_fields_bucket f c :
  In (f, c) accountProvince_fields ->
  exists fb, In (fb, c) accountProvinceBucket_fields
             /\ forall b, f (accountProvinceRow b) = fb b.
Proof.
  intros Hin. simpl in Hin.
  repeat (destruct Hin as [[= <- <-]|Hin]; [pick_accountProvinceBucket_field|]).
  destruct Hin.
Qed.

(** For each of the six counters a grouped reduction sums, when the counter
    holds integers whose magnitudes add up to less than 2^53 over the records
    that take part (all of them, or those that pass the filter), the rows
    hold integers that add up, exactly and as doubles, to the exact sum of
    the counter over these records.  No record is dropped or counted twice in
    any counter. *)
Theorem grouped_rows_partition (records : list BlacklistRecord.t)
  (g a : option string) :
  (forall f c, In (f, c) group_fields -> safe c records ->
     add_up_to (map f (calculateGroupStats records))
       (Int (exact_sum c records)))
  /\ (forall f c, In (f, c) province_fields ->
        safe c (provinceFilteredRecords records g) ->
        add_up_to (map f (calculateProvinceStats records g))
          (Int (exact_sum c (provinceFilteredRecords records g))))
  /\ (forall f c, In (f, c) account_fields -> safe c records ->
        add_up_to (map f (calculateAccountStats records))
          (Int (exact_sum c records)))
  /\ (forall f c, In (f, c) accountProvince_fields ->
        safe c (accountFilteredRecords records a) ->
        add_up_to (map f (calculateAccountProvinceStats records a))
          (Int (exact_sum c (accountFilteredRecords records a)))).
Proof.
  split; [|split; [|split]]; intros f c Hin Hsafe.
  - destruct (group_fields_bucket f c Hin) as [fb [Hfb Hrow]].
    unfold calculateGroupStats.
    rewrite (map_row_field groupRow f fb _ Hrow), groupMap_groupBy.
    apply (groupBy_fields_add_up group bucketUpd fb c
             (fun o r => bucketUpd_fields fb c o r Hfb));
      [assumption | reflexivity].
  - destruct (province_fields_bucket f c Hin) as [fb [Hfb Hrow]].
    unfold calculateProvinceStats.
    apply (groupBy_fields_add_up provinceKey bucketUpd fb c
             (fun o r => bucketUpd_fields fb c o r Hfb)); [assumption|].
    rewrite (Permutation_map _ (sort_perm ProvinceStats.totalOutbound _)).
    now rewrite (map_row_field provinceRow f fb _ Hrow).
  - destruct (account_fields_bucket f c Hin) as [fb [Hfb Hrow]].
    unfold calculateAccountStats.
    apply (groupBy_fields_add_up accountKey bucketUpd fb c
             (fun o r => bucketUpd_fields fb c o r Hfb)); [assumption|].
    rewrite (Permutation_map _ (sort_perm AccountStats.totalOutbound _)).
    now rewrite (map_row_field accountRow f fb _ Hrow).
  - destruct (accountProvince_fields_bucket f c Hin) as [fb [Hfb Hrow]].
    unfold calculateAccountProvinceStats.
    apply (groupBy_fields_add_up accountProvinceKey accountProvinceUpd fb c
             (fun o r => accountProvinceUpd_fields fb c o r Hfb));
      [assumption|].
    rewrite (Permutation_map _
               (sort_perm AccountProvinceStats.totalOutbound _)).
    now rewrite map_map, (map_ext _ fb Hrow).
Qed.

Lemma grouped_rows_partition_witness :
  let records := [ sample_record "a" "bj" "31" 5 1 4 2;
                   sample_record "b" "sh" "31" 7 2 0 0 ] in
  In (GroupStats.blackPay, black_pay_count) group_fields
  /\ safe black_pay_count records
  /\ add_up_to (map GroupStats.blackPay (calculateGroupStats records))
       (Int 2).
Proof.
  cbv zeta.
  assert (Hin : In (GroupStats.blackPay, black_pay_count) group_fields).
  { simpl. tauto. }
  assert (Hsafe : safe black_pay_count
                    [ sample_record "a" "bj" "31" 5 1 4 2;
                      sample_record "b" "sh" "31" 7 2 0 0 ]).
  { split; [repeat constructor | reflexivity]. }
  split; [exact Hin|]. split; [exact Hsafe|].
  exact (proj1 (grouped_rows_partition _ None None) _ _ Hin Hsafe).
Defined.

(** ** What the parser guarantees *)

Lemma or_prop_unknown_nonempty (x : option string) : or_prop x unknown <> "".
Proof.
  destruct x as [s|]; simpl; [apply or_str_unknown_nonempty | discriminate].
Qed.

(** [parseCSVData] is all or nothing: one error of the CSV library discards
    every row, and without an error there is one record for each row.  No
    record it returns has a blank account or a blank province. *)
Theorem parseCSVData_all_or_nothing (Papa_parse : string -> ParseResult.t)
  (csvText : string) :
  (ParseResult.errors (Papa_parse csvText) <> [] ->
   parseCSVData Papa_parse csvText = [])
  /\ (forall rows,
        ParseResult.errors (Papa_parse csvText) = [] ->
        ParseResult.data (Papa_parse csvText) = Some rows ->
        List.length (parseCSVData Papa_parse csvText) = List.length rows)
  /\ (forall r, In r (parseCSVData Papa_parse csvText) ->
        account r <> "" /\ province r <> "").
Proof.
  unfold parseCSVData. split; [|split].
  - intros Herr.
    destruct (ParseResult.data (Papa_parse csvText)); [|reflexivity].
    destruct (ParseResult.errors (Papa_parse csvText)); [contradiction|].
    reflexivity.
  - intros rows -> ->. simpl. apply length_map.
  - intros r.
    destruct (ParseResult.data (Papa_parse csvText)) as [rows|]; [|intros []].
    destruct (0 <? _); [intros []|].
    rewrite in_map_iff. intros [row [<- _]]. simpl.
    split; apply or_prop_unknown_nonempty.
Qed.

Lemma parseCSVData_all_or_nothing_witness :
  ParseResult.errors (sample_Papa_parse sample_csv) = []
  /\ List.length (parseCSVData sample_Papa_parse sample_csv) = 1%nat.
Proof.
  split; [reflexivity|].
  exact (proj1 (proj2 (parseCSVData_all_or_nothing sample_Papa_parse
                         sample_csv))
           [sample_row "-5" "3"] eq_refl eq_refl).
Defined.

(** ** The filters offered to the user *)

Lemma accountProvince_row_exists records a r :
  In r (accountFilteredRecords records a) ->
  exists row, In row (calculateAccountProvinceStats records a).
Proof.
  intros Hr.
  assert (Hk : In (accountProvinceKey r)
                 (JsMap.keys
                    (accountProvinceMap (accountFilteredRecords records a)))).
  { rewrite accountProvinceMap_groupBy. apply groupBy_key_occurs. eauto. }
  apply keys_In_entries in Hk. destruct Hk as [b Hb].
  exists (accountProvinceRow b).
  apply In_calculateAccountProvinceStats. eauto.
Qed.

(** Every non-empty group label that [getUniqueGroups] offers selects at
    least one province row.  When no record has a blank account, as after
    [parseCSVData], every account that [getUniqueAccounts] offers selects at
    least one row of the account-and-province reduction. *)
Theorem offered_filters_select_rows (localeCompare : string -> string -> Z)
  (records : list BlacklistRecord.t) :
  (forall g, In g (getUniqueGroups localeCompare records) -> g <> "" ->
             calculateProvinceStats records (Some g) <> [])
  /\ ((forall r, In r records -> account r <> "") ->
      forall a, In a (getUniqueAccounts records) ->
                calculateAccountProvinceStats records (Some a) <> []).
Proof.
  split.
  - intros g Hg Hne.
    apply (proj1 (getUniqueGroups_members localeCompare records)) in Hg.
    destruct Hg as [r [Hr Hgr]].
    assert (Hf : In r (provinceFilteredRecords records (Some g))).
    { rewrite provinceFilteredRecords_Some by assumption.
      apply filter_In. split; [assumption | now apply String.eqb_eq]. }
    destruct (province_row_exists _ _ _ Hf) as [row [Hrow _]].
    intros Hnil. rewrite Hnil in Hrow. destruct Hrow.
  - intros Hblank a Ha.
    destruct (sorted_keys_spec accountKey records) as (Hin & _ & _).
    apply Hin in Ha. destruct Ha as [r [Hr Hk]].
    assert (Hacc : account r = a).
    { revert Hk. unfold accountKey, or_str.
      destruct (String.eqb_spec (account r) ""); [|auto].
      now specialize (Hblank r Hr). }
    assert (Hf : In r (accountFilteredRecords records (Some a))).
    { unfold accountFilteredRecords. simpl.
      destruct (String.eqb_spec a "") as [->|_].
      - now specialize (Hblank r Hr).
      - simpl. apply filter_In. split; [assumption|].
        simpl. now apply String.eqb_eq. }
    destruct (accountProvince_row_exists _ _ _ Hf) as [row Hrow].
    intros Hnil. rewrite Hnil in Hrow. destruct Hrow.
Qed.

Lemma offered_filters_select_rows_witness :
  let records := parseCSVData sample_Papa_parse sample_csv in
  In unknown (getUniqueAccounts records)
  /\ calculateAccountProvinceStats records (Some unknown) <> [].
Proof.
  cbv zeta.
  assert (Hin : In unknown
                  (getUniqueAccounts
                     (parseCSVData sample_Papa_parse sample_csv))).
  { left. reflexivity. }
  split; [exact Hin|].
  refine (proj2 (offered_filters_select_rows (fun _ _ => 0) _) _ _ Hin).
  intros r [<-|[]]. discriminate.
Defined.

(** ** One row for each account and province *)

Lemma In_set {V : Type} (k k' : string) (v v' : V) (m : JsMap.t V) :
  In (k, v) (JsMap.set k' v' m) -> (k = k' /\ v = v') \/ In (k, v) m.
Proof.
  induction m as [|[k0 v0] m IH]; simpl.
  - intros [[= <- <-]|[]]. auto.
  - destruct (String.eqb_spec k0 k') as [->|Hne]; simpl.
    + intros [[= <- <-]|H]; auto.
    + intros [H|H]; auto. destruct (IH H); auto.
Qed.

(** The value of an entry was written for a record of its key. *)
Lemma groupBy_entry_written {V : Type} (key : BlacklistRecord.t -> string)
  (upd : option V -> BlacklistRecord.t -> V)
  (rs : list BlacklistRecord.t) (m : JsMap.t V) (k : string) (v : V) :
  In (k, v) (JsMap.entries (groupBy key upd rs m)) ->
  In (k, v) m \/ exists r o, In r rs /\ key r = k /\ v = upd o r.
Proof.
  unfold JsMap.entries. revert m.
  induction rs as [|r rs IH]; intros m; simpl; [auto|].
  intros Hin. apply IH in Hin. destruct Hin as [Hin|[r' [o [H1 [H2 H3]]]]].
  - apply In_set in Hin. destruct Hin as [[-> ->]|Hin]; [|auto].
    right. exists r. eauto.
  - right. exists r', o. auto.
Qed.

Lemma bar_key_inj (a1 p1 a2 p2 : string) :
  contains_bar a1 = false -> contains_bar a2 = false ->
  a1 ++ "|" ++ p1 = a2 ++ "|" ++ p2 -> a1 = a2 /\ p1 = p2.
Proof.
  revert a2. induction a1 as [|c a1 IH]; intros [|d a2]; simpl.
  - intros _ _ [= ->]. auto.
  - intros _ H [= <- _]. simpl in H. discriminate.
  - intros H _ [= -> _]. simpl in H. discriminate.
  - intros H1 H2 [= -> Heq].
    apply orb_false_iff in H1, H2.
    destruct (IH a2 (proj2 H1) (proj2 H2) Heq) as [-> ->]. auto.
Qed.

Lemma NoDup_map_by_key {A B : Type} (h : A -> B) (l : list (string * A)) :
  NoDup (map fst l) ->
  (forall k1 v1 k2 v2,
      In (k1, v1) l -> In (k2, v2) l -> h v1 = h v2 -> k1 = k2) ->
  NoDup (map (fun e => h (snd e)) l).
Proof.
  induction l as [|[k v] l IH]; intros Hnd Hinj; simpl; [constructor|].
  inversion Hnd as [|? ? Hnot Hnd']; subst.
  constructor.
  - rewrite in_map_iff. intros [[k' v'] [Heq Hin]]. simpl in Heq.
    apply Hnot.
    assert (k' = k).
    { apply (Hinj k' v' k v); [now right | now left | assumption]. }
    subst. change k with (fst (k, v')). now apply in_map.
  - apply IH; [assumption|].
    intros k1 v1 k2 v2 H1 H2. apply Hinj; now right.
Qed.

Lemma accountProvince_entry_record records k b :
  In (k, b) (JsMap.entries (accountProvinceMap records)) ->
  exists r, In r records /\ accountProvinceKey r = k
            /\ AccountProvinceBucket.account b = accountKey r
            /\ AccountProvinceBucket.province b = provinceKey r.
Proof.
  rewrite accountProvinceMap_groupBy. intros Hin.
  apply groupBy_entry_written in Hin.
  destruct Hin as [[]|[r [o [Hr [Hk ->]]]]].
  exists r. repeat split; assumption.
Qed.

Lemma accountKey_nonblank r : account r <> "" -> accountKey r = account r.
Proof.
  unfold accountKey, or_str.
  destruct (String.eqb_spec (account r) ""); [contradiction | reflexivity].
Qed.

(** When no record has a blank account or an account that contains a bar,
    the account-and-province reduction has one row for each pair of account
    and province (defaulted to the sentinel) of the records that pass the
    filter, and each row holds the six counters added up over the records of
    its pair, in their order: their exact sum, when the counter holds
    integers whose magnitudes add up to less than 2^53 over these records. *)
Theorem accountProvince_rows_by_pair (records : list BlacklistRecord.t)
  (a : option string) :
  (forall r, In r records ->
             account r <> "" /\ contains_bar (account r) = false) ->
  let filtered := accountFilteredRecords records a in
  let rows := calculateAccountProvinceStats records a in
  NoDup (map (fun row => (AccountProvinceStats.account row,
                          AccountProvinceStats.province row)) rows)
  /\ forall row, In row rows ->
       (exists r, In r filtered
                  /\ account r = AccountProvinceStats.account row
                  /\ provinceKey r = AccountProvinceStats.province row)
       /\ forall f c, In (f, c) accountProvince_fields ->
            let pair :=
              filter
                (fun r =>
                   String.eqb (account r) (AccountProvinceStats.account row)
                   && String.eqb (provinceKey r)
                        (AccountProvinceStats.province row))
                filtered in
            f row = sum_num (map c pair)
            /\ (safe c pair -> f row = Int (exact_sum c pair)).
Proof.
  intros Hwf. cbv zeta.
  assert (Hwf' : forall r, In r (accountFilteredRecords records a) ->
                   account r <> "" /\ contains_bar (account r) = false).
  { intros r Hr. apply Hwf. eapply accountFilteredRecords_incl; eassumption. }
  set (filtered := accountFilteredRecords records a) in *.
  split.
  - unfold calculateAccountProvinceStats. fold filtered.
    eapply Permutation_NoDup.
    { apply Permutation_map, Permutation_sym.
      apply (sort_perm AccountProvinceStats.totalOutbound). }
    unfold JsMap.values. rewrite !map_map.
    apply (NoDup_map_by_key
             (fun b => (AccountProvinceBucket.account b,
                        AccountProvinceBucket.province b))).
    + rewrite accountProvinceMap_groupBy. apply groupBy_NoDup.
    + intros k1 b1 k2 b2 H1 H2 [= Ha Hp].
      apply accountProvince_entry_record in H1, H2.
      destruct H1 as [r1 (Hr1 & <- & Ha1 & Hp1)].
      destruct H2 as [r2 (Hr2 & <- & Ha2 & Hp2)].
      rewrite (accountKey_nonblank r1) in Ha1 by apply (Hwf' r1 Hr1).
      rewrite (accountKey_nonblank r2) in Ha2 by apply (Hwf' r2 Hr2).
      unfold accountProvinceKey. fold (provinceKey r1) (provinceKey r2).
      congruence.
  - intros row Hrow. apply In_calculateAccountProvinceStats in Hrow.
    fold filtered in Hrow. destruct Hrow as [k [b [Hin ->]]].
    destruct (accountProvince_entry_record _ _ _ Hin)
      as [r0 (Hr0 & Hk0 & Ha0 & Hp0)].
    rewrite (accountKey_nonblank r0) in Ha0 by apply (Hwf' r0 Hr0).
    simpl. split; [exists r0; auto|].
    intros f c Hfc. cbv zeta.
    destruct (accountProvince_fields_bucket f c Hfc) as [fb [Hfb Hrow]].
    rewrite Hrow. rewrite accountProvinceMap_groupBy in Hin.
    rewrite (groupBy_entry accountProvinceKey accountProvinceUpd fb c
               (fun o r => accountProvinceUpd_fields fb c o r Hfb) _ k b Hin).
    assert (Hpair : with_key accountProvinceKey k filtered
                    = filter
                        (fun r =>
                           String.eqb (account r) (account r0)
                           && String.eqb (provinceKey r)
                                (AccountProvinceBucket.province b))
                        filtered);
      [|rewrite Ha0, Hpair; split; [reflexivity | apply safe_sum]].
    unfold with_key. apply filter_ext_in. intros r Hr.
    rewrite Hp0, <- Hk0.
    destruct (String.eqb_spec (accountProvinceKey r) (accountProvinceKey r0))
      as [Heq|Hne].
    + unfold accountProvinceKey in Heq.
      apply bar_key_inj in Heq;
        [|apply (Hwf' r Hr) | apply (Hwf' r0 Hr0)].
      destruct Heq as [-> Hp]. fold (provinceKey r) (provinceKey r0) in Hp.
      now rewrite Hp, !String.eqb_refl.
    + destruct (String.eqb_spec (account r) (account r0)) as [Ha|]; [|auto].
      destruct (String.eqb_spec (provinceKey r) (provinceKey r0)) as [Hp|];
        [|auto].
      exfalso. apply Hne. unfold accountProvinceKey.
      fold (provinceKey r) (provinceKey r0). congruence.
Qed.

Lemma accountProvince_rows_by_pair_witness :
  let records := [ sample_record "a" "bj" "31" 5 1 0 0;
                   sample_record "a" "" "31" 7 2 0 0;
                   sample_record "a" "bj" "32" 1 1 0 0 ] in
  (forall r, In r records ->
             account r <> "" /\ contains_bar (account r) = false)
  /\ NoDup (map (fun row => (AccountProvinceStats.account row,
                             AccountProvinceStats.province row))
              (calculateAccountProvinceStats records None)).
Proof.
  cbv zeta.
  assert (Hwf : forall r,
             In r [ sample_record "a" "bj" "31" 5 1 0 0;
                    sample_record "a" "" "31" 7 2 0 0;
                    sample_record "a" "bj" "32" 1 1 0 0 ] ->
             account r <> "" /\ contains_bar (account r) = false).
  { intros r [<-|[<-|[<-|[]]]]; split; (discriminate || reflexivity). }
  split; [exact Hwf|].
  exact (proj1 (accountProvince_rows_by_pair _ None Hwf)).
Defined.

(** ** Filtered and unfiltered province rows *)

Lemma num_leb_trans (a b c : num) :
  num_leb a b = true -> num_leb b c = true -> num_leb a c = true.
Proof.
  intros H1 H2. exact (num_geb_trans c b a H2 H1).
Qed.

(** The double of an integer that is not negative grows with the integer. *)
Lemma to_double_mono (u v : Z) :
  0 <= u <= v -> num_leb (to_double u) (to_double v) = true.
Proof.
  intros [Hu Huv]. unfold to_double.
  rewrite (Z.abs_eq u), (Z.abs_eq v) by lia.
  pose proof (round_mono u v (conj Hu Huv)) as Hm.
  pose proof (round_nonneg u Hu) as Hmu.
  destruct (Z.ltb_spec u 0); [lia|]. destruct (Z.ltb_spec v 0); [lia|].
  destruct (Z.leb_spec (2 ^ 1024) (round_to_53_bits u)),
           (Z.leb_spec (2 ^ 1024) (round_to_53_bits v));
    cbn [num_leb negb orb]; try reflexivity; [lia|].
  apply Z.leb_le.
  destruct (Z.eq_dec u 0) as [->|Hne].
  - rewrite round_small by reflexivity.
    apply Z.mul_nonneg_nonneg; [apply Z.sgn_nonneg|]; lia.
  - rewrite (Z.sgn_pos u), (Z.sgn_pos v) by lia. lia.
Qed.

(** A double is the double of its own value. *)
Lemma to_double_idem (z w : Z) : to_double z = Int w -> to_double w = Int w.
Proof.
  unfold to_double.
  destruct (Z.leb_spec (2 ^ 1024) (round_to_53_bits (Z.abs z))) as [|Hlt];
    [discriminate|].
  intros [= <-].
  pose proof (round_nonneg (Z.abs z) (Z.abs_nonneg z)) as Hm.
  assert (Habs : Z.abs (Z.sgn z * round_to_53_bits (Z.abs z))
                 = round_to_53_bits (Z.abs z)).
  { destruct (Z.eq_dec z 0) as [->|Hz]; [reflexivity|].
    destruct (Z.sgn_spec z) as [[_ Hs]|[[Hs _]|[_ Hs]]];
      [rewrite Hs; lia | congruence | rewrite Hs; lia]. }
  rewrite Habs, round_idem by apply Z.abs_nonneg.
  destruct (Z.leb_spec (2 ^ 1024) (round_to_53_bits (Z.abs z))); [lia|].
  f_equal.
  destruct (Z.eq_dec (round_to_53_bits (Z.abs z)) 0) as [->|Hne]; [lia|].
  rewrite Z.sgn_mul, Z.sgn_sgn.
  rewrite (Z.sgn_pos (round_to_53_bits (Z.abs z))) by lia. lia.
Qed.

Lemma to_double_nonneg_cases (z : Z) :
  0 <= z -> to_double z = Inf false \/ exists w, to_double z = Int w /\ 0 <= w.
Proof.
  intros Hz. pose proof (to_double_nonneg z Hz) as H.
  pose proof (to_double_not_nan z) as Hnan.
  destruct (to_double z) as [w|[|]|]; simpl in H;
    try discriminate; try contradiction.
  - right. exists w. apply Z.leb_le in H. auto.
  - now left.
Qed.

Lemma nonneg_cases (x : num) :
  num_leb (Int 0) x = true -> x = Inf false \/ exists z, x = Int z /\ 0 <= z.
Proof.
  destruct x as [z|[|]|]; simpl; try discriminate.
  - intros H. apply Z.leb_le in H. right. eauto.
  - now left.
Qed.

Lemma add_nonneg (a x : num) :
  num_leb (Int 0) a = true -> num_leb (Int 0) x = true ->
  num_leb (Int 0) (a + x)%js = true.
Proof.
  intros Ha Hx.
  destruct (nonneg_cases a Ha) as [->|[u [-> Hu]]],
           (nonneg_cases x Hx) as [->|[y [-> Hy]]]; try reflexivity.
  cbn [num_add]. apply to_double_nonneg. lia.
Qed.

Lemma leb_Inf (x : num) :
  num_leb (Int 0) x = true -> num_leb x (Inf false) = true.
Proof.
  intros Hx. destruct (nonneg_cases x Hx) as [->|[u [-> Hu]]]; reflexivity.
Qed.

Lemma add_mono (a a' x : num) :
  num_leb (Int 0) a = true -> num_leb a a' = true ->
  num_leb (Int 0) x = true ->
  num_leb (a + x)%js (a' + x)%js = true.
Proof.
  intros Ha Haa Hx.
  pose proof (num_leb_trans _ _ _ Ha Haa) as Ha'.
  destruct (nonneg_cases a' Ha') as [->|[v [-> Hv]]].
  - replace (Inf false + x)%js with (Inf false).
    + apply leb_Inf. now apply add_nonneg.
    + destruct (nonneg_cases x Hx) as [->|[y [-> Hy]]]; reflexivity.
  - destruct (nonneg_cases a Ha) as [->|[u [-> Hu]]]; [discriminate|].
    simpl in Haa. apply Z.leb_le in Haa.
    destruct (nonneg_cases x Hx) as [->|[y [-> Hy]]]; [reflexivity|].
    cbn [num_add]. apply to_double_mono. lia.
Qed.

Lemma add_zero_idem (a x : num) : ((a + x) + Int 0)%js = (a + x)%js.
Proof.
  destruct a as [u|s|], x as [y|s'|]; simpl; try reflexivity.
  - destruct (to_double (u + y)) as [w|s|] eqn:E; try reflexivity.
    simpl. rewrite Z.add_0_r. exact (to_double_idem _ _ E).
  - destruct (Bool.eqb s s'); reflexivity.
Qed.

Lemma add_increases (a x : num) :
  (a + Int 0)%js = a -> num_leb (Int 0) a = true ->
  num_leb (Int 0) x = true ->
  num_leb a (a + x)%js = true.
Proof.
  intros Hrep Ha Hx.
  destruct (nonneg_cases a Ha) as [->|[u [-> Hu]]].
  - destruct (nonneg_cases x Hx) as [->|[y [-> Hy]]]; reflexivity.
  - destruct (nonneg_cases x Hx) as [->|[y [-> Hy]]]; [reflexivity|].
    cbn [num_add] in *. rewrite Z.add_0_r in Hrep.
    rewrite <- Hrep at 1. apply to_double_mono. lia.
Qed.

(** With counters that are not negative, adding up fewer of them gives no
    more. *)
Lemma fold_filter_le (c : BlacklistRecord.t -> num)
  (p q : BlacklistRecord.t -> bool) (l : list BlacklistRecord.t)
  (a a' : num) :
  (forall r, In r l -> num_leb (Int 0) (c r) = true) ->
  (forall r, p r = true -> q r = true) ->
  num_leb (Int 0) a = true -> num_leb a a' = true ->
  (a' + Int 0)%js = a' ->
  num_leb (fold_left num_add (map c (filter p l)) a)
    (fold_left num_add (map c (filter q l)) a') = true.
Proof.
  intros Hc Hpq. revert a a'.
  induction l as [|r l IH]; intros a a' Ha Haa Hrep; simpl; [assumption|].
  assert (Hc' : forall r', In r' l -> num_leb (Int 0) (c r') = true).
  { intros r' Hr'. apply Hc. now right. }
  pose proof (Hc r (or_introl eq_refl)) as Hr.
  pose proof (num_leb_trans _ _ _ Ha Haa) as Ha'.
  destruct (p r) eqn:Ep.
  - rewrite (Hpq r Ep). simpl. apply (IH Hc').
    + now apply add_nonneg.
    + now apply add_mono.
    + apply add_zero_idem.
  - destruct (q r); simpl.
    + apply (IH Hc'); [assumption | | apply add_zero_idem].
      eapply num_leb_trans; [exact Haa|]. now apply add_increases.
    + now apply (IH Hc').
Qed.

Lemma filter_all {A : Type} (p : A -> bool) (l : list A) :
  (forall x, In x l -> p x = true) -> filter p l = l.
Proof.
  induction l as [|x l IH]; intros H; simpl; [reflexivity|].
  rewrite (H x (or_introl eq_refl)), IH; [reflexivity|].
  intros y Hy. apply H. now right.
Qed.

Lemma province_row_field row rs f c :
  province_row_sums row rs -> In (f, c) province_fields ->
  f row = sum_num (map c rs).
Proof.
  intros (H1 & H2 & H3 & H4 & H5 & H6) Hin. simpl in Hin.
  repeat (destruct Hin as [[= <- <-]|Hin]; [assumption|]).
  destruct Hin.
Qed.

(** With counters that are not negative, every row of the filtered province
    reduction is matched by the row of the same province of the unfiltered
    one, and none of its six sums exceeds the sum of that row.  When every
    record has the group given as filter, the two reductions are equal. *)
Theorem province_filter_subset (records : list BlacklistRecord.t)
  (g : option string) :
  ((forall c r, In c summed_counters -> In r records ->
                num_leb (Int 0) (c r) = true) ->
   forall row, In row (calculateProvinceStats records g) ->
     exists row', In row' (calculateProvinceStats records None)
                  /\ ProvinceStats.province row' = ProvinceStats.province row
                  /\ forall f c, In (f, c) province_fields ->
                                 num_leb (f row) (f row') = true)
  /\ ((forall r, In r records -> strict_eq (group r) g = true) ->
      calculateProvinceStats records g = calculateProvinceStats records None).
Proof.
  split.
  - intros Hnn row Hrow.
    destruct (province_row_spec _ _ _ Hrow) as [Hsums [r [Hr Hk]]].
    assert (Hr' : In r (provinceFilteredRecords records None)).
    { simpl. eapply provinceFilteredRecords_incl; eassumption. }
    destruct (province_row_exists _ _ _ Hr') as [row' [Hrow' Hp']].
    exists row'. split; [assumption|]. split; [congruence|].
    intros f c Hfc.
    rewrite (province_row_field _ _ f c Hsums Hfc).
    destruct (province_row_spec _ _ _ Hrow') as [Hsums' _].
    rewrite (province_row_field _ _ f c Hsums' Hfc).
    rewrite Hp', Hk.
    assert (Hc : In c summed_counters).
    { simpl in Hfc. simpl.
      repeat (destruct Hfc as [[= <- <-]|Hfc]; [tauto|]). destruct Hfc. }
    unfold with_key, provinceFilteredRecords, sum_num. cbn [truthy].
    destruct (truthy g).
    + rewrite filter_filter_and.
      apply fold_filter_le; try reflexivity.
      * intros r0 Hr0. now apply Hnn.
      * intros r0 H0. apply andb_true_iff in H0. tauto.
    + apply fold_filter_le; try reflexivity; [|auto].
      intros r0 Hr0. now apply Hnn.
  - intros Hall. unfold calculateProvinceStats, provinceFilteredRecords.
    destruct (truthy g); [|reflexivity].
    now rewrite filter_all.
Qed.

Lemma province_filter_subset_witness :
  let records := [ sample_record "a" "bj" "31" 5 1 0 0;
                   sample_record "b" "bj" "32" 7 2 0 0 ] in
  let row := provinceRow ("bj", bucketUpd None
                                  (sample_record "a" "bj" "31" 5 1 0 0)) in
  In row (calculateProvinceStats records (Some "31"))
  /\ exists row', In row' (calculateProvinceStats records None)
                  /\ num_leb (ProvinceStats.totalOutbound row)
                       (ProvinceStats.totalOutbound row') = true.
Proof.
  cbv zeta.
  assert (Hnn : forall c r,
             In c summed_counters ->
             In r [ sample_record "a" "bj" "31" 5 1 0 0;
                    sample_record "b" "bj" "32" 7 2 0 0 ] ->
             num_leb (Int 0) (c r) = true).
  { intros c r Hc [<-|[<-|[]]]; simpl in Hc;
      repeat (destruct Hc as [<-|Hc]; [reflexivity|]); destruct Hc. }
  assert (Hrow : In (provinceRow ("bj", bucketUpd None
                       (sample_record "a" "bj" "31" 5 1 0 0)))
                   (calculateProvinceStats
                      [ sample_record "a" "bj" "31" 5 1 0 0;
                        sample_record "b" "bj" "32" 7 2 0 0 ] (Some "31"))).
  { left. reflexivity. }
  split; [exact Hrow|].
  destruct (proj1 (province_filter_subset _ (Some "31")) Hnn _ Hrow)
    as [row' [Hin' [_ Hle]]].
  exists row'. split; [exact Hin'|].
  apply (Hle ProvinceStats.totalOutbound total_outbound_count).
  left. reflexivity.
Defined.

(** ** File names *)

Lemma matches_dot_csv_length (s : string) :
  matches_dot_csv s = true -> String.length s = 4%nat.
Proof.
  destruct s as [|c1 [|c2 [|c3 [|c4 [|c5 s]]]]]; simpl; try discriminate.
  reflexivity.
Qed.

Lemma length_append (s t : string) :
  String.length (s ++ t) = (String.length s + String.length t)%nat.
Proof.
  induction s as [|c s IH]; simpl; [reflexivity | now rewrite IH].
Qed.

Lemma append_nil_r (s : string) : s ++ "" = s.
Proof.
  induction s as [|c s IH]; simpl; [reflexivity | now rewrite IH].
Qed.

Lemma strip_csv_append (s ext : string) :
  matches_dot_csv ext = true -> strip_csv (s ++ ext) = s.
Proof.
  intros Hext. induction s as [|c s IH].
  - simpl. destruct ext; simpl in *; [discriminate|]. now rewrite Hext.
  - change (String c s ++ ext) with (String c (s ++ ext)).
    cbn [strip_csv].
    destruct (matches_dot_csv (String c (s ++ ext))) eqn:E.
    + apply matches_dot_csv_length in E, Hext.
      simpl in E. rewrite length_append in E. lia.
    + now rewrite IH.
Qed.

Lemma strip_csv_suffix (name : string) :
  exists ext, name = strip_csv name ++ ext
              /\ (ext = "" \/ matches_dot_csv ext = true).
Proof.
  induction name as [|c name IH].
  - exists "". auto.
  - cbn [strip_csv].
    destruct (matches_dot_csv (String c name)) eqn:E.
    + exists (String c name). auto.
    + destruct IH as [ext [Heq Hext]]. exists ext. split; [|assumption].
      simpl. now rewrite <- Heq.
Qed.

(** [name.replace(/\.csv$/i, '')] removes a final ".csv" in any letter case
    and nothing else: a name [s ++ ext] with such an extension gives [s], and
    every name is its result followed by such an extension or by nothing. *)
Theorem strip_csv_removes_extension (name : string) :
  (forall s ext, matches_dot_csv ext = true -> name = s ++ ext ->
                 strip_csv name = s)
  /\ exists ext, name = strip_csv name ++ ext
                 /\ (ext = "" \/ matches_dot_csv ext = true).
Proof.
  split.
  - intros s ext Hext ->. now apply strip_csv_append.
  - apply strip_csv_suffix.
Qed.

Lemma strip_csv_removes_extension_witness :
  matches_dot_csv ".CSV" = true /\ strip_csv "north.CSV" = "north".
Proof.
  split; [reflexivity|].
  exact (proj1 (strip_csv_removes_extension "north.CSV")
           "north" ".CSV" eq_refl eq_refl).
Defined.

Lemma ends_with_append (suffix s : string) :
  ends_with suffix s = true -> exists p, s = p ++ suffix.
Proof.
  induction s as [|c s IH]; cbn [ends_with].
  - destruct (String.eqb_spec "" suffix) as [<-|]; [|discriminate].
    exists "". reflexivity.
  - destruct (String.eqb_spec (String c s) suffix) as [<-|].
    + exists "". reflexivity.
    + intros H. destruct (IH H) as [p ->]. exists (String c p). reflexivity.
Qed.

Lemma ends_with_csv_strip (name : string) :
  ends_with ".csv" name = true -> strip_csv name ++ ".csv" = name.
Proof.
  intros H. apply ends_with_append in H. destruct H as [p ->].
  now rewrite strip_csv_append.
Qed.

(** ** The batch *)

Lemma batchResults_Forall (Papa_parse : string -> ParseResult.t)
  (files : list UploadedFile.t) :
  Forall (fun result =>
            BatchFileResult.rawData result <> []
            /\ BatchFileResult.stats result
               = calculateOverallStats (BatchFileResult.rawData result)
            /\ exists file,
                 In file files
                 /\ BatchFileResult.fileName result
                    = strip_csv (UploadedFile.name file)
                 /\ BatchFileResult.rawData result
                    = parseCSVData Papa_parse (UploadedFile.content file))
    (batchResults Papa_parse files)
  /\ (List.length (batchResults Papa_parse files) <= List.length files)%nat.
Proof.
  rewrite batchResults_spec. split.
  - rewrite Forall_forall. intros result Hin.
    apply in_map_iff in Hin. destruct Hin as [file [<- Hfile]].
    apply filter_In in Hfile. destruct Hfile as [Hfile Hne].
    simpl. split; [|split; [reflexivity|eauto]].
    destruct (parseCSVData Papa_parse (UploadedFile.content file));
      [discriminate | discriminate].
  - rewrite length_map. apply filter_length_le.
Qed.

(** Every result of a batch keeps at least one record, and its statistics
    are those of its own records: recomputing the overall reduction from
    [rawData], as the detail view does, gives the row of the batch again.
    There are at most as many results as files. *)
Theorem batchResults_invariant (Papa_parse : string -> ParseResult.t)
  (files : list UploadedFile.t) :
  Forall (fun result =>
            BatchFileResult.rawData result <> []
            /\ BatchFileResult.stats result
               = calculateOverallStats (BatchFileResult.rawData result)
            /\ exists file,
                 In file files
                 /\ BatchFileResult.fileName result
                    = strip_csv (UploadedFile.name file)
                 /\ BatchFileResult.rawData result
                    = parseCSVData Papa_parse (UploadedFile.content file))
    (batchResults Papa_parse files)
  /\ (List.length (batchResults Papa_parse files) <= List.length files)%nat.
Proof.
  exact (batchResults_Forall Papa_parse files).
Qed.

(** ** The upload page *)

Lemma readAll_spec (files : list BrowserFile.t)
  (results : list UploadedFile.t) :
  readAll files = Some results ->
  map UploadedFile.name results = map BrowserFile.name files
  /\ Forall2 (fun file result =>
                BrowserFile.text file = Some (UploadedFile.content result))
       files results.
Proof.
  revert results. induction files as [|f files IH]; intros results; simpl.
  - intros [= <-]. split; [reflexivity | constructor].
  - destruct (BrowserFile.text f) as [content|] eqn:E; [|discriminate].
    destruct (readAll files) as [rs|]; [|discriminate].
    intros [= <-]. destruct (IH rs eq_refl) as [Hn Hc].
    split; [simpl; now rewrite Hn | constructor; assumption].
Qed.

Lemma processFiles_upload_spec (isBatch : bool) (files : list BrowserFile.t)
  (results : list UploadedFile.t) (batch : bool) :
  Processed.upload (processFiles isBatch files) = Some (results, batch) ->
  let validFiles :=
    filter (fun f => ends_with ".csv" (BrowserFile.name f)) files in
  batch = isBatch
  /\ results <> []
  /\ map UploadedFile.name results = map BrowserFile.name validFiles
  /\ Forall2 (fun file result =>
                BrowserFile.text file = Some (UploadedFile.content result))
       validFiles results
  /\ (isBatch = false ->
      List.length files = 1%nat /\ List.length results = 1%nat).
Proof.
  unfold processFiles. cbv zeta.
  destruct (Nat.eqb_spec (List.length files) 0) as [|Hne]; [discriminate|].
  destruct (negb isBatch && (1 <? List.length files)%nat) eqn:Esingle;
    [discriminate|].
  set (validFiles :=
         filter (fun f => ends_with ".csv" (BrowserFile.name f)) files).
  destruct (Nat.eqb_spec (List.length validFiles) 0) as [|Hvalid];
    [discriminate|].
  destruct (readAll validFiles) as [rs|] eqn:Eread; [|discriminate].
  simpl. intros [= <- <-].
  destruct (readAll_spec _ _ Eread) as [Hnames Htexts].
  assert (Hlen : List.length rs = List.length validFiles).
  { rewrite <- (length_map UploadedFile.name), Hnames. apply length_map. }
  split; [reflexivity|]. split.
  { intros ->. simpl in Hlen. lia. }
  split; [assumption|]. split; [assumption|].
  intros ->. simpl in Esingle.
  destruct (Nat.ltb_spec 1 (List.length files)); [discriminate|].
  pose proof (filter_length_le
                (fun f => ends_with ".csv" (BrowserFile.name f)) files).
  fold validFiles in H0. lia.
Qed.

(** [processFiles] calls [onUpload] only with the mode it is in and with a
    list of files that is not empty: the files whose names end in ".csv", in
    lower case, in the order given, each with the text read from it.  In
    single mode the list is the one file that was given. *)
Theorem processFiles_upload (isBatch : bool) (files : list BrowserFile.t)
  (results : list UploadedFile.t) (batch : bool) :
  Processed.upload (processFiles isBatch files) = Some (results, batch) ->
  let validFiles :=
    filter (fun f => ends_with ".csv" (BrowserFile.name f)) files in
  batch = isBatch
  /\ results <> []
  /\ map UploadedFile.name results = map BrowserFile.name validFiles
  /\ Forall2 (fun file result =>
                BrowserFile.text file = Some (UploadedFile.content result))
       validFiles results
  /\ (isBatch = false ->
      List.length files = 1%nat /\ List.length results = 1%nat).
Proof.
  exact (processFiles_upload_spec isBatch files results batch).
Qed.

Lemma processFiles_upload_witness :
  let files := [ {| BrowserFile.name := "north.csv";
                    BrowserFile.text := Some sample_csv |};
                 {| BrowserFile.name := "notes.txt";
                    BrowserFile.text := Some "hello" |} ] in
  let results := [ {| UploadedFile.name := "north.csv";
                      UploadedFile.content := sample_csv |} ] in
  Processed.upload (processFiles true files) = Some (results, true)
  /\ map UploadedFile.name results = ["north.csv"].
Proof.
  cbv zeta. split; [reflexivity|].
  exact (proj1 (proj2 (proj2
           (processFiles_upload true
              [ {| BrowserFile.name := "north.csv";
                   BrowserFile.text := Some sample_csv |};
                {| BrowserFile.name := "notes.txt";
                   BrowserFile.text := Some "hello" |} ]
              _ true eq_refl)))).
Defined.

Lemma handleUpload_outcome (Papa_parse : string -> ParseResult.t)
  (results : list UploadedFile.t) (batch : bool) (st : AppState.t) :
  results <> [] ->
  (fst (handleUpload Papa_parse results batch st) = st
   /\ exists message, snd (handleUpload Papa_parse results batch st) = [message])
  \/ (snd (handleUpload Papa_parse results batch st) = []
      /\ ((batch = false
           /\ exists file rest records,
                results = file :: rest
                /\ records = parseCSVData Papa_parse (UploadedFile.content file)
                /\ records <> []
                /\ fst (handleUpload Papa_parse results batch st)
                   = {| AppState.data := Some records;
                        AppState.batchData := None |})
          \/ (batch = true
              /\ batchResults Papa_parse results <> []
              /\ fst (handleUpload Papa_parse results batch st)
                 = {| AppState.data := None;
                      AppState.batchData :=
                        Some (batchResults Papa_parse results) |}))).
Proof.
  intros Hne. destruct results as [|file rest]; [contradiction|].
  unfold handleUpload. destruct batch.
  - destruct (batchResults Papa_parse (file :: rest)) as [|x xs] eqn:E; simpl.
    + left. eauto.
    + right. split; [reflexivity|]. right.
      split; [reflexivity|]. split; [discriminate | reflexivity].
  - destruct (parseCSVData Papa_parse (UploadedFile.content file))
      as [|r rs] eqn:E; simpl.
    + left. eauto.
    + right. split; [reflexivity|]. left. split; [reflexivity|].
      exists file, rest, (r :: rs). rewrite E.
      repeat split; [discriminate].
Qed.

(** Dropping or choosing files never does nothing: whenever the list of
    files is not empty, either an alert is shown and the state is the one
    before, up to the file names on display, or the application moves to the
    report of the one file given (single mode) or to the batch report (batch
    mode), whatever it showed before.  In the batch report every file name
    is the name of one of the files given, without its ".csv". *)
Theorem uploadFiles_outcome (Papa_parse : string -> ParseResult.t)
  (isBatch : bool) (files : list BrowserFile.t) (st : AppState.t) :
  files <> [] ->
  let st' := fst (uploadFiles Papa_parse isBatch files st) in
  let alerts := snd (uploadFiles Papa_parse isBatch files st) in
  (alerts <> [] /\ st' = st)
  \/ (isBatch = false
      /\ exists name content,
           files = [ {| BrowserFile.name := name;
                        BrowserFile.text := Some content |} ]
           /\ parseCSVData Papa_parse content <> []
           /\ render st' = ReportView (parseCSVData Papa_parse content))
  \/ (isBatch = true
      /\ exists results,
           results <> []
           /\ render st' = BatchReportView results
           /\ forall result, In result results ->
                exists file,
                  In file files
                  /\ BrowserFile.name file
                     = BatchFileResult.fileName result ++ ".csv").
Proof.
  intros Hfiles. cbv zeta. unfold uploadFiles.
  destruct (Processed.upload (processFiles isBatch files))
    as [[results batch]|] eqn:Eup.
  - pose proof (processFiles_upload_spec _ _ _ _ Eup) as Hup. cbv zeta in Hup.
    destruct Hup as (-> & Hne & Hnames & Htexts & Hsingle).
    pose proof (handleUpload_outcome Papa_parse results isBatch st Hne) as Hout.
    destruct (handleUpload Papa_parse results isBatch st) as [st' alerts].
    simpl in *.
    destruct Hout as [[-> [message ->]]
                     |[-> [(-> & file & rest & records & -> & -> & Hrec & ->)
                          |(-> & Hres & ->)]]].
    + left. split; [|reflexivity]. now destruct (Processed.alerts _).
    + right. left. split; [reflexivity|].
      destruct (Hsingle eq_refl) as [Hlen1 Hlen2].
      destruct files as [|[name text] [|f2 files]]; simpl in Hlen1; try lia.
      destruct rest; simpl in Hlen2; [|lia].
      simpl in Htexts. destruct (ends_with ".csv" name); [|inversion Htexts].
      inversion Htexts as [|? ? ? ? Htext _]; subst. simpl in Htext.
      subst text. exists name, (UploadedFile.content file).
      split; [reflexivity|]. split; [assumption | reflexivity].
    + right. right. split; [reflexivity|].
      exists (batchResults Papa_parse results).
      split; [assumption|]. split; [reflexivity|].
      intros result Hin.
      destruct (batchResults_Forall Papa_parse results) as [Hall _].
      rewrite Forall_forall in Hall.
      destruct (Hall result Hin) as (_ & _ & up & Hup & Hname & _).
      assert (Hn : In (UploadedFile.name up)
                     (map BrowserFile.name
                        (filter (fun f => ends_with ".csv" (BrowserFile.name f))
                           files))).
      { rewrite <- Hnames. now apply in_map. }
      apply in_map_iff in Hn. destruct Hn as [file [Heq Hfile]].
      apply filter_In in Hfile. destruct Hfile as [Hfile Hends].
      exists file. split; [assumption|].
      rewrite Hname, <- Heq. symmetry. now apply ends_with_csv_strip.
  - left. split; [|reflexivity]. simpl.
    revert Eup. unfold processFiles.
    destruct (Nat.eqb_spec (List.length files) 0) as [Hz|_].
    { destruct files; [contradiction | discriminate]. }
    destruct (negb isBatch && (1 <? List.length files)%nat);
      [discriminate|].
    cbv zeta.
    destruct (List.length (filter _ files) =? 0)%nat;
      [simpl; intros _; now destruct (if negb _ then _ else _)|].
    destruct (readAll _); [discriminate|].
    simpl. intros _. now destruct (if negb _ then _ else _).
Qed.

Lemma uploadFiles_outcome_witness :
  let files := [ {| BrowserFile.name := "north.csv";
                    BrowserFile.text := Some sample_csv |} ] in
  files <> []
  /\ render (fst (uploadFiles sample_Papa_parse false files initial_state))
     = ReportView (parseCSVData sample_Papa_parse sample_csv).
Proof.
  cbv zeta.
  assert (Hne : [ {| BrowserFile.name := "north.csv";
                     BrowserFile.text := Some sample_csv |} ] <> [])
    by discriminate.
  split; [exact Hne|].
  destruct (uploadFiles_outcome sample_Papa_parse false _ initial_state Hne)
    as [[_ H]|[[_ (name & content & Hf & _ & Hr)]|[H _]]].
  - discriminate H.
  - injection Hf as _ <-. exact Hr.
  - discriminate H.
Defined.

(** ** The charts *)

Lemma gtb_not_nan (x : num) : (x >? Int 0)%js = true -> is_nan x = false.
Proof.
  destruct x; [reflexivity | reflexivity | discriminate].
Qed.

(** With finite counters the tables are in descending order. *)
Lemma calculateProvinceStats_desc records g :
  Forall (fun r => is_int (total_outbound_count r) = true) records ->
  StronglySorted
    (fun a b => num_geb (ProvinceStats.totalOutbound a)
                  (ProvinceStats.totalOutbound b) = true)
    (calculateProvinceStats records g).
Proof.
  intros Hint. apply desc_StronglySorted.
  apply (sort_sorted ProvinceStats.totalOutbound).
  rewrite Forall_forall. intros row Hrow. apply in_map_iff in Hrow.
  destruct Hrow as [[k b] [<- Hin]]. rewrite provinceMap_groupBy in Hin.
  apply (bucket_total_not_nan provinceKey
           (provinceFilteredRecords records g) k b); [|exact Hin].
  eapply Forall_incl; [|exact Hint].
  intros r. apply provinceFilteredRecords_incl.
Qed.

Lemma calculateAccountStats_desc records :
  Forall (fun r => is_int (total_outbound_count r) = true) records ->
  StronglySorted
    (fun a b => num_geb (AccountStats.totalOutbound a)
                  (AccountStats.totalOutbound b) = true)
    (calculateAccountStats records).
Proof.
  intros Hint. apply desc_StronglySorted.
  apply (sort_sorted AccountStats.totalOutbound).
  rewrite Forall_forall. intros row Hrow. apply in_map_iff in Hrow.
  destruct Hrow as [[k b] [<- Hin]]. rewrite accountMap_groupBy in Hin.
  exact (bucket_total_not_nan accountKey records k b Hint Hin).
Qed.

Lemma calculateAccountProvinceStats_desc records a :
  Forall (fun r => is_int (total_outbound_count r) = true) records ->
  StronglySorted
    (fun x y => num_geb (AccountProvinceStats.totalOutbound x)
                  (AccountProvinceStats.totalOutbound y) = true)
    (calculateAccountProvinceStats records a).
Proof.
  intros Hint. apply desc_StronglySorted.
  apply (sort_sorted AccountProvinceStats.totalOutbound).
  rewrite Forall_forall. intros row Hrow. apply in_map_iff in Hrow.
  destruct Hrow as [b [<- Hin]]. unfold JsMap.values in Hin.
  apply in_map_iff in Hin. destruct Hin as [[k b'] [<- Hin]].
  rewrite accountProvinceMap_groupBy in Hin.
  apply (accountProvinceBucket_total_not_nan
           (accountFilteredRecords records a) k b'); [|exact Hin].
  eapply Forall_incl; [|exact Hint].
  intros r. apply accountFilteredRecords_incl.
Qed.

(** The bar chart of the provinces shows at most 20 provinces, all with a
    positive outbound total, and no province it leaves out has a positive
    total above that of a province it shows.  On the rows of the province
    reduction of records with finite counters the chart sorts again without
    effect: it shows the rows with a positive total in the order of the
    table. *)
Theorem barData_top20 (data : list ProvinceStats.t)
  (records : list BlacklistRecord.t) (g : option string) :
  let shown := firstn 20 (sortedData data) in
  let hidden := skipn 20 (sortedData data) in
  map BarDatum.name (barData data) = map ProvinceStats.province shown
  /\ map BarDatum.value (barData data)
     = map ProvinceStats.totalOutbound shown
  /\ (List.length (barData data) <= 20)%nat
  /\ Permutation (shown ++ hidden)
       (filter (fun d => (ProvinceStats.totalOutbound d >? Int 0)%js) data)
  /\ (forall bar, In bar (barData data) ->
        (BarDatum.value bar >? Int 0)%js = true)
  /\ (forall bar d, In bar (barData data) -> In d hidden ->
        num_geb (BarDatum.value bar) (ProvinceStats.totalOutbound d) = true)
  /\ (Forall (fun r => is_int (total_outbound_count r) = true) records ->
      sortedData (calculateProvinceStats records g)
      = filter (fun d => (ProvinceStats.totalOutbound d >? Int 0)%js)
          (calculateProvinceStats records g)).
Proof.
  cbv zeta. unfold barData.
  assert (Hpos : forall d, In d (sortedData data) ->
                           (ProvinceStats.totalOutbound d >? Int 0)%js = true).
  { intros d Hd. unfold sortedData in Hd.
    apply -> (sort_In ProvinceStats.totalOutbound) in Hd.
    apply filter_In in Hd. tauto. }
  assert (Hs : StronglySorted
                 (fun a b => num_geb (ProvinceStats.totalOutbound a)
                               (ProvinceStats.totalOutbound b) = true)
                 (sortedData data)).
  { apply desc_StronglySorted.
    apply (sort_sorted ProvinceStats.totalOutbound).
    rewrite Forall_forall. intros d Hd. apply filter_In in Hd.
    apply gtb_not_nan. tauto. }
  split; [now rewrite map_map|]. split; [now rewrite map_map|].
  split; [rewrite length_map; apply firstn_le_length|].
  split.
  { rewrite firstn_skipn. apply (sort_perm ProvinceStats.totalOutbound). }
  split.
  { intros bar Hbar. apply in_map_iff in Hbar.
    destruct Hbar as [d [<- Hd]]. simpl.
    apply Hpos. rewrite <- (firstn_skipn 20 (sortedData data)).
    apply in_or_app. now left. }
  split.
  { intros bar d Hbar Hd. apply in_map_iff in Hbar.
    destruct Hbar as [d0 [<- Hd0]]. simpl.
    exact (firstn_skipn_desc ProvinceStats.totalOutbound _ 20 d0 d Hs Hd0 Hd). }
  intros Hint. unfold sortedData. apply sort_sorted_id.
  apply StronglySorted_Sorted, StronglySorted_filter_desc.
  now apply calculateProvinceStats_desc.
Qed.

(** The bar charts of the accounts and of the accounts by province show the
    first 15 and the first 20 rows of their tables: with finite counters no
    row left out has an outbound total above that of a row shown.  An empty
    selection of account means no filter. *)
Theorem report_charts_top_rows (records : list BlacklistRecord.t)
  (selectedAccount : string) :
  (List.length (accountChartData records) <= 15)%nat
  /\ (Forall (fun r => is_int (total_outbound_count r) = true) records ->
      forall shown hidden,
        In shown (accountChartData records) ->
        In hidden (skipn 15 (calculateAccountStats records)) ->
        num_geb (AccountStats.totalOutbound shown)
          (AccountStats.totalOutbound hidden) = true)
  /\ accountProvinceChartData records selectedAccount
     = firstn 20 (calculateAccountProvinceStats records (Some selectedAccount))
  /\ (List.length (accountProvinceChartData records selectedAccount) <= 20)%nat
  /\ (Forall (fun r => is_int (total_outbound_count r) = true) records ->
      forall shown hidden,
        In shown (accountProvinceChartData records selectedAccount) ->
        In hidden
          (skipn 20
             (calculateAccountProvinceStats records (Some selectedAccount))) ->
        num_geb (AccountProvinceStats.totalOutbound shown)
          (AccountProvinceStats.totalOutbound hidden) = true).
Proof.
  assert (Heq : accountProvinceChartData records selectedAccount
                = firstn 20
                    (calculateAccountProvinceStats records
                       (Some selectedAccount))).
  { unfold accountProvinceChartData.
    destruct (String.eqb_spec selectedAccount "") as [->|]; reflexivity. }
  split; [apply firstn_le_length|]. split.
  { intros Hint shown hidden Hs Hh.
    refine (firstn_skipn_desc AccountStats.totalOutbound _ 15 _ _ _ Hs Hh).
    now apply calculateAccountStats_desc. }
  split; [exact Heq|]. rewrite Heq.
  split; [apply firstn_le_length|].
  intros Hint shown hidden Hs Hh.
  refine (firstn_skipn_desc AccountProvinceStats.totalOutbound _ 20 _ _ _
            Hs Hh).
  now apply calculateAccountProvinceStats_desc.
Qed.

Lemma report_charts_top_rows_witness :
  let records :=
    (map (fun account => sample_record account "bj" "31" 5 1 0 0)
       [ "a01"; "a02"; "a03"; "a04"; "a05"; "a06"; "a07"; "a08";
         "a09"; "a10"; "a11"; "a12"; "a13"; "a14"; "a15" ]
     ++ [ sample_record "b" "sh" "31" 3 1 0 0 ])%list in
  let shown := accountRow ("a01", bucketUpd None
                                    (sample_record "a01" "bj" "31" 5 1 0 0)) in
  let hidden := accountRow ("b", bucketUpd None
                                   (sample_record "b" "sh" "31" 3 1 0 0)) in
  Forall (fun r => is_int (total_outbound_count r) = true) records
  /\ In shown (accountChartData records)
  /\ In hidden (skipn 15 (calculateAccountStats records))
  /\ num_geb (AccountStats.totalOutbound shown)
       (AccountStats.totalOutbound hidden) = true.
Proof.
  cbv zeta.
  set (records :=
         (map (fun account => sample_record account "bj" "31" 5 1 0 0)
            [ "a01"; "a02"; "a03"; "a04"; "a05"; "a06"; "a07"; "a08";
              "a09"; "a10"; "a11"; "a12"; "a13"; "a14"; "a15" ]
          ++ [ sample_record "b" "sh" "31" 3 1 0 0 ])%list).
  assert (Hint : Forall (fun r => is_int (total_outbound_count r) = true)
                   records).
  { repeat constructor. }
  assert (Hshown : In (accountRow ("a01", bucketUpd None
                         (sample_record "a01" "bj" "31" 5 1 0 0)))
                     (accountChartData records)).
  { left. reflexivity. }
  assert (Hhidden : In (accountRow ("b", bucketUpd None
                          (sample_record "b" "sh" "31" 3 1 0 0)))
                      (skipn 15 (calculateAccountStats records))).
  { left. reflexivity. }
  split; [exact Hint|]. split; [exact Hshown|]. split; [exact Hhidden|].
  exact (proj1 (proj2 (report_charts_top_rows records "")) Hint _ _
           Hshown Hhidden).
Defined.

Lemma barData_top20_witness :
  let records := [ sample_record "a" "bj" "31" 5 1 0 0;
                   sample_record "b" "sh" "31" 0 0 0 0 ] in
  let data := calculateProvinceStats records None in
  Forall (fun r => is_int (total_outbound_count r) = true) records
  /\ map BarDatum.name (barData data) = ["bj"]
  /\ sortedData data
     = filter (fun d => (ProvinceStats.totalOutbound d >? Int 0)%js) data.
Proof.
  cbv zeta.
  assert (Hint : Forall (fun r => is_int (total_outbound_count r) = true)
                   [ sample_record "a" "bj" "31" 5 1 0 0;
                     sample_record "b" "sh" "31" 0 0 0 0 ]).
  { repeat constructor. }
  split; [exact Hint|]. split; [reflexivity|].
  exact (proj2 (proj2 (proj2 (proj2 (proj2 (proj2
           (barData_top20 [] _ None)))))) Hint).
Defined.

(** The hypothesis of finite counters is needed.  A province or an account
    with an infinite counter of each sign has the total [NaN], which the
    comparator of the sort cannot place: the table of the provinces is then
    not in the order of the chart, and the chart of the accounts shows a row
    whose total is not above that of a row it leaves out. *)
Lemma charts_with_NaN_totals :
  let provinces := [ sample_record "a" "A" "31" 5 1 0 0;
                     sample_counts "b" "B" "31" (Inf false) (Int 0);
                     sample_counts "b" "B" "31" (Inf true) (Int 0);
                     sample_record "c" "C" "31" 7 1 0 0 ] in
  let accounts :=
    ([ sample_counts "n" "bj" "31" (Inf false) (Int 0);
       sample_counts "n" "bj" "31" (Inf true) (Int 0) ]
     ++ map (fun account => sample_record account "bj" "31" 5 1 0 0)
          [ "a01"; "a02"; "a03"; "a04"; "a05"; "a06"; "a07"; "a08";
            "a09"; "a10"; "a11"; "a12"; "a13"; "a14"; "a15" ])%list in
  map ProvinceStats.province (calculateProvinceStats provinces None)
  = ["A"; "B"; "C"]
  /\ map ProvinceStats.province
       (sortedData (calculateProvinceStats provinces None))
     = ["C"; "A"]
  /\ map (fun row => (AccountStats.account row, AccountStats.totalOutbound row))
       (firstn 1 (accountChartData accounts))
     = [ ("n", Nan) ]
  /\ map (fun row => (AccountStats.account row, AccountStats.totalOutbound row))
       (skipn 15 (calculateAccountStats accounts))
     = [ ("a15", Int 5) ]
  /\ num_geb Nan (Int 5) = false.
Proof.
  cbv zeta. repeat split; vm_compute; reflexivity.
Qed.

(** ** Decimal digits *)

Lemma is_digit_range (c : ascii) : is_digit c = true -> 48 <= code c <= 57.
Proof.
  unfold is_digit. rewrite andb_true_iff, !Z.leb_le. tauto.
Qed.

Lemma digit_value_digit (c : ascii) :
  is_digit c = true -> digit_value 10 c = Some (code c - 48).
Proof.
  intros H. pose proof (is_digit_range c H) as Hr.
  unfold digit_value. fold (is_digit c). rewrite H.
  destruct (Z.ltb_spec (code c - 48) 10); [reflexivity | lia].
Qed.

Lemma parse_digits_digits (s : string) (a : Z) :
  all_digits s = true ->
  parse_digits 10 s (Some a) = Some (digits_value s a).
Proof.
  revert a. induction s as [|c s IH]; intros a; simpl; [reflexivity|].
  rewrite andb_true_iff. intros [Hc Hs].
  rewrite (digit_value_digit c Hc). simpl. now apply IH.
Qed.

Lemma trim_start_digit (c : ascii) (s : string) :
  is_digit c = true -> trim_start (String c s) = String c s.
Proof.
  intros H. pose proof (is_digit_range c H) as Hr. cbn [trim_start].
  assert (H1 : white1 (code c) = false).
  { unfold white1. rewrite orb_false_iff, andb_false_iff, !Z.leb_gt, Z.eqb_neq.
    lia. }
  rewrite H1. destruct s as [|c2 s]; [reflexivity|].
  assert (H2 : white2 (code c) (code c2) = false).
  { unfold white2. rewrite andb_false_iff, !Z.eqb_neq. lia. }
  rewrite H2. destruct s as [|c3 s]; [reflexivity|].
  assert (H3 : white3 (code c) (code c2) (code c3) = false).
  { unfold white3.
    assert (E : forall n, n > 57 -> (code c =? n) = false).
    { intros n Hn. apply Z.eqb_neq. lia. }
    rewrite !E by lia. reflexivity. }
  now rewrite H3.
Qed.

Lemma digit_not_char (c : ascii) (x : ascii) :
  is_digit c = true -> is_digit x = false -> Ascii.eqb c x = false.
Proof.
  intros Hc Hx. destruct (Ascii.eqb_spec c x) as [->|]; [congruence|reflexivity].
Qed.

(** [parseInt] reads a text made of decimal digits as the double for its
    decimal value. *)
Lemma parseInt_digits (s : string) :
  test_digits s = true -> parseInt s = to_double (digits_value s 0).
Proof.
  destruct s as [|c s]; [discriminate|].
  cbn [test_digits all_digits]. rewrite andb_true_iff. intros [Hc Hs].
  unfold parseInt. rewrite (trim_start_digit c s Hc).
  assert (Hsign : strip_sign (String c s) = (1, String c s)).
  { unfold strip_sign.
    rewrite (digit_not_char c "-" Hc eq_refl), (digit_not_char c "+" Hc eq_refl).
    reflexivity. }
  rewrite Hsign.
  assert (Hprefix : strip_prefix (String c s) = (10, String c s)).
  { unfold strip_prefix. destruct s as [|c2 s]; [reflexivity|].
    cbn [all_digits] in Hs. apply andb_true_iff in Hs. destruct Hs as [Hc2 _].
    rewrite (digit_not_char c2 "x" Hc2 eq_refl),
      (digit_not_char c2 "X" Hc2 eq_refl).
    now rewrite andb_false_r. }
  rewrite Hprefix. cbn [parse_digits].
  rewrite (digit_value_digit c Hc). cbn [or_default].
  rewrite (parse_digits_digits s _ Hs). cbn [digits_value].
  now rewrite Z.mul_1_l.
Qed.

Lemma parseInt_digits_exact (s : string) :
  test_digits s = true -> 0 <= digits_value s 0 < 2 ^ 53 ->
  parseInt s = Int (digits_value s 0).
Proof.
  intros Hs Hv. rewrite (parseInt_digits s Hs). apply to_double_exact. lia.
Qed.

Lemma code_digit_char (d : Z) :
  0 <= d < 10 -> digit_char d = String (ascii_of_N (Z.to_N (48 + d))) ""
                 /\ code (ascii_of_N (Z.to_N (48 + d))) = 48 + d.
Proof.
  intros Hd. split; [reflexivity|]. unfold code.
  rewrite N_ascii_embedding; lia.
Qed.

Lemma all_digits_append (s t : string) :
  all_digits (s ++ t) = all_digits s && all_digits t.
Proof.
  induction s as [|c s IH]; simpl; [reflexivity|].
  now rewrite IH, andb_assoc.
Qed.

Lemma digits_value_append (s t : string) (a : Z) :
  digits_value (s ++ t) a = digits_value t (digits_value s a).
Proof.
  revert a. induction s as [|c s IH]; intros a; simpl; [reflexivity|].
  apply IH.
Qed.

Lemma digit_char_spec (d : Z) :
  0 <= d < 10 ->
  all_digits (digit_char d) = true
  /\ (forall a, digits_value (digit_char d) a = 10 * a + d).
Proof.
  intros Hd. destruct (code_digit_char d Hd) as [_ Hcode].
  unfold digit_char. cbn [all_digits digits_value]. unfold is_digit.
  rewrite Hcode. split.
  - rewrite andb_true_r, andb_true_iff, !Z.leb_le. lia.
  - intros a. lia.
Qed.

Lemma decimal_digits_S (fuel : nat) (n : Z) :
  decimal_digits (S fuel) n
  = if n <? 10 then digit_char n
    else decimal_digits fuel (n / 10) ++ digit_char (n mod 10).
Proof. reflexivity. Qed.

Lemma decimal_digits_spec (fuel : nat) (n : Z) :
  0 <= n < 10 ^ Z.of_nat (S fuel) ->
  test_digits (decimal_digits (S fuel) n) = true
  /\ digits_value (decimal_digits (S fuel) n) 0 = n.
Proof.
  revert n. induction fuel as [|fuel IH]; intros n Hn;
    rewrite decimal_digits_S; destruct (Z.ltb_spec n 10) as [Hlt|Hge].
  - destruct (digit_char_spec n ltac:(lia)) as [Hall Hval].
    split; [exact Hall | rewrite Hval; lia].
  - change (10 ^ Z.of_nat 1) with 10 in Hn. lia.
  - destruct (digit_char_spec n ltac:(lia)) as [Hall Hval].
    split; [exact Hall | rewrite Hval; lia].
  - assert (Hq : 0 <= n / 10 < 10 ^ Z.of_nat (S fuel)).
    { rewrite (Nat2Z.inj_succ (S fuel)), Z.pow_succ_r in Hn by lia.
      split; [apply Z.div_pos; lia|].
      apply Z.div_lt_upper_bound; lia. }
    destruct (IH _ Hq) as [Hall Hval].
    pose proof (Z.mod_pos_bound n 10 ltac:(lia)) as Hm.
    destruct (digit_char_spec (n mod 10) Hm) as [Hall' Hval'].
    split.
    + destruct (decimal_digits (S fuel) (n / 10)) as [|c s] eqn:E;
        [discriminate|].
      change (String c s ++ digit_char (n mod 10))
        with (String c (s ++ digit_char (n mod 10))).
      cbn [test_digits all_digits] in *.
      rewrite all_digits_append, Hall'.
      apply andb_true_iff in Hall. destruct Hall as [-> ->]. reflexivity.
    + rewrite digits_value_append, Hval, Hval'.
      pose proof (Z.div_mod n 10 ltac:(lia)). lia.
Qed.

(** The decimal digits of a number that is not negative are read back by
    [parseInt] as the double for the number. *)
Lemma decimal_spec (n : Z) :
  0 <= n ->
  test_digits (decimal n) = true /\ parseInt (decimal n) = to_double n.
Proof.
  intros Hn. unfold decimal.
  assert (Hb : 0 <= n < 10 ^ Z.of_nat (S (Z.to_nat (Z.log2 n)))).
  { rewrite Nat2Z.inj_succ, Z2Nat.id by apply Z.log2_nonneg.
    split; [assumption|].
    apply Z.lt_le_trans with (2 ^ Z.succ (Z.log2 n)).
    - destruct (Z.eq_dec n 0) as [->|Hne]; [reflexivity|].
      apply Z.log2_spec. lia.
    - apply Z.pow_le_mono_l. lia. }
  destruct (decimal_digits_spec _ _ Hb) as [Hall Hval].
  split; [assumption|].
  now rewrite (parseInt_digits _ Hall), Hval.
Qed.

(** ** Splitting keys *)

Lemma starts_with_append (prefix s : string) :
  starts_with prefix s = true -> exists tail, s = prefix ++ tail.
Proof.
  revert s. induction prefix as [|a prefix IH]; intros s; simpl.
  - intros _. exists s. reflexivity.
  - destruct s as [|b s]; [discriminate|].
    rewrite andb_true_iff. intros [Hab Hs].
    apply Ascii.eqb_eq in Hab. subst b.
    destruct (IH s Hs) as [tail ->]. exists tail. reflexivity.
Qed.

Lemma starts_with_prefix (prefix tail : string) :
  starts_with prefix (prefix ++ tail) = true.
Proof.
  induction prefix as [|a prefix IH]; simpl; [reflexivity|].
  now rewrite Ascii.eqb_refl, IH.
Qed.

Lemma split_no_sep (sep : ascii) (p : string) :
  contains sep p = false -> split sep p = [p].
Proof.
  induction p as [|c p IH]; simpl; [reflexivity|].
  rewrite orb_false_iff. intros [Hc Hp]. now rewrite Hc, (IH Hp).
Qed.

Lemma split_sep_prefix (sep : ascii) (p r : string) :
  contains sep p = false ->
  split sep (p ++ String sep r) = p :: split sep r.
Proof.
  induction p as [|c p IH]; simpl.
  - intros _. now rewrite Ascii.eqb_refl.
  - rewrite orb_false_iff. intros [Hc Hp]. now rewrite Hc, (IH Hp).
Qed.

Lemma split_head (sep : ascii) (s : string) :
  exists p,
    contains sep p = false
    /\ ((s = p /\ split sep s = [p])
        \/ exists r, s = p ++ String sep r /\ split sep s = p :: split sep r).
Proof.
  induction s as [|c s IH].
  - exists "". split; [reflexivity|]. left. split; reflexivity.
  - destruct (Ascii.eqb_spec c sep) as [->|Hne].
    + exists "". split; [reflexivity|]. right. exists s.
      split; [reflexivity|]. simpl. now rewrite Ascii.eqb_refl.
    + assert (Hc : Ascii.eqb c sep = false).
      { destruct (Ascii.eqb_spec c sep); [contradiction | reflexivity]. }
      destruct IH as [p [Hp [[-> Hs]|[r [-> Hs]]]]].
      * exists (String c p). split; [simpl; now rewrite Hc, Hp|].
        left. split; [reflexivity|]. simpl. now rewrite Hc, Hs.
      * exists (String c p). split; [simpl; now rewrite Hc, Hp|].
        right. exists r. split; [reflexivity|].
        simpl. now rewrite Hc, Hs.
Qed.

Lemma sep_prefix_unique (c : ascii) (a1 r1 a2 r2 : string) :
  contains c a1 = false -> contains c a2 = false ->
  (r1 = "" \/ exists r', r1 = String c r') ->
  a1 ++ r1 = a2 ++ String c r2 -> a1 = a2.
Proof.
  revert a2. induction a1 as [|x a1 IH]; intros [|d a2]; simpl.
  - reflexivity.
  - rewrite orb_false_iff. intros _ [Hd _] [->|[r' ->]]; [discriminate|].
    intros [= <- _]. now rewrite Ascii.eqb_refl in Hd.
  - rewrite orb_false_iff. intros [Hx _] _ _ [= -> _].
    now rewrite Ascii.eqb_refl in Hx.
  - rewrite !orb_false_iff. intros [_ H1] [_ H2] Hr [= -> Heq].
    f_equal. eapply IH; eassumption.
Qed.

Lemma all_digits_no_underscore (s : string) :
  all_digits s = true -> contains "_" s = false.
Proof.
  induction s as [|c s IH]; simpl; [reflexivity|].
  rewrite andb_true_iff. intros [Hc Hs].
  now rewrite (digit_not_char c "_" Hc eq_refl), (IH Hs).
Qed.

Lemma test_digits_all (s : string) : test_digits s = true -> all_digits s = true.
Proof.
  destruct s; [discriminate | auto].
Qed.

Lemma split_reportData (tail : string) :
  split "_" ("reportData_" ++ tail) = "reportData" :: split "_" tail.
Proof.
  change ("reportData_" ++ tail) with ("reportData" ++ String "_" tail).
  now apply split_sep_prefix.
Qed.

(** ** Pruning the stored reports *)

(** A difference of two integers is above a safe integer, as a double,
    exactly when it is above it. *)
Lemma to_double_gtb (z d : Z) :
  0 <= d < 2 ^ 53 -> (to_double z >? Int d)%js = (d <? z).
Proof.
  intros Hd. unfold num_gtb.
  destruct (Z.lt_ge_cases (Z.abs z) (2 ^ 53)) as [Hz|Hz].
  { now rewrite to_double_exact. }
  pose proof (round_large_lower _ Hz) as Hm. unfold to_double.
  destruct (Z.leb_spec (2 ^ 1024) (round_to_53_bits (Z.abs z)));
    cbn [num_ltb].
  - destruct (Z.ltb_spec z 0), (Z.ltb_spec d z); try reflexivity; lia.
  - destruct (Z.sgn_spec z) as [[Hpos Hs]|[[Hzero _]|[Hneg Hs]]];
      [|lia|]; rewrite Hs.
    + destruct (Z.ltb_spec d (1 * round_to_53_bits (Z.abs z))),
               (Z.ltb_spec d z); try reflexivity; lia.
    + destruct (Z.ltb_spec d (-1 * round_to_53_bits (Z.abs z))),
               (Z.ltb_spec d z); try reflexivity; lia.
Qed.

Lemma ONE_DAY_safe : 0 <= ONE_DAY < 2 ^ 53.
Proof.
  split; [discriminate | reflexivity].
Qed.

Section PruneFacts.
Variable reorder : Storage.t -> Storage.t.
Hypothesis reorder_perm : forall s, Permutation (reorder s) s.
Implicit Types (store : Storage.t).

Lemma removeItem_In k store e :
  In e (Storage.removeItem reorder k store) -> In e store.
Proof.
  unfold Storage.removeItem.
  destruct (Storage.getItem k store); [|auto].
  intros H. apply (Permutation_in _ (reorder_perm _)) in H.
  apply filter_In in H. tauto.
Qed.

Lemma removeItem_keep k store k' v :
  In (k', v) store -> k' <> k ->
  In (k', v) (Storage.removeItem reorder k store).
Proof.
  intros Hin Hne. unfold Storage.removeItem.
  destruct (Storage.getItem k store); [|assumption].
  apply (Permutation_in _ (Permutation_sym (reorder_perm _))).
  apply filter_In. split; [assumption|]. simpl.
  destruct (String.eqb_spec k' k); [contradiction | reflexivity].
Qed.

Lemma removeItem_length k store :
  (Storage.length (Storage.removeItem reorder k store)
   <= Storage.length store)%nat.
Proof.
  unfold Storage.removeItem, Storage.length.
  destruct (Storage.getItem k store); [|lia].
  rewrite (Permutation_length (reorder_perm _)). apply filter_length_le.
Qed.

(** One turn of the loop leaves the store as it is or removes the key at
    index [i], and then that key is an expired report key. *)
Lemma pruneStep_cases now i store :
  pruneStep reorder now i store = store
  \/ exists key,
       Storage.key i store = Some key
       /\ expired now key
       /\ pruneStep reorder now i store = Storage.removeItem reorder key store.
Proof.
  unfold pruneStep.
  destruct (Storage.key i store) as [key|]; [|now left].
  destruct (negb (String.eqb key "") && starts_with "reportData_" key) eqn:E1;
    [|now left].
  apply andb_true_iff in E1. destruct E1 as [_ Hsw].
  destruct (starts_with_append _ _ Hsw) as [tail Hkey].
  destruct (split_head "_" tail) as [p [Hp Hsplit]].
  assert (Hhd : nth_error (split "_" key) 1 = Some p).
  { rewrite Hkey, split_reportData.
    destruct Hsplit as [[_ ->]|[r [_ ->]]]; reflexivity. }
  rewrite Hhd.
  destruct (String.eqb_spec p "") as [|Hne]; [now left|]. cbn [negb].
  rewrite (split_no_sep _ _ Hp). cbn [hd].
  assert (Hor : or_str p "0" = p).
  { unfold or_str. destruct (String.eqb_spec p ""); [contradiction|auto]. }
  rewrite Hor.
  destruct (num_truthy (parseInt p)
            && (Int now - parseInt p >? Int ONE_DAY)%js) eqn:E2; [|now left].
  apply andb_true_iff in E2. destruct E2 as [Hz Hold].
  right. exists key. split; [reflexivity|]. split; [|reflexivity].
  destruct Hsplit as [[-> _]|[r [-> _]]].
  - exists p, "", (parseInt p). rewrite append_nil_r. repeat split; auto.
  - exists p, (String "_" r), (parseInt p). repeat split; eauto.
Qed.

Lemma pruneStep_length now i store :
  (Storage.length (pruneStep reorder now i store) <= Storage.length store)%nat.
Proof.
  destruct (pruneStep_cases now i store) as [->|[key [_ [_ ->]]]];
    [lia | apply removeItem_length].
Qed.

Lemma pruneLoop_safe fuel now i store :
  (forall e, In e (pruneLoop reorder fuel now i store) -> In e store)
  /\ (forall k v, In (k, v) store ->
        In (k, v) (pruneLoop reorder fuel now i store) \/ expired now k).
Proof.
  revert i store. induction fuel as [|fuel IH]; intros i store; simpl;
    [split; auto|].
  destruct (i <? Storage.length store)%nat; [|split; auto].
  destruct (IH (S i) (pruneStep reorder now i store)) as [IH1 IH2].
  destruct (pruneStep_cases now i store) as [Heq|[key [_ [Hexp Heq]]]];
    rewrite Heq in *.
  - split; assumption.
  - split.
    + intros e He. eapply removeItem_In. now apply IH1.
    + intros k v Hin. destruct (String.eqb_spec k key) as [->|Hne].
      * now right.
      * apply IH2. now apply removeItem_keep.
Qed.

Lemma pruneLoop_fuel fuel extra now i store :
  (Storage.length store - i <= fuel)%nat ->
  pruneLoop reorder (fuel + extra) now i store
  = pruneLoop reorder fuel now i store.
Proof.
  revert i store. induction fuel as [|fuel IH]; intros i store Hlen.
  - simpl. destruct extra as [|extra]; [reflexivity|]. simpl.
    destruct (Nat.ltb_spec i (Storage.length store)); [lia | reflexivity].
  - simpl. destruct (Nat.ltb_spec i (Storage.length store)); [|reflexivity].
    apply IH. pose proof (pruneStep_length now i store). lia.
Qed.

Lemma expired_starts_with now key :
  expired now key -> starts_with "reportData_" key = true.
Proof.
  intros (idPart & rest & t & -> & _). apply starts_with_prefix.
Qed.

Lemma expired_reportKey now t random :
  0 <= t < 2 ^ 53 -> expired now (reportKey t random) -> now - t > ONE_DAY.
Proof.
  intros Ht (idPart & rest & t' & Hkey & Hid & Hrest & Hparse & _ & Hold).
  destruct (decimal_spec t (proj1 Ht)) as [Hdigits Hdec].
  unfold reportKey in Hkey.
  assert (Heq : decimal t ++ "_" ++ random = idPart ++ rest).
  { revert Hkey. generalize (decimal t ++ "_" ++ random) (idPart ++ rest).
    intros x y [= H]. exact H. }
  assert (idPart = decimal t).
  { eapply sep_prefix_unique; [exact Hid | | exact Hrest | symmetry; exact Heq].
    apply all_digits_no_underscore, test_digits_all, Hdigits. }
  subst idPart. rewrite Hdec, to_double_exact in Hparse by lia.
  subst t'. cbn [num_sub] in Hold.
  rewrite (to_double_gtb _ _ ONE_DAY_safe) in Hold.
  apply Z.ltb_lt in Hold. lia.
Qed.
End PruneFacts.

Lemma pruneOldReports_spec (reorder : Storage.t -> Storage.t)
  (now : Z) (store : Storage.t) :
  (forall s, Permutation (reorder s) s) ->
  let pruned := pruneOldReports reorder now store in
  (forall e, In e pruned -> In e store)
  /\ (forall k v, In (k, v) store -> In (k, v) pruned \/ expired now k)
  /\ (forall k v, In (k, v) store -> starts_with "reportData_" k = false ->
                  In (k, v) pruned)
  /\ (forall fuel, (Storage.length store <= fuel)%nat ->
                   pruneLoop reorder fuel now 0 store = pruned).
Proof.
  intros Hperm. cbv zeta. unfold pruneOldReports.
  destruct (pruneLoop_safe reorder Hperm (Storage.length store) now 0 store)
    as [H1 H2].
  split; [exact H1|]. split; [exact H2|]. split.
  - intros k v Hin Hsw. destruct (H2 k v Hin) as [H|H]; [exact H|].
    apply expired_starts_with in H. congruence.
  - intros fuel Hfuel.
    replace fuel
      with (Storage.length store + (fuel - Storage.length store))%nat by lia.
    apply pruneLoop_fuel; [assumption | lia].
Qed.

(** Pruning the stored reports is safe, whatever order the browser gives to
    the keys: it adds nothing, it removes only expired report keys, so every
    key that does not start with "reportData_", the theme among them, stays
    with its value, and the loop ends by its own test within as many turns
    as the store has entries. *)
Theorem pruneOldReports_safe (reorder : Storage.t -> Storage.t)
  (now : Z) (store : Storage.t) :
  (forall s, Permutation (reorder s) s) ->
  let pruned := pruneOldReports reorder now store in
  (forall e, In e pruned -> In e store)
  /\ (forall k v, In (k, v) store -> In (k, v) pruned \/ expired now k)
  /\ (forall k v, In (k, v) store -> starts_with "reportData_" k = false ->
                  In (k, v) pruned)
  /\ (forall fuel, (Storage.length store <= fuel)%nat ->
                   pruneLoop reorder fuel now 0 store = pruned).
Proof.
  exact (pruneOldReports_spec reorder now store).
Qed.

Lemma pruneOldReports_safe_witness :
  let store := [ ("theme", "dark");
                 (reportKey 1600000000000 "k3j2h1g9a", "[]") ] in
  (forall s : Storage.t, Permutation s s)
  /\ In ("theme", "dark")
       (pruneOldReports (fun s => s) 1700000000000 store).
Proof.
  cbv zeta.
  assert (Hperm : forall s : Storage.t, Permutation ((fun s => s) s) s).
  { intros s. apply Permutation_refl. }
  split; [exact Hperm|].
  refine (proj1 (proj2 (proj2
            (pruneOldReports_safe (fun s => s) 1700000000000 _ Hperm)))
            "theme" "dark" _ eq_refl).
  left. reflexivity.
Defined.

Lemma In_set_same {V : Type} (k : string) (v : V) (m : JsMap.t V) :
  In (k, v) (JsMap.set k v m).
Proof.
  apply JsMapFacts.get_Some_In, JsMapFacts.get_set_same.
Qed.

(** A report stored by [handleRowClick] at the time [t], a positive integer
    below 2^53 as every time of the clock is, outlives every pruning that
    runs within a day of [t], whatever its random part and whatever else the
    store holds; once more than a day has passed, the turn of the loop that
    reads its key removes it. *)
Theorem stored_report_lifetime (reorder : Storage.t -> Storage.t)
  (now t : Z) (random json : string) (store : Storage.t) :
  (forall s, Permutation (reorder s) s) ->
  0 < t < 2 ^ 53 ->
  (now - t <= ONE_DAY ->
   In (reportKey t random, json)
     (pruneOldReports reorder now (storeReport reorder t random json store)))
  /\ (now - t > ONE_DAY ->
      forall i, Storage.key i store = Some (reportKey t random) ->
        pruneStep reorder now i store
        = Storage.removeItem reorder (reportKey t random) store).
Proof.
  intros Hperm Ht.
  destruct (decimal_spec t ltac:(lia)) as [Hdigits Hdec].
  rewrite to_double_exact in Hdec by lia.
  pose proof (all_digits_no_underscore _ (test_digits_all _ Hdigits)) as Hno.
  split.
  - intros Hrecent.
    assert (Hin : In (reportKey t random, json)
                    (storeReport reorder t random json store)).
    { unfold storeReport, Storage.setItem.
      destruct (Storage.getItem (reportKey t random) store).
      - apply In_set_same.
      - apply (Permutation_in _ (Permutation_sym (Hperm _))).
        apply In_set_same. }
    destruct (pruneOldReports_spec reorder now
                (storeReport reorder t random json store) Hperm)
      as (_ & Hkeep & _).
    destruct (Hkeep _ _ Hin) as [H|H]; [exact H|].
    apply expired_reportKey in H; lia.
  - intros Hold i Hkey. unfold pruneStep. rewrite Hkey.
    assert (Hne : String.eqb (reportKey t random) "" = false) by reflexivity.
    rewrite Hne. unfold reportKey at 1. rewrite starts_with_prefix.
    cbn [negb andb].
    assert (Hsplit : split "_" (reportKey t random)
                     = "reportData" :: decimal t :: split "_" random).
    { unfold reportKey. rewrite split_reportData. f_equal.
      change (decimal t ++ "_" ++ random)
        with (decimal t ++ String "_" random).
      now apply split_sep_prefix. }
    rewrite Hsplit. cbn [nth_error].
    assert (Hd : String.eqb (decimal t) "" = false).
    { destruct (decimal t); [discriminate | reflexivity]. }
    rewrite Hd. cbn [negb].
    rewrite (split_no_sep _ _ Hno). cbn [hd].
    unfold or_str. rewrite Hd, Hdec. cbn [num_truthy num_sub].
    rewrite (to_double_gtb _ _ ONE_DAY_safe).
    destruct (Z.eqb_spec t 0); [lia|].
    destruct (Z.ltb_spec ONE_DAY (now - t)); [|lia].
    reflexivity.
Qed.

Lemma stored_report_lifetime_witness :
  (forall s : Storage.t, Permutation s s)
  /\ 0 < 1700000000000 < 2 ^ 53
  /\ 1700000000001 - 1700000000000 <= ONE_DAY
  /\ In (reportKey 1700000000000 "k3j2h1g9a", "[]")
       (pruneOldReports (fun s => s) 1700000000001
          (storeReport (fun s => s) 1700000000000 "k3j2h1g9a" "[]"
             [("theme", "dark")])).
Proof.
  assert (Hperm : forall s : Storage.t, Permutation ((fun s => s) s) s).
  { intros s. apply Permutation_refl. }
  assert (Ht : 0 < 1700000000000 < 2 ^ 53) by (split; reflexivity).
  assert (Hrecent : 1700000000001 - 1700000000000 <= ONE_DAY)
    by (vm_compute; discriminate).
  split; [exact Hperm|]. split; [exact Ht|]. split; [exact Hrecent|].
  exact (proj1 (stored_report_lifetime (fun s => s) 1700000000001
                  1700000000000 "k3j2h1g9a" "[]" [("theme", "dark")]
                  Hperm Ht) Hrecent).
Defined.


(** The bound on [t] is needed, and no time of the clock reaches it: the
    identifier of a report stored at 2^53 + 1 is read back as 2^53, and the
    pruning that runs exactly one day later removes the report. *)
Lemma timestamp_above_2_53_is_rounded :
  let t := 9007199254740993 in
  parseInt (decimal t) = Int 9007199254740992
  /\ pruneOldReports (fun s => s) (t + ONE_DAY)
       (storeReport (fun s => s) t "x" "{}" [])
     = [].
Proof.
  cbv zeta. split; vm_compute; reflexivity.
Qed.
(** ** Rows as a function of the records of their key *)

Lemma bucket_sums_eq (b : Bucket.t) (rs : list BlacklistRecord.t) :
  bucket_sums b rs -> b = bucket_of rs.
Proof.
  unfold bucket_sums, bucket_of. destruct b; simpl.
  intros (-> & -> & -> & -> & -> & ->). reflexivity.
Qed.

Lemma groupBy_entries_spec (key : BlacklistRecord.t -> string)
  (rs : list BlacklistRecord.t) (k : string) (b : Bucket.t) :
  In (k, b) (JsMap.entries (groupBy key bucketUpd rs JsMap.empty)) <->
  In k (map key rs) /\ b = bucket_of (with_key key k rs).
Proof.
  split.
  - intros Hin. split.
    + apply In_entries_keys in Hin. rewrite groupBy_keys in Hin.
      now apply first_seen_In.
    + apply bucket_sums_eq. now apply groupBy_bucket_sums.
  - intros [Hk ->].
    assert (Hkeys : In k (JsMap.keys (groupBy key bucketUpd rs JsMap.empty))).
    { rewrite groupBy_keys. now apply first_seen_In. }
    apply keys_In_entries in Hkeys. destruct Hkeys as [v Hv].
    rewrite <- (bucket_sums_eq v _ (groupBy_bucket_sums key rs k v Hv)).
    exact Hv.
Qed.

Lemma Permutation_filter {A : Type} (p : A -> bool) (l l' : list A) :
  Permutation l l' -> Permutation (filter p l) (filter p l').
Proof.
  induction 1 as [|x l l' _ IH|x y l|l l' l'' _ IH1 _ IH2]; simpl.
  - constructor.
  - destruct (p x); [now constructor | assumption].
  - destruct (p x), (p y); try reflexivity. apply perm_swap.
  - now transitivity (filter p l').
Qed.

(** A counter that is safe to add adds up to the same number in any
    order. *)
Lemma sum_num_perm (c : BlacklistRecord.t -> num)
  (rs rs' : list BlacklistRecord.t) :
  Permutation rs rs' -> safe c rs ->
  sum_num (map c rs) = sum_num (map c rs').
Proof.
  intros Hperm Hsafe.
  rewrite (safe_sum c rs Hsafe),
    (safe_sum c rs' (safe_perm c rs rs' Hperm Hsafe)).
  f_equal. now apply exact_sum_perm.
Qed.

Lemma bucket_of_perm (rs rs' : list BlacklistRecord.t) :
  Permutation rs rs' -> safe_counters rs -> bucket_of rs = bucket_of rs'.
Proof.
  intros H Hsafe. unfold bucket_of.
  f_equal; apply (sum_num_perm _ _ _ H); apply Hsafe; simpl; tauto.
Qed.

Lemma safe_counters_filter (p : BlacklistRecord.t -> bool)
  (rs : list BlacklistRecord.t) :
  safe_counters rs -> safe_counters (filter p rs).
Proof.
  intros H c Hc. apply safe_filter. now apply H.
Qed.

Section RowsOfKeys.
Context {Row : Type}.
Variable key : BlacklistRecord.t -> string.
Variable row : string * Bucket.t -> Row.
Variable rowKey : Row -> string.
Hypothesis rowKey_row : forall k b, rowKey (row (k, b)) = k.

Lemma keyed_rows_NoDup (rs : list BlacklistRecord.t) :
  NoDup (map row (JsMap.entries (groupBy key bucketUpd rs JsMap.empty))).
Proof.
  apply (NoDup_map_inv rowKey).
  rewrite map_map.
  rewrite (map_ext (fun x => rowKey (row x)) fst) by (now intros [k b]).
  apply groupBy_NoDup.
Qed.

Lemma keyed_rows_In (rs : list BlacklistRecord.t) (x : Row) :
  In x (map row (JsMap.entries (groupBy key bucketUpd rs JsMap.empty))) <->
  exists k, In k (map key rs) /\ x = row (k, bucket_of (with_key key k rs)).
Proof.
  rewrite in_map_iff. split.
  - intros [[k b] [<- Hin]]. apply groupBy_entries_spec in Hin.
    destruct Hin as [Hk ->]. eauto.
  - intros [k [Hk ->]]. exists (k, bucket_of (with_key key k rs)).
    split; [reflexivity|]. now apply groupBy_entries_spec.
Qed.

(** With counters that are safe to add, the rows depend on the order of the
    records only by their own order. *)
Lemma keyed_rows_perm (rs rs' : list BlacklistRecord.t) :
  Permutation rs rs' -> safe_counters rs ->
  Permutation
    (map row (JsMap.entries (groupBy key bucketUpd rs JsMap.empty)))
    (map row (JsMap.entries (groupBy key bucketUpd rs' JsMap.empty))).
Proof.
  intros Hperm Hsafe.
  apply NoDup_Permutation; try apply keyed_rows_NoDup.
  intros x. rewrite !keyed_rows_In.
  assert (Hsame : forall k, bucket_of (with_key key k rs)
                            = bucket_of (with_key key k rs')).
  { intros k. apply bucket_of_perm.
    - apply Permutation_filter, Hperm.
    - now apply safe_counters_filter. }
  split; intros [k [Hk ->]]; exists k; (split; [|now rewrite Hsame]).
  - eapply Permutation_in; [apply Permutation_map, Hperm | exact Hk].
  - eapply Permutation_in;
      [apply Permutation_map, Permutation_sym, Hperm | exact Hk].
Qed.
End RowsOfKeys.

Lemma fold_Totals_perm (rs rs' : list BlacklistRecord.t) :
  Permutation rs rs' -> safe_record_counters rs ->
  fold_left Totals.add rs Totals.zero = fold_left Totals.add rs' Totals.zero.
Proof.
  intros H Hsafe. rewrite !fold_Totals_add.
  f_equal; apply (sum_num_perm _ _ _ H); apply Hsafe; simpl; tauto.
Qed.

Lemma safe_record_counters_summed (rs : list BlacklistRecord.t) :
  safe_record_counters rs -> safe_counters rs.
Proof.
  intros H c Hc. apply H. simpl in *. tauto.
Qed.

(** When each counter holds integers whose magnitudes add up to less than
    2^53 over the records, the order of the records in the input does not
    matter to the content of any reduction: the overall statistics are the
    same, and the group, province and account reductions return the same
    rows, in an order that can differ. *)
Theorem reductions_ignore_record_order (rs rs' : list BlacklistRecord.t)
  (g : option string) :
  Permutation rs rs' ->
  safe_record_counters rs ->
  calculateOverallStats rs = calculateOverallStats rs'
  /\ Permutation (calculateGroupStats rs) (calculateGroupStats rs')
  /\ Permutation (calculateProvinceStats rs g) (calculateProvinceStats rs' g)
  /\ Permutation (calculateAccountStats rs) (calculateAccountStats rs').
Proof.
  intros Hperm Hall.
  pose proof (safe_record_counters_summed rs Hall) as Hsafe.
  split; [|split; [|split]].
  - unfold calculateOverallStats.
    now rewrite (fold_Totals_perm _ _ Hperm Hall).
  - unfold calculateGroupStats. rewrite !groupMap_groupBy.
    apply (keyed_rows_perm group groupRow GroupStats.group);
      [reflexivity | assumption | assumption].
  - unfold calculateProvinceStats.
    rewrite !(sort_perm ProvinceStats.totalOutbound), !provinceMap_groupBy.
    apply (keyed_rows_perm provinceKey provinceRow ProvinceStats.province);
      [reflexivity | |];
      unfold provinceFilteredRecords; destruct (truthy g);
      try assumption;
      [now apply Permutation_filter | now apply safe_counters_filter].
  - unfold calculateAccountStats.
    rewrite !(sort_perm AccountStats.totalOutbound), !accountMap_groupBy.
    apply (keyed_rows_perm accountKey accountRow AccountStats.account);
      [reflexivity | assumption | assumption].
Qed.

Lemma reductions_ignore_record_order_witness :
  let a := sample_record "a" "bj" "31" 5 1 0 0 in
  let b := sample_record "b" "sh" "32" 7 2 0 0 in
  Permutation [a; b] [b; a]
  /\ safe_record_counters [a; b]
  /\ calculateOverallStats [a; b] = calculateOverallStats [b; a].
Proof.
  cbv zeta.
  assert (Hperm : Permutation
                    [ sample_record "a" "bj" "31" 5 1 0 0;
                      sample_record "b" "sh" "32" 7 2 0 0 ]
                    [ sample_record "b" "sh" "32" 7 2 0 0;
                      sample_record "a" "bj" "31" 5 1 0 0 ]).
  { apply perm_swap. }
  assert (Hsafe : safe_record_counters
                    [ sample_record "a" "bj" "31" 5 1 0 0;
                      sample_record "b" "sh" "32" 7 2 0 0 ]).
  { intros c Hc. simpl in Hc.
    repeat (destruct Hc as [<-|Hc];
            [split; [repeat constructor | reflexivity]|]).
    destruct Hc. }
  split; [exact Hperm|]. split; [exact Hsafe|].
  exact (proj1 (reductions_ignore_record_order _ _ None Hperm Hsafe)).
Defined.

(** The group reduction has exactly one row for each group label of the
    records, taken as it is, and the account reduction exactly one row for
    each account, a blank one replaced by the sentinel: no label has two
    rows, and the row of a label holds the six counters added up over the
    records of that label, in their order.  So the records with a blank
    account and those with the account "未知" share one row. *)
Theorem group_and_account_rows (records : list BlacklistRecord.t) :
  ((forall row, In row (calculateGroupStats records) <->
      exists k, In k (map group records)
                /\ row = groupRow (k, bucket_of (with_key group k records)))
   /\ NoDup (map GroupStats.group (calculateGroupStats records)))
  /\ ((forall row, In row (calculateAccountStats records) <->
         exists k, In k (map accountKey records)
                   /\ row = accountRow
                              (k, bucket_of (with_key accountKey k records)))
      /\ NoDup (map AccountStats.account (calculateAccountStats records))).
Proof.
  split; (split; [intros row|]).
  - unfold calculateGroupStats. rewrite groupMap_groupBy.
    apply keyed_rows_In.
  - apply group_rows_NoDup.
  - unfold calculateAccountStats.
    rewrite (sort_In AccountStats.totalOutbound), accountMap_groupBy.
    apply keyed_rows_In.
  - apply account_rows_NoDup.
Qed.

(** ** The two modes of an upload *)

(** Given at least one file, [handleUpload] either shows one alert and
    leaves the state as it is, or shows none and replaces the state: in
    single mode by the records of the first file, which are not empty, with
    no batch, and in batch mode by the results of the batch, which are not
    empty, with no single report.  Never are both set by an upload. *)
Theorem handleUpload_modes (Papa_parse : string -> ParseResult.t)
  (results : list UploadedFile.t) (batch : bool) (st : AppState.t) :
  results <> [] ->
  (fst (handleUpload Papa_parse results batch st) = st
   /\ exists message, snd (handleUpload Papa_parse results batch st) = [message])
  \/ (snd (handleUpload Papa_parse results batch st) = []
      /\ ((batch = false
           /\ exists file rest records,
                results = file :: rest
                /\ records = parseCSVData Papa_parse (UploadedFile.content file)
                /\ records <> []
                /\ fst (handleUpload Papa_parse results batch st)
                   = {| AppState.data := Some records;
                        AppState.batchData := None |})
          \/ (batch = true
              /\ batchResults Papa_parse results <> []
              /\ fst (handleUpload Papa_parse results batch st)
                 = {| AppState.data := None;
                      AppState.batchData :=
                        Some (batchResults Papa_parse results) |}))).
Proof.
  exact (handleUpload_outcome Papa_parse results batch st).
Qed.

Lemma handleUpload_modes_witness :
  let files := [ {| UploadedFile.name := "north.csv";
                    UploadedFile.content := sample_csv |};
                 {| UploadedFile.name := "south.csv";
                    UploadedFile.content := "" |} ] in
  files <> []
  /\ snd (handleUpload sample_Papa_parse files false initial_state) = []
  /\ render (fst (handleUpload sample_Papa_parse files false initial_state))
     = ReportView (parseCSVData sample_Papa_parse sample_csv).
Proof.
  cbv zeta.
  assert (Hne : [ {| UploadedFile.name := "north.csv";
                     UploadedFile.content := sample_csv |};
                  {| UploadedFile.name := "south.csv";
                     UploadedFile.content := "" |} ] <> []) by discriminate.
  split; [exact Hne|].
  destruct (handleUpload_modes sample_Papa_parse _ false initial_state Hne)
    as [[_ [message H]]|[Hs [(_ & file & rest & records & Hf & -> & _ & ->)
                             |[H _]]]].
  - discriminate H.
  - split; [exact Hs|]. injection Hf as <- _. reflexivity.
  - discriminate H.
Defined.

(** ** Cells of decimal digits *)

Lemma or_num_digits (text : string) :
  test_digits text = true ->
  or_num (parseInt (to_string (Some text))) (Int 0)
  = to_double (digits_value text 0).
Proof.
  intros H. simpl. rewrite (parseInt_digits _ H). apply or_num_to_double.
Qed.

(** Every counter that [parseCSVData] reads from a cell made of decimal
    digits only is the double for the decimal value of the cell: that value
    itself when it is below 2^53. *)
Theorem parseCSVData_reads_digits (Papa_parse : string -> ParseResult.t)
  (csvText : string) (r : BlacklistRecord.t) :
  In r (parseCSVData Papa_parse csvText) ->
  exists rows row,
    ParseResult.data (Papa_parse csvText) = Some rows
    /\ In row rows
    /\ forall counter column text,
         In (counter, column) counter_columns ->
         column row = Some text -> test_digits text = true ->
         counter r = to_double (digits_value text 0)
         /\ (digits_value text 0 < 2 ^ 53 ->
             counter r = Int (digits_value text 0)).
Proof.
  unfold parseCSVData.
  destruct (ParseResult.data (Papa_parse csvText)) as [rows|]; [|intros []].
  destruct (0 <? _); [intros []|].
  rewrite in_map_iff. intros [row [<- Hrow]].
  exists rows, row. split; [reflexivity|]. split; [assumption|].
  intros counter column text Hin Hcell Hdigits.
  assert (Hvalue : 0 <= digits_value text 0).
  { pose proof (parse_digits_digits text 0 (test_digits_all _ Hdigits)) as Hp.
    eapply (parse_digits_nonneg 10); [lia | | exact Hp].
    intros a0 [= <-]. lia. }
  assert (Hexact : digits_value text 0 < 2 ^ 53 ->
                   to_double (digits_value text 0)
                   = Int (digits_value text 0)).
  { intros Hlt. apply to_double_exact. lia. }
  simpl in Hin.
  repeat (destruct Hin as [[= <- <-]|Hin];
          [simpl; rewrite Hcell, (or_num_digits _ Hdigits);
           split; [reflexivity | exact Hexact]|]).
  destruct Hin.
Qed.

Lemma parseCSVData_reads_digits_witness :
  exists r,
    In r (parseCSVData sample_Papa_parse sample_csv)
    /\ digits_value "3" 0 < 2 ^ 53
    /\ black_outbound_count r = Int (digits_value "3" 0).
Proof.
  exists {| dt := ""; account := unknown; province := unknown; group := "";
            total_outbound_count := Int (-5); black_outbound_count := Int 3;
            total_pickup_count := Int 0; black_pickup_count := Int 0;
            total_pay_count := Int 0; black_pay_count := Int 0;
            total_complain_count := Int 0;
            black_complain_count := Int 0 |}.
  assert (Hin : In {| dt := ""; account := unknown; province := unknown;
                      group := "";
                      total_outbound_count := Int (-5);
                      black_outbound_count := Int 3;
                      total_pickup_count := Int 0;
                      black_pickup_count := Int 0;
                      total_pay_count := Int 0; black_pay_count := Int 0;
                      total_complain_count := Int 0;
                      black_complain_count := Int 0 |}
                   (parseCSVData sample_Papa_parse sample_csv)).
  { left. vm_compute. reflexivity. }
  assert (Hlt : digits_value "3" 0 < 2 ^ 53) by reflexivity.
  split; [exact Hin|]. split; [exact Hlt|].
  destruct (parseCSVData_reads_digits sample_Papa_parse sample_csv _ Hin)
    as [rows [row [Hdata [Hrow Hcells]]]].
  injection Hdata as <-. destruct Hrow as [<-|[]].
  exact (proj2 (Hcells black_outbound_count CSVRow.black_outbound_count "3"
                  (or_intror (or_introl eq_refl)) eq_refl eq_refl) Hlt).
Defined.
